(** * Nairobi schools / population pipeline: tabular model and properties

    A shallow embedding of [data_wrangling.py], of the metric derivation and
    the chart values of [visualize_completion_rates.py], and of the table
    functions of [visualize_schools.py].

    Tables are lists of typed rows: the column naming scheme of the two CSV
    files is fixed, so a row is a record with one field per column the code
    reads, and a missing column ([KeyError]) is excluded by typing.  A null
    cell is [None] in a text column and [NaN] in a numeric column, as pandas
    stores it. *)

From Stdlib Require Import QArith Qreduction Qabs Ascii Lqa.
From stdpp Require Import base option list sorting strings gmap.

Local Open Scope string_scope.
Local Open Scope list_scope.

(** ** Numeric cells

    A float64 cell is modelled as an exact rational or one of the three IEEE
    special values; rounding and the sign of zero are outside the model,
    except in the layout of the waterfall chart, whose operations are
    rounded.  Finite results are kept reduced so that equal values are equal
    terms. *)

Inductive num : Type :=
  | Fin (q : Q)
  | PInf
  | NInf
  | NaN.

Definition fin (q : Q) : num := Fin (Qred q).

Definition num_of_nat (n : nat) : num := Fin (inject_Z (Z.of_nat n)).

Definition is_nan (x : num) : bool :=
  match x with NaN => true | _ => false end.

Definition is_finite (x : num) : bool :=
  match x with Fin _ => true | _ => false end.

Definition Qsign (q : Q) : comparison := (Qnum q ?= 0)%Z.

Definition is_zero (x : num) : bool :=
  match x with Fin q => (Qnum q =? 0)%Z | _ => false end.

Definition fadd (x y : num) : num :=
  match x, y with
  | NaN, _ | _, NaN => NaN
  | Fin a, Fin b => fin (a + b)
  | PInf, NInf | NInf, PInf => NaN
  | PInf, _ | _, PInf => PInf
  | NInf, _ | _, NInf => NInf
  end.

Definition fmul (x y : num) : num :=
  match x, y with
  | NaN, _ | _, NaN => NaN
  | Fin a, Fin b => fin (a * b)
  | Fin a, PInf | PInf, Fin a =>
      match Qsign a with Eq => NaN | Gt => PInf | Lt => NInf end
  | Fin a, NInf | NInf, Fin a =>
      match Qsign a with Eq => NaN | Gt => NInf | Lt => PInf end
  | PInf, PInf | NInf, NInf => PInf
  | PInf, NInf | NInf, PInf => NInf
  end.

(** True division as numpy performs it on float64: a zero divisor gives an
    infinity or [NaN], never an exception. *)
Definition fdiv (x y : num) : num :=
  match x, y with
  | NaN, _ | _, NaN => NaN
  | Fin a, Fin b =>
      match Qsign b with
      | Eq => match Qsign a with Eq => NaN | Gt => PInf | Lt => NInf end
      | _ => fin (a / b)
      end
  | Fin _, (PInf | NInf) => Fin 0
  | (PInf | NInf), (PInf | NInf) => NaN
  | PInf, Fin b => match Qsign b with Lt => NInf | _ => PInf end
  | NInf, Fin b => match Qsign b with Lt => PInf | _ => NInf end
  end.

(** ** Division names *)

(** [name_mapping] of [normalize_division_name]: schools use KIBERA, the
    population table uses KIBRA. *)
Definition name_mapping : gmap string string := {[ "KIBERA" := "KIBRA" ]}.

Definition normalize_division_name (division : string) : string :=
  default division (name_mapping !! division).

Definition get_nairobi_subcounties : list string :=
  [ "NAIROBI CITY";
    "WESTLANDS";
    "DAGORETTI NORTH";
    "DAGORETTI SOUTH";
    "LANG'ATA";
    "KIBRA";
    "ROYSAMBU";
    "KASARANI";
    "RUARAKA";
    "EMBAKASI NORTH";
    "EMBAKASI CENTRAL";
    "EMBAKASI EAST";
    "EMBAKASI WEST";
    "EMBAKASI SOUTH";
    "MAKADARA";
    "KAMUKUNJI";
    "STAREHE";
    "MATHARE" ].

(** ** Tables *)

(** A cell of a column read from CSV: a number when the whole column parsed
    as numbers, text otherwise.  The null cell is [Num NaN]. *)
Inductive cell : Type :=
  | Str (s : string)
  | Num (x : num).

Definition null : cell := Num NaN.

(** Row of [kenya_primary_schools.csv]: the columns the pipeline reads. *)
Module School.
Record row : Type := Row {
  Province : option string;
  Level_ : option string;
  Division : option string;
  FID : option Z;
  TotalEnrol : num;
  TotalBoys : num;
  TotalGirls : num;
  No_Classrm : num;
  TeachersTo : num;
  Latitude : num;
  Longitude : num
}.
End School.

(** Row of the population table.  [County_Sub_County] is the column
    "County/ Sub-County", [Total] is "Total*", and the four attendance
    columns are abbreviated as [main] abbreviates them. *)
Module Pop.
Record row : Type := Row {
  County_Sub_County : option string;
  Total : cell;
  At_School : cell;
  Left_After_Completion : cell;
  Left_Before_Completion : cell;
  Never_Been_to_School : cell
}.
End Pop.

(** Row of [school_stats], after the columns are renamed. *)
Module Stats.
Record row : Type := Row {
  Division : string;
  School_Count : nat;
  Total_Enrollment : num;
  Total_Boys : num;
  Total_Girls : num;
  Total_Classrooms : num;
  Total_Teachers : num;
  Latitude : num;
  Longitude : num
}.
End Stats.

(** The indicator column [_merge]. *)
Inductive merge_tag : Type := left_only | right_only | both.

Global Instance merge_tag_eq_dec : EqDecision merge_tag.
Proof. solve_decision. Defined.

(** Row of the merged table: the columns of [school_stats], then those of the
    population table, then the indicator. *)
Module Merged.
Record row : Type := Row {
  Division : option string;
  School_Count : num;
  Total_Enrollment : num;
  Total_Boys : num;
  Total_Girls : num;
  Total_Classrooms : num;
  Total_Teachers : num;
  Latitude : num;
  Longitude : num;
  County_Sub_County : option string;
  Total : cell;
  At_School : cell;
  Left_After_Completion : cell;
  Left_Before_Completion : cell;
  Never_Been_to_School : cell;
  _merge : merge_tag
}.
End Merged.

(** ** Subsetting *)

(** [df[mask]]: the rows at which the boolean mask holds. *)
Fixpoint getitem_mask {A : Type} (df : list A) (mask : list bool) : list A :=
  match df, mask with
  | r :: df', b :: mask' =>
      if b then r :: getitem_mask df' mask' else getitem_mask df' mask'
  | _, _ => []
  end.

(** [series == value]: a null cell compares unequal. *)
Definition series_eq (series : list (option string)) (value : string) : list bool :=
  (λ c, bool_decide (c = Some value)) <$> series.

(** [series.isin(values)]. *)
Definition isin (series : list (option string)) (values : list string) : list bool :=
  (λ c, match c with
        | Some s => bool_decide (s ∈ values)
        | None => false
        end) <$> series.

Section subset.
Context {A : Type}.

(** The column argument of each operation is the projection of that column;
    the defaults are [School.Province], [School.Level_] and
    [Pop.County_Sub_County]. *)
Definition subset_by_province (df : list A) (province : string)
    (province_col : A → option string) : list A :=
  getitem_mask df (series_eq (province_col <$> df) province).

Definition subset_by_level (df : list A) (level : string)
    (level_col : A → option string) : list A :=
  getitem_mask df (series_eq (level_col <$> df) level).

Definition subset_by_subcounties (df : list A) (subcounties : list string)
    (subcounty_col : A → option string) : list A :=
  getitem_mask df (isin (subcounty_col <$> df) subcounties).
End subset.

(** ** Aggregation *)

(** The order of the group keys: strings compare byte by byte, which on
    UTF-8 text is the order of code points. *)
Definition string_le : relation string := λ a b, String.leb a b.

Global Instance string_le_dec (a b : string) : Decision (string_le a b).
Proof. unfold string_le. apply _. Defined.

(** The non-null values of a numeric column. *)
Definition dropna (xs : list num) : list num :=
  filter (λ x, is_nan x = false) xs.

(** ['sum']: nulls are skipped, and the sum of no value is 0. *)
Definition agg_sum (xs : list num) : num :=
  foldl fadd (Fin 0) (dropna xs).

(** ['mean']: nulls are skipped, and the mean of no value is null. *)
Definition agg_mean (xs : list num) : num :=
  match dropna xs with
  | [] => NaN
  | ys => fdiv (foldl fadd (Fin 0) ys) (num_of_nat (length ys))
  end.

(** ['count']: the number of non-null cells. *)
Definition agg_count {A : Type} (xs : list (option A)) : nat :=
  length (filter is_Some xs).

(** The group keys of [groupby]: the distinct non-null keys, sorted. *)
Definition group_keys (keys : list (option string)) : list string :=
  merge_sort string_le (remove_dups (omap id keys)).

(** The rows of a group: those whose key cell is the group key. *)
Definition group_of (k : string) (df : list (School.row * option string)) :
    list School.row :=
  fst <$> filter (λ rn, rn.2 = Some k) df.

Definition agg_row (k : string) (g : list School.row) : Stats.row :=
  {| Stats.Division := k;
     Stats.School_Count := agg_count (School.FID <$> g);
     Stats.Total_Enrollment := agg_sum (School.TotalEnrol <$> g);
     Stats.Total_Boys := agg_sum (School.TotalBoys <$> g);
     Stats.Total_Girls := agg_sum (School.TotalGirls <$> g);
     Stats.Total_Classrooms := agg_sum (School.No_Classrm <$> g);
     Stats.Total_Teachers := agg_sum (School.TeachersTo <$> g);
     Stats.Latitude := agg_mean (School.Latitude <$> g);
     Stats.Longitude := agg_mean (School.Longitude <$> g) |}.

(** [df.groupby('Normalized_Division').agg({...}).reset_index()] with the
    columns renamed; [df] is the school table paired with its
    [Normalized_Division] column.  Rows with a null key belong to no group. *)
Definition groupby_agg (df : list (School.row * option string)) : list Stats.row :=
  (λ k, agg_row k (group_of k df)) <$> group_keys (snd <$> df).

(** [school_df[school_division_col].apply(normalize_division_name)]; a null
    cell is not a key of [name_mapping] and is returned as it is. *)
Definition apply_normalize (series : list (option string)) : list (option string) :=
  (λ division : option string, normalize_division_name <$> division) <$> series.

(** ** Outer merge *)

Definition left_only_row (l : Stats.row) : Merged.row :=
  {| Merged.Division := Some (Stats.Division l);
     Merged.School_Count := num_of_nat (Stats.School_Count l);
     Merged.Total_Enrollment := Stats.Total_Enrollment l;
     Merged.Total_Boys := Stats.Total_Boys l;
     Merged.Total_Girls := Stats.Total_Girls l;
     Merged.Total_Classrooms := Stats.Total_Classrooms l;
     Merged.Total_Teachers := Stats.Total_Teachers l;
     Merged.Latitude := Stats.Latitude l;
     Merged.Longitude := Stats.Longitude l;
     Merged.County_Sub_County := None;
     Merged.Total := null;
     Merged.At_School := null;
     Merged.Left_After_Completion := null;
     Merged.Left_Before_Completion := null;
     Merged.Never_Been_to_School := null;
     Merged._merge := left_only |}.

Definition right_only_row (r : Pop.row) : Merged.row :=
  {| Merged.Division := None;
     Merged.School_Count := NaN;
     Merged.Total_Enrollment := NaN;
     Merged.Total_Boys := NaN;
     Merged.Total_Girls := NaN;
     Merged.Total_Classrooms := NaN;
     Merged.Total_Teachers := NaN;
     Merged.Latitude := NaN;
     Merged.Longitude := NaN;
     Merged.County_Sub_County := Pop.County_Sub_County r;
     Merged.Total := Pop.Total r;
     Merged.At_School := Pop.At_School r;
     Merged.Left_After_Completion := Pop.Left_After_Completion r;
     Merged.Left_Before_Completion := Pop.Left_Before_Completion r;
     Merged.Never_Been_to_School := Pop.Never_Been_to_School r;
     Merged._merge := right_only |}.

Definition both_row (l : Stats.row) (r : Pop.row) : Merged.row :=
  {| Merged.Division := Some (Stats.Division l);
     Merged.School_Count := num_of_nat (Stats.School_Count l);
     Merged.Total_Enrollment := Stats.Total_Enrollment l;
     Merged.Total_Boys := Stats.Total_Boys l;
     Merged.Total_Girls := Stats.Total_Girls l;
     Merged.Total_Classrooms := Stats.Total_Classrooms l;
     Merged.Total_Teachers := Stats.Total_Teachers l;
     Merged.Latitude := Stats.Latitude l;
     Merged.Longitude := Stats.Longitude l;
     Merged.County_Sub_County := Pop.County_Sub_County r;
     Merged.Total := Pop.Total r;
     Merged.At_School := Pop.At_School r;
     Merged.Left_After_Completion := Pop.Left_After_Completion r;
     Merged.Left_Before_Completion := Pop.Left_Before_Completion r;
     Merged.Never_Been_to_School := Pop.Never_Been_to_School r;
     Merged._merge := both |}.

(** The output rows of one key: the pairs of its left and right rows, or the
    rows of the one side that has the key. *)
Definition join_key (ls : list Stats.row) (rs : list Pop.row) : list Merged.row :=
  match ls, rs with
  | [], _ => right_only_row <$> rs
  | _, [] => left_only_row <$> ls
  | _, _ => l ← ls; both_row l <$> rs
  end.

Definition left_rows (k : string) (left : list Stats.row) : list Stats.row :=
  filter (λ l, Stats.Division l = k) left.

Definition right_rows (k : option string) (right : list Pop.row) : list Pop.row :=
  filter (λ r, Pop.County_Sub_County r = k) right.

(** The keys the merge goes through: the union of the keys of both tables, in
    sorted order. *)
Definition merge_keys (left : list Stats.row) (right : list Pop.row) : list string :=
  merge_sort string_le
    (remove_dups ((Stats.Division <$> left) ++ omap Pop.County_Sub_County right)).

(** [left.merge(right, left_on='Division', right_on=pop_subcounty_col,
    how='outer', indicator=True)]: the rows of each key in turn, then the
    right rows whose key is null (the left table has no null key).  Both key
    columns are columns of text (dtype object), as [read_csv] types a column
    of the file in which some cell is a name, whatever rows of it the table
    keeps; pandas refuses to merge a key of text with a key of numbers. *)
Definition merge_outer (left : list Stats.row) (right : list Pop.row) :
    list Merged.row :=
  (k ← merge_keys left right;
   join_key (left_rows k left) (right_rows (Some k) right))
  ++ (right_only_row <$> right_rows None right).

(** The table [school_stats] of [merge_schools_population]: the school table
    with its [Normalized_Division] column, grouped and aggregated. *)
Definition school_stats (school_df : list School.row)
    (school_division_col : School.row → option string) : list Stats.row :=
  let Normalized_Division := apply_normalize (school_division_col <$> school_df) in
  groupby_agg (zip school_df Normalized_Division).

(** [merge_schools_population], as a function of the contents of its two
    arguments; [school_division_col] is the projection of the division column
    (default [School.Division]), [pop_subcounty_col] is fixed by [Pop.row]. *)
Definition merge_schools_population (school_df : list School.row) (pop_df : list Pop.row)
    (school_division_col : School.row → option string) : list Merged.row :=
  merge_outer (school_stats school_df school_division_col) pop_df.

(** ** Metric derivation *)

(** [s.replace(',', '')]. *)
Fixpoint str_replace_comma (s : string) : string :=
  match s with
  | EmptyString => EmptyString
  | String c s' =>
      if Ascii.eqb c ","%char then str_replace_comma s'
      else String c (str_replace_comma s')
  end.

(** Rows of the table [calculate_completion_metrics] returns: the columns of
    the merged table, the five attendance columns now float64, and
    [Completed_Rate]. *)
Module Metrics.
Record row : Type := Row {
  Division : option string;
  School_Count : num;
  Total_Enrollment : num;
  Total_Boys : num;
  Total_Girls : num;
  Total_Classrooms : num;
  Total_Teachers : num;
  Latitude : num;
  Longitude : num;
  County_Sub_County : option string;
  Total : num;
  At_School : num;
  Left_After_Completion : num;
  Left_Before_Completion : num;
  Never_Been_to_School : num;
  _merge : merge_tag;
  Completed_Rate : num
}.

Definition set_Completed_Rate (r : row) (v : num) : row :=
  Row (Division r) (School_Count r) (Total_Enrollment r) (Total_Boys r)
    (Total_Girls r) (Total_Classrooms r) (Total_Teachers r) (Latitude r)
    (Longitude r) (County_Sub_County r) (Total r) (At_School r)
    (Left_After_Completion r) (Left_Before_Completion r)
    (Never_Been_to_School r) (_merge r) v.
End Metrics.

(** Rows of the local table of [create_schools_per_capita_charts] once its
    derived columns are assigned: the row of [metrics_df] with
    [Completed_Rate] assigned again, and the three new columns. *)
Module Capita.
Record row : Type := Row {
  base : Metrics.row;
  Total_Pop : num;
  Schools_per_10k : num;
  Students_per_School : num
}.
End Capita.

Definition is_str (c : cell) : bool :=
  match c with Str _ => true | Num _ => false end.

(** [series == tag] on the indicator column. *)
Definition merge_eq (series : list merge_tag) (tag : merge_tag) : list bool :=
  (λ t, bool_decide (t = tag)) <$> series.

(** A parser for closed examples: a non-empty string of decimal digits,
    which [float] reads as the integer it spells. *)
Definition digit_value (c : Ascii.ascii) : option Z :=
  let n := Z.of_N (Ascii.N_of_ascii c) in
  if bool_decide (48 ≤ n ≤ 57)%Z then Some (n - 48)%Z else None.

Fixpoint digits_value (acc : Z) (s : string) : option Z :=
  match s with
  | EmptyString => Some acc
  | String c s' => d ← digit_value c; digits_value (10 * acc + d)%Z s'
  end.

Definition float_of_digits (s : string) : option num :=
  match s with
  | EmptyString => None
  | _ => (λ n, Fin (inject_Z n)) <$> digits_value 0 s
  end.

Section metrics.
(** [float(s)] for a text cell: [None] stands for [ValueError].  The
    parser is Python's and is left open here. *)
Variable astype_float : string → option num.

(** A column is of dtype [object] when it holds text, as [read_csv] leaves
    it: there every cell is text or null.  The [.str] accessor gives null
    for a cell that is not text. *)
Definition dtype_object (series : list cell) : bool := existsb is_str series.

Definition str_replace_astype (c : cell) : option num :=
  match c with
  | Str s => astype_float (str_replace_comma s)
  | Num _ => Some NaN
  end.

(** A cell of a column that is not of dtype [object]; such a column holds no
    text. *)
Definition float_cell (c : cell) : option num :=
  match c with
  | Num x => Some x
  | Str _ => None
  end.

Definition clean_numeric (series : list cell) : option (list num) :=
  if dtype_object series then mapM str_replace_astype series
  else mapM float_cell series.

(** What [clean_numeric] makes of one cell of a column. *)
Definition clean_cell (series : list cell) (c : cell) : option num :=
  if dtype_object series then str_replace_astype c else float_cell c.

(** [(completed / total) * 100], element by element. *)
Definition rate_series (completed total : list num) : list num :=
  zip_with (λ c t, fmul (fdiv c t) (Fin 100)) completed total.

Definition calculate_completion_metrics (merged_df : list Merged.row) :
    option (list Metrics.row) :=
  let df := getitem_mask merged_df (merge_eq (Merged._merge <$> merged_df) both) in
  total ← clean_numeric (Merged.Total <$> df);
  at_school ← clean_numeric (Merged.At_School <$> df);
  completed ← clean_numeric (Merged.Left_After_Completion <$> df);
  dropped ← clean_numeric (Merged.Left_Before_Completion <$> df);
  never ← clean_numeric (Merged.Never_Been_to_School <$> df);
  let Completed_Rate := rate_series completed total in
  Some (imap (λ i r,
    {| Metrics.Division := Merged.Division r;
       Metrics.School_Count := Merged.School_Count r;
       Metrics.Total_Enrollment := Merged.Total_Enrollment r;
       Metrics.Total_Boys := Merged.Total_Boys r;
       Metrics.Total_Girls := Merged.Total_Girls r;
       Metrics.Total_Classrooms := Merged.Total_Classrooms r;
       Metrics.Total_Teachers := Merged.Total_Teachers r;
       Metrics.Latitude := Merged.Latitude r;
       Metrics.Longitude := Merged.Longitude r;
       Metrics.County_Sub_County := Merged.County_Sub_County r;
       Metrics.Total := default NaN (total !! i);
       Metrics.At_School := default NaN (at_school !! i);
       Metrics.Left_After_Completion := default NaN (completed !! i);
       Metrics.Left_Before_Completion := default NaN (dropped !! i);
       Metrics.Never_Been_to_School := default NaN (never !! i);
       Metrics._merge := Merged._merge r;
       Metrics.Completed_Rate := default NaN (Completed_Rate !! i) |}) df).

(** The columns [calculate_completion_metrics] cleans, in its order. *)
Definition attendance_cols : list (Merged.row → cell) :=
  [ Merged.Total; Merged.At_School; Merged.Left_After_Completion;
    Merged.Left_Before_Completion; Merged.Never_Been_to_School ].

(** The rows with the indicator [both]. *)
Definition matched (merged_df : list Merged.row) : list Merged.row :=
  filter (λ m, Merged._merge m = both) merged_df.

(** A row [m] of the metrics table is derived from the row [r] of the
    matched table [df]: each attendance cell is cleaned within its column,
    the completion rate is completed / total * 100, and the other columns
    are those of [r]. *)
Definition metrics_of (df : list Merged.row) (r : Merged.row)
    (m : Metrics.row) : Prop :=
  clean_cell (Merged.Total <$> df) (Merged.Total r) = Some (Metrics.Total m)
  ∧ clean_cell (Merged.At_School <$> df) (Merged.At_School r)
    = Some (Metrics.At_School m)
  ∧ clean_cell (Merged.Left_After_Completion <$> df)
      (Merged.Left_After_Completion r)
    = Some (Metrics.Left_After_Completion m)
  ∧ clean_cell (Merged.Left_Before_Completion <$> df)
      (Merged.Left_Before_Completion r)
    = Some (Metrics.Left_Before_Completion m)
  ∧ clean_cell (Merged.Never_Been_to_School <$> df)
      (Merged.Never_Been_to_School r)
    = Some (Metrics.Never_Been_to_School m)
  ∧ Metrics.Completed_Rate m
    = fmul (fdiv (Metrics.Left_After_Completion m) (Metrics.Total m)) (Fin 100)
  ∧ Metrics.Division m = Merged.Division r
  ∧ Metrics.County_Sub_County m = Merged.County_Sub_County r
  ∧ Metrics.School_Count m = Merged.School_Count r
  ∧ Metrics.Total_Enrollment m = Merged.Total_Enrollment r
  ∧ Metrics._merge m = both.

(** The derived columns of [create_schools_per_capita_charts]; sorting and
    drawing are not modelled.  [Total*] and the completed column are already
    float64 in [metrics_df]. *)
Definition create_schools_per_capita_charts (metrics_df : list Metrics.row) :
    option (list Capita.row) :=
  let df := metrics_df in
  Total_Pop ← clean_numeric (Num <$> (Metrics.Total <$> df));
  let Schools_per_10k :=
    zip_with (λ n p, fmul (fdiv n p) (Fin 10000))
      (Metrics.School_Count <$> df) Total_Pop in
  let Students_per_School :=
    zip_with fdiv (Metrics.Total_Enrollment <$> df) (Metrics.School_Count <$> df) in
  completed ← clean_numeric (Num <$> (Metrics.Left_After_Completion <$> df));
  let Completed_Rate := rate_series completed Total_Pop in
  Some (imap (λ i r,
    {| Capita.base :=
         Metrics.set_Completed_Rate r (default NaN (Completed_Rate !! i));
       Capita.Total_Pop := default NaN (Total_Pop !! i);
       Capita.Schools_per_10k := default NaN (Schools_per_10k !! i);
       Capita.Students_per_School := default NaN (Students_per_School !! i) |}) df).
End metrics.

(** A row [c] of the per-capita table is derived from the row [m] of the
    metrics table. *)
Definition capita_of (m : Metrics.row) (c : Capita.row) : Prop :=
  Capita.Total_Pop c = Metrics.Total m
  ∧ Capita.Schools_per_10k c
    = fmul (fdiv (Metrics.School_Count m) (Metrics.Total m)) (Fin 10000)
  ∧ Capita.Students_per_School c
    = fdiv (Metrics.Total_Enrollment m) (Metrics.School_Count m)
  ∧ Metrics.Completed_Rate (Capita.base c)
    = fmul (fdiv (Metrics.Left_After_Completion m) (Metrics.Total m)) (Fin 100)
  ∧ Capita.base c
    = Metrics.set_Completed_Rate m (Metrics.Completed_Rate (Capita.base c)).

(** ** Tables as objects

    The tables the functions receive are references to mutable objects.  The
    store maps a reference to the table it holds; a function is a
    computation on the store that may fail ([None]: [KeyError] and the
    like). *)

Inductive frame : Type :=
  | SchoolFrame (rows : list School.row)
      (Normalized_Division : option (list (option string)))
  | PopFrame (rows : list Pop.row)
  | StatsFrame (rows : list Stats.row)
  | MergedFrame (rows : list Merged.row).

Abbreviation loc := positive (only parsing).

Abbreviation store := (gmap positive frame) (only parsing).

Definition prog (A : Type) : Type := store → option (A * store).

Definition ret {A : Type} (a : A) : prog A := λ h, Some (a, h).

Definition bind {A B : Type} (m : prog A) (k : A → prog B) : prog B :=
  λ h, match m h with
       | Some (a, h') => k a h'
       | None => None
       end.

Definition raise {A : Type} : prog A := λ _, None.

Declare Scope prog_scope.
Delimit Scope prog_scope with prog.
Notation "x <<- m ;; k" := (bind m (λ x, k))
  (at level 100, m at next level, right associativity) : prog_scope.
Notation "m ;;; k" := (bind m (λ _, k))
  (at level 100, right associativity) : prog_scope.

Definition new (f : frame) : prog loc :=
  λ h, let l := fresh (dom h) in Some (l, <[l := f]> h).

Definition read (l : loc) : prog frame :=
  λ h, match h !! l with Some f => Some (f, h) | None => None end.

Definition write (l : loc) (f : frame) : prog unit :=
  λ h, match h !! l with Some _ => Some (tt, <[l := f]> h) | None => None end.

Definition lift {A : Type} (o : option A) : prog A :=
  match o with Some a => ret a | None => raise end.

(** A text column named in an argument: the cells of that column of a table,
    [None] when the table has no such column. *)
Definition column : Type := frame → option (list (option string)).

Definition Province_col : column := λ f,
  match f with SchoolFrame rows _ => Some (School.Province <$> rows) | _ => None end.

Definition Level_col : column := λ f,
  match f with SchoolFrame rows _ => Some (School.Level_ <$> rows) | _ => None end.

Definition Division_col : column := λ f,
  match f with SchoolFrame rows _ => Some (School.Division <$> rows) | _ => None end.

Definition County_Sub_County_col : column := λ f,
  match f with PopFrame rows => Some (Pop.County_Sub_County <$> rows) | _ => None end.

(** [df[mask]] on a table: every column is cut by the mask. *)
Definition frame_getitem_mask (f : frame) (mask : list bool) : frame :=
  match f with
  | SchoolFrame rows nd =>
      SchoolFrame (getitem_mask rows mask) ((λ c, getitem_mask c mask) <$> nd)
  | PopFrame rows => PopFrame (getitem_mask rows mask)
  | StatsFrame rows => StatsFrame (getitem_mask rows mask)
  | MergedFrame rows => MergedFrame (getitem_mask rows mask)
  end.

Local Open Scope prog_scope.

Definition subset_by_province_prog (df : loc) (province : string)
    (province_col : column) : prog loc :=
  f <<- read df ;;
  series <<- lift (province_col f) ;;
  new (frame_getitem_mask f (series_eq series province)).

Definition subset_by_level_prog (df : loc) (level : string)
    (level_col : column) : prog loc :=
  f <<- read df ;;
  series <<- lift (level_col f) ;;
  new (frame_getitem_mask f (series_eq series level)).

Definition subset_by_subcounties_prog (df : loc) (subcounties : list string)
    (subcounty_col : column) : prog loc :=
  f <<- read df ;;
  series <<- lift (subcounty_col f) ;;
  new (frame_getitem_mask f (isin series subcounties)).

(** [df.copy()]. *)
Definition copy (df : loc) : prog loc :=
  f <<- read df ;; new f.

(** [df['Normalized_Division'] = series]: the table is updated in place. *)
Definition setitem_Normalized_Division (df : loc) (series : list (option string)) :
    prog unit :=
  f <<- read df ;;
  match f with
  | SchoolFrame rows _ =>
      if bool_decide (length series = length rows)
      then write df (SchoolFrame rows (Some series))
      else raise
  | _ => raise
  end.

(** [df.groupby('Normalized_Division').agg({...}).reset_index()], and the
    assignment to [columns] of the new table. *)
Definition groupby_agg_prog (df : loc) : prog loc :=
  f <<- read df ;;
  match f with
  | SchoolFrame rows (Some nd) => new (StatsFrame (groupby_agg (zip rows nd)))
  | _ => raise
  end.

Definition merge_prog (left right : loc) : prog loc :=
  l <<- read left ;;
  r <<- read right ;;
  match l, r with
  | StatsFrame ls, PopFrame rs => new (MergedFrame (merge_outer ls rs))
  | _, _ => raise
  end.

Definition merge_schools_population_prog (school_df pop_df : loc)
    (school_division_col : column) : prog loc :=
  school_df <<- copy school_df ;;
  f <<- read school_df ;;
  series <<- lift (school_division_col f) ;;
  setitem_Normalized_Division school_df (apply_normalize series) ;;;
  school_stats <<- groupby_agg_prog school_df ;;
  merged_df <<- merge_prog school_stats pop_df ;;
  ret merged_df.

(** The same function without the copy of its first argument, to compare. *)
Definition merge_in_place_prog (school_df pop_df : loc)
    (school_division_col : column) : prog loc :=
  f <<- read school_df ;;
  series <<- lift (school_division_col f) ;;
  setitem_Normalized_Division school_df (apply_normalize series) ;;;
  school_stats <<- groupby_agg_prog school_df ;;
  merged_df <<- merge_prog school_stats pop_df ;;
  ret merged_df.

Local Close Scope prog_scope.

(** ** School distribution

    The table functions of [visualize_schools.py]. *)

(** [mask1 & mask2]. *)
Definition mask_and (mask1 mask2 : list bool) : list bool :=
  zip_with andb mask1 mask2.

(** [df.dropna(subset=['Latitude', 'Longitude'])]: the rows in which neither
    cell is null. *)
Definition dropna_coordinates (df : list School.row) : list School.row :=
  filter (λ r, is_nan (School.Latitude r) = false
               ∧ is_nan (School.Longitude r) = false) df.

(** [load_nairobi_schools], from the table [read_csv] returns. *)
Definition load_nairobi_schools (df : list School.row) : list School.row :=
  let df :=
    getitem_mask df
      (mask_and (series_eq (School.Province <$> df) "NAIROBI")
         (series_eq (School.Level_ <$> df) "PRIMARY SCHOOL")) in
  dropna_coordinates df.

(** Row of [division_stats], after the columns are renamed. *)
Module DivisionStats.
Record row : Type := Row {
  Division : string;
  School_Count : nat;
  Lat_Mean : num;
  Lat_Std : num;
  Lon_Mean : num;
  Lon_Std : num
}.
End DivisionStats.

(** The order of [sort_values('School_Count', ascending=False)]. *)
Definition count_ge : relation DivisionStats.row :=
  λ a b, (DivisionStats.School_Count b ≤ DivisionStats.School_Count a)%nat.

Global Instance count_ge_dec (a b : DivisionStats.row) : Decision (count_ge a b).
Proof. unfold count_ge. apply _. Defined.

Section division_statistics.
(** ['std'] of a column of a group: the sample standard deviation, a square
    root, is left open. *)
Variable agg_std : list num → num.

(** The aggregates of one group: 'count' of [FID], 'mean' and 'std' of the
    coordinates. *)
Definition division_row (k : string) (g : list School.row) : DivisionStats.row :=
  {| DivisionStats.Division := k;
     DivisionStats.School_Count := agg_count (School.FID <$> g);
     DivisionStats.Lat_Mean := agg_mean (School.Latitude <$> g);
     DivisionStats.Lat_Std := agg_std (School.Latitude <$> g);
     DivisionStats.Lon_Mean := agg_mean (School.Longitude <$> g);
     DivisionStats.Lon_Std := agg_std (School.Longitude <$> g) |}.

(** The groups are those of the [Division] column as it is, not normalized.
    Among rows of equal count the order pandas leaves is not determined; here
    they stay in the order of their names. *)
Definition create_division_statistics (df : list School.row) :
    list DivisionStats.row :=
  let grouped := zip df (School.Division <$> df) in
  let division_stats :=
    (λ k, division_row k (group_of k grouped))
    <$> group_keys (snd <$> grouped) in
  merge_sort count_ge division_stats.
End division_statistics.

(** [sorted(df['Division'].unique())] of [create_static_visualizations], the
    list the scatter plot goes through: the distinct cells in order of first
    appearance, sorted.  A null cell is a float, and comparing it with a
    string raises [TypeError] ([None]); alone it is returned as it is. *)
Definition sorted_unique (series : list (option string)) :
    option (list (option string)) :=
  let unique := remove_dups series in
  if bool_decide (None ∈ unique)
  then if bool_decide (unique = [None]) then Some [None] else None
  else Some (Some <$> merge_sort string_le (omap id unique)).

(** ** Completion charts

    The values [create_completion_rates_chart] and [create_grouped_waterfall]
    compute for their drawings; the drawing calls themselves are not
    modelled, and [None] stands for an exception raised while computing. *)

Definition fneg (x : num) : num :=
  match x with
  | Fin q => fin (- q)
  | PInf => NInf
  | NInf => PInf
  | NaN => NaN
  end.

Definition fsub (x y : num) : num := fadd x (fneg y).

(** [x <= y] on floats: false when either is NaN. *)
Definition fleb (x y : num) : bool :=
  match x, y with
  | NaN, _ | _, NaN => false
  | NInf, _ | _, PInf => true
  | Fin a, Fin b => Qle_bool a b
  | _, _ => false
  end.

(** [x > y]. *)
Definition fgtb (x y : num) : bool :=
  match x, y with
  | NaN, _ | _, NaN => false
  | _, _ => negb (fleb x y)
  end.

(** Python's [max] of a list: the first item no later item is greater than
    ([ValueError] on the empty list). *)
Definition py_max (xs : list num) : option num :=
  match xs with
  | [] => None
  | x :: xs' => Some (foldl (λ best y, if fgtb y best then y else best) x xs')
  end.

(** The order of [sort_values] on a float column, ascending: nulls last. *)
Definition rate_le : relation num :=
  λ x y, is_nan y || (negb (is_nan x) && fleb x y).

Global Instance rate_le_dec (x y : num) : Decision (rate_le x y).
Proof. unfold rate_le. apply _. Defined.

(** The colour of a bar of [create_completion_rates_chart]. *)
Definition rate_color (r : num) : string :=
  if fleb (Fin 50) r then "#2ecc71"
  else if fleb (Fin 45) r then "#f39c12"
  else "#e74c3c".

(** A bar of the completion chart: its division and rate, its colour, and
    the two numbers written beside it. *)
Record rate_bar : Type := RateBar {
  bar_division : option string;
  bar_rate : num;
  bar_color : string;
  bar_comp : num;
  bar_total : num
}.

Record rate_chart : Type := RateChart {
  bars : list rate_bar;
  avg : num;
  xlim : num
}.

(** Rows of the local table of [create_completion_rates_chart]: the row of
    [metrics_df] and the columns [Total_Pop], [Completed] and
    [Completion_Rate]. *)
Record rate_row : Type := RateRow {
  rate_base : Metrics.row;
  Total_Pop : num;
  Completed : num;
  Completion_Rate : num
}.

Definition rate_row_le : relation rate_row :=
  λ a b, rate_le (Completion_Rate a) (Completion_Rate b).

Global Instance rate_row_le_dec (a b : rate_row) : Decision (rate_row_le a b).
Proof. unfold rate_row_le. apply _. Defined.

(** [df[df['Division'] == div][column].iloc[0]]: the cell of the first row
    of that division; [IndexError] when there is none, as for a null [div]. *)
Definition first_of_division (df : list rate_row) (div : option string)
    (column : rate_row → num) : option num :=
  match div with
  | Some d =>
      column <$> head (filter (λ r, Metrics.Division (rate_base r) = Some d) df)
  | None => None
  end.

Section completion_charts.
Variable astype_float : string → option num.

(** Among rows of equal rate the order pandas leaves is not determined; here
    they stay in the order of the table. *)
Definition create_completion_rates_chart (metrics_df : list Metrics.row) :
    option rate_chart :=
  let df := metrics_df in
  total_pop ← clean_numeric astype_float (Num <$> (Metrics.Total <$> df));
  completed ← clean_numeric astype_float
                 (Num <$> (Metrics.Left_After_Completion <$> df));
  let completion_rate := rate_series completed total_pop in
  let df :=
    imap (λ i r,
      {| rate_base := r;
         Total_Pop := default NaN (total_pop !! i);
         Completed := default NaN (completed !! i);
         Completion_Rate := default NaN (completion_rate !! i) |}) df in
  let df := merge_sort rate_row_le df in
  let rates := Completion_Rate <$> df in
  bars ← mapM (λ r,
      let div := Metrics.Division (rate_base r) in
      comp ← first_of_division df div Completed;
      total ← first_of_division df div Total_Pop;
      Some {| bar_division := div;
              bar_rate := Completion_Rate r;
              bar_color := rate_color (Completion_Rate r);
              bar_comp := comp;
              bar_total := total |}) df;
  let avg := agg_mean rates in
  top ← py_max rates;
  Some {| bars := bars; avg := avg; xlim := fmul top (Fin (12 # 10)) |}.
End completion_charts.

(** A bar of the waterfall chart. *)
Record bar : Type := Bar {
  bar_x : num;
  bar_height : num;
  bar_bottom : num
}.

Record waterfall : Type := Waterfall {
  width : num;
  groups : list (list bar);
  ylim : num
}.

(** The places of the bars are computed with rounding, for the bars of a
    tick fill 0.85 of it only up to rounding: [rnd] is the rounding of a
    real number to float64, and [fl] rounds the finite result of an
    operation.  A literal is the float nearest to it; 0.5 is a float.  The
    conversion of [len(divisions)] and of an index to a float is exact, the
    table having fewer than 2^53 rows.  Overflow is not modelled. *)
Section waterfall.
Variable rnd : Q → Q.

Definition fl (x : num) : num :=
  match x with
  | Fin q => fin (rnd q)
  | _ => x
  end.

(** [(i - n_divs/2 + 0.5) * width]. *)
Definition bar_offset (n_divs i : nat) (width : num) : num :=
  let half := fl (fdiv (num_of_nat n_divs) (Fin 2)) in
  fl (fmul (fl (fadd (fl (fsub (num_of_nat i) half)) (Fin (1 # 2)))) width).

(** The five bars of the division at index [i]: total, never attended and
    dropped out hanging from the running bottom, completed and in school
    from the axis. *)
Definition division_bars (n_divs i : nat) (width : num) (m : Metrics.row) :
    list bar :=
  let offset := bar_offset n_divs i width in
  let x_pos (j : nat) := fl (fadd (num_of_nat j) offset) in
  let total_pop := Metrics.Total m in
  let never_val := Metrics.Never_Been_to_School m in
  let dropped_val := Metrics.Left_Before_Completion m in
  let comp_val := Metrics.Left_After_Completion m in
  let in_school_val := Metrics.At_School m in
  let current_bottom := total_pop in
  let bar1 := Bar (x_pos 1) never_val (fl (fsub current_bottom never_val)) in
  let current_bottom := fl (fsub current_bottom never_val) in
  [ Bar (x_pos 0) total_pop (Fin 0);
    bar1;
    Bar (x_pos 2) dropped_val (fl (fsub current_bottom dropped_val));
    Bar (x_pos 3) comp_val (Fin 0);
    Bar (x_pos 4) in_school_val (Fin 0) ].

(** [create_grouped_waterfall] on the table [calculate_completion_metrics]
    returns, whose attendance columns are floats: [float(str(x).replace(',',
    ''))] gives a float back as it is.  The division of 0.85 by the number
    of rows is Python's and raises [ZeroDivisionError] on an empty table. *)
Definition create_grouped_waterfall (metrics_df : list Metrics.row) :
    option waterfall :=
  let divisions := Metrics.Division <$> metrics_df in
  let n_divs := length divisions in
  if bool_decide (n_divs = 0%nat) then None
  else
    let width := fl (fdiv (fl (Fin (85 # 100))) (num_of_nat n_divs)) in
    let total_pops := Metrics.Total <$> metrics_df in
    top ← py_max total_pops;
    Some {| width := width;
            groups := imap (λ i m, division_bars n_divs i width m) metrics_df;
            ylim := fl (fmul top (fl (Fin (12 # 10)))) |}.
End waterfall.

(** ** The pipeline of [data_wrangling.main]

    The table [merged_data] of [main], from the two tables [load_csv_data]
    returns; what [main] prints is not modelled. *)
Definition main_merged_data (school_data : list School.row)
    (pop_data : list Pop.row) : list Merged.row :=
  let school_data := subset_by_province school_data "NAIROBI" School.Province in
  let school_data := subset_by_level school_data "PRIMARY SCHOOL" School.Level_ in
  let nairobi_subcounties := get_nairobi_subcounties in
  let pop_data :=
    subset_by_subcounties pop_data nairobi_subcounties Pop.County_Sub_County in
  merge_schools_population school_data pop_data School.Division.

(** ** Vocabulary of the properties *)

(** The test of [isin] on one cell. *)
Definition cell_in (values : list string) (c : option string) : Prop :=
  match c with Some s => s ∈ values | None => False end.

Global Instance cell_in_dec values c : Decision (cell_in values c).
Proof. destruct c; simpl; apply _. Defined.

(** The normalized division of a school row. *)
Definition normalized (col : School.row → option string) (r : School.row) :
    option string :=
  normalize_division_name <$> col r.

(** What a row of the merged table is. *)
Inductive merged_from (left : list Stats.row) (right : list Pop.row) :
    Merged.row → Prop :=
  | from_left l :
      l ∈ left →
      (∀ r, r ∈ right → Pop.County_Sub_County r ≠ Some (Stats.Division l)) →
      merged_from left right (left_only_row l)
  | from_right r :
      r ∈ right →
      (∀ l, l ∈ left → Pop.County_Sub_County r ≠ Some (Stats.Division l)) →
      merged_from left right (right_only_row r)
  | from_both l r :
      l ∈ left → r ∈ right →
      Pop.County_Sub_County r = Some (Stats.Division l) →
      merged_from left right (both_row l r).

(** A store extends another when every table of the latter is in the former,
    unchanged. *)
Definition preserves (h h' : store) : Prop :=
  ∀ l f, h !! l = Some f → h' !! l = Some f.

(** The population columns of a merged row. *)
Definition pop_of (m : Merged.row) : Pop.row :=
  {| Pop.County_Sub_County := Merged.County_Sub_County m;
     Pop.Total := Merged.Total m;
     Pop.At_School := Merged.At_School m;
     Pop.Left_After_Completion := Merged.Left_After_Completion m;
     Pop.Left_Before_Completion := Merged.Left_Before_Completion m;
     Pop.Never_Been_to_School := Merged.Never_Been_to_School m |}.




(** What is used of the rounding of float64, to nearest: the half of an
    integer of magnitude at most 2^53 is a float, and a real number of
    magnitude between 2^-1022 and 2^1023, the range of the normal floats, is
    rounded with a relative error of at most 2^-53. *)
Definition float_min : Q := 1 # 2 ^ 1022.

Definition float_max : Q := inject_Z (2 ^ 1023).

Definition float64_rounding (rnd : Q → Q) : Prop :=
  (∀ (q : Q) (z : Z),
     (q == inject_Z z / 2)%Q → (Z.abs z ≤ 2 ^ 53)%Z → (rnd q == q)%Q)
  ∧ (∀ q : Q,
       (float_min <= Qabs q)%Q → (Qabs q <= float_max)%Q →
       (Qabs (rnd q - q) <= (1 # 2 ^ 53) * Qabs q)%Q).

(** The row of the completion chart's table for a row of the metrics
    table. *)
Definition rate_row_of (m : Metrics.row) : rate_row :=
  {| rate_base := m;
     Total_Pop := Metrics.Total m;
     Completed := Metrics.Left_After_Completion m;
     Completion_Rate :=
       fmul (fdiv (Metrics.Left_After_Completion m) (Metrics.Total m)) (Fin 100) |}.

(** ** Example tables *)

Definition example_school (division : option string) (fid : option Z)
    (enrol : Z) : School.row :=
  {| School.Province := Some "NAIROBI";
     School.Level_ := Some "PRIMARY SCHOOL";
     School.Division := division;
     School.FID := fid;
     School.TotalEnrol := Fin (inject_Z enrol);
     School.TotalBoys := Fin (inject_Z (enrol / 2));
     School.TotalGirls := Fin (inject_Z (enrol - enrol / 2));
     School.No_Classrm := Fin 8;
     School.TeachersTo := Fin 9;
     School.Latitude := Fin (-13 # 10);
     School.Longitude := Fin (368 # 10) |}.

Definition example_pop (subcounty : option string) (total completed : cell) :
    Pop.row :=
  {| Pop.County_Sub_County := subcounty;
     Pop.Total := total;
     Pop.At_School := null;
     Pop.Left_After_Completion := completed;
     Pop.Left_Before_Completion := null;
     Pop.Never_Been_to_School := null |}.

(** Five schools of division KIBERA and three of division WESTLANDS. *)
Definition example_school_df : list School.row :=
  [ example_school (Some "KIBERA") (Some 1%Z) 400;
    example_school (Some "WESTLANDS") (Some 2%Z) 350;
    example_school (Some "KIBERA") (Some 3%Z) 520;
    example_school (Some "KIBERA") (Some 4%Z) 610;
    example_school (Some "WESTLANDS") (Some 5%Z) 275;
    example_school (Some "KIBERA") (Some 6%Z) 480;
    example_school (Some "WESTLANDS") (Some 7%Z) 300;
    example_school (Some "KIBERA") (Some 8%Z) 390 ].

Definition example_kibra : Pop.row :=
  example_pop (Some "KIBRA") (Num (Fin 10000)) (Num (Fin 2500)).

Definition example_westlands : Pop.row :=
  example_pop (Some "WESTLANDS") (Num (Fin 8000)) (Num (Fin 4000)).

Definition example_pop_df : list Pop.row := [example_kibra; example_westlands].

(** The same population table with its numbers as text. *)
Definition example_pop_text : list Pop.row :=
  [ example_pop (Some "KIBRA") (Str "10,000") (Str "2,500");
    example_pop (Some "WESTLANDS") (Str "8,000") (Str "4,000") ].

(** A school of division KIBERA and a school without division. *)
Definition example_no_division : list School.row :=
  [ example_school (Some "KIBERA") (Some 1%Z) 400;
    example_school None (Some 2%Z) 350 ].

(** A population table with two rows for KIBRA. *)
Definition example_pop_twice : list Pop.row :=
  [ example_kibra; example_pop (Some "KIBRA") (Num (Fin 9000)) (Num (Fin 2000)) ].

(** A school without identifier, and a subcounty without population. *)
Definition example_school_zero : list School.row :=
  [ example_school (Some "KIBERA") None 120;
    example_school (Some "WESTLANDS") (Some 7%Z) 300 ].

Definition example_pop_zero : list Pop.row :=
  [ example_pop (Some "KIBRA") (Num (Fin 5000)) (Num (Fin 1000));
    example_pop (Some "WESTLANDS") (Num (Fin 0)) (Num (Fin 0)) ].

(** A store with the school table at 1 and the population table at 2. *)
Definition example_store : gmap positive frame :=
  {[ 1%positive := SchoolFrame example_school_df None;
     2%positive := PopFrame example_pop_df ]}.

(** * Properties *)

Local Open Scope nat_scope.

(** The row at index [i] of a table that evaluates, with its membership. *)
Ltac pick_row l i H :=
  let v := eval vm_compute in (l !! i) in
  match v with
  | Some ?s =>
      assert (H : s ∈ l) by (apply (list_elem_of_lookup_2 _ i); by vm_compute)
  end.

(** The value of an optional result that evaluates, with its equation. *)
Ltac eval_some e H :=
  let v := eval vm_compute in e in
  match v with
  | Some ?x => assert (H : e = Some x) by (by vm_compute)
  end.

(** ** Lists *)

Section list_facts.
Context {A B : Type}.

Lemma getitem_mask_filter (g : B → bool) (col : A → B) (P : A → Prop)
    `{!∀ x, Decision (P x)} (df : list A) :
  (∀ x, g (col x) = true ↔ P x) →
  getitem_mask df (g <$> (col <$> df)) = filter P df.
Proof.
  intros Hg. induction df as [|r df IH]; [done|].
  rewrite filter_cons, <- IH, !fmap_cons. cbn [getitem_mask].
  destruct (g (col r)) eqn:E.
  - rewrite decide_True; [done|]. by apply Hg.
  - rewrite decide_False; [done|]. rewrite <- Hg. congruence.
Qed.

Lemma length_list_bind (f : A → list B) (l : list A) :
  length (l ≫= f) = sum_list_with (λ x, length (f x)) l.
Proof.
  induction l as [|x l IH]; [done|].
  rewrite bind_cons, length_app. simpl. lia.
Qed.

Lemma filter_list_bind (P : B → Prop) `{!∀ y, Decision (P y)}
    (f : A → list B) (l : list A) :
  filter P (l ≫= f) = l ≫= (λ x, filter P (f x)).
Proof.
  induction l as [|x l IH]; [done|].
  by rewrite !bind_cons, filter_app, IH.
Qed.

Lemma sum_list_with_le (f g : A → nat) (l : list A) :
  (∀ x, x ∈ l → f x ≤ g x) → sum_list_with f l ≤ sum_list_with g l.
Proof.
  induction l as [|x l IH]; intros H; simpl; [lia|].
  pose proof (H x (list_elem_of_here _ _)).
  assert (sum_list_with f l ≤ sum_list_with g l).
  { apply IH. intros y Hy. apply H. by apply list_elem_of_further. }
  lia.
Qed.

Lemma sum_list_with_plus (f g : A → nat) (l : list A) :
  sum_list_with (λ x, f x + g x) l = sum_list_with f l + sum_list_with g l.
Proof. induction l as [|x l IH]; simpl; lia. Qed.

Lemma sum_list_with_ext_in (f g : A → nat) (l : list A) :
  (∀ x, x ∈ l → f x = g x) → sum_list_with f l = sum_list_with g l.
Proof.
  intros H. apply Nat.le_antisymm; apply sum_list_with_le;
    intros x Hx; rewrite (H x Hx); lia.
Qed.
End list_facts.

(** Cutting a table by key, one key after the other, reaches every row whose
    key is listed, once. *)
Lemma sum_filter_keys {A K : Type} `{!EqDecision K} (f : A → K)
    (keys : list K) (xs : list A) :
  NoDup keys →
  sum_list_with (λ k, length (filter (λ x, f x = k) xs)) keys
  = length (filter (λ x, f x ∈ keys) xs).
Proof.
  intros Hnd. induction Hnd as [|k keys Hk Hnd IH]; simpl.
  - induction xs as [|x xs IHxs]; [done|].
    rewrite filter_cons, decide_False; [done|]. apply not_elem_of_nil.
  - rewrite IH. clear IH. induction xs as [|x xs IHxs]; [done|].
    rewrite !filter_cons.
    destruct (decide (f x = k)) as [E|E].
    + rewrite decide_False by (by rewrite E).
      rewrite decide_True by (rewrite E; apply list_elem_of_here).
      simpl. lia.
    + destruct (decide (f x ∈ keys)) as [I|I].
      * rewrite decide_True by (by apply list_elem_of_further).
        simpl. lia.
      * rewrite decide_False; [lia|].
        rewrite elem_of_cons. tauto.
Qed.

Lemma filter_all {A : Type} (P : A → Prop) `{!∀ x, Decision (P x)} (l : list A) :
  Forall P l → filter P l = l.
Proof.
  induction 1 as [|x l Hx _ IH]; [done|].
  by rewrite filter_cons, decide_True, IH.
Qed.

Lemma filter_ext_in {A : Type} (P Q : A → Prop) `{!∀ x, Decision (P x)}
    `{!∀ x, Decision (Q x)} (l : list A) :
  (∀ x, x ∈ l → P x ↔ Q x) → filter P l = filter Q l.
Proof.
  induction l as [|x l IH]; intros Hl; [done|].
  rewrite !filter_cons, IH
    by (intros y Hy; apply Hl; by apply list_elem_of_further).
  pose proof (Hl x (list_elem_of_here _ _)).
  destruct (decide (P x)), (decide (Q x)); tauto.
Qed.

Lemma filter_none {A : Type} (P : A → Prop) `{!∀ x, Decision (P x)} (l : list A) :
  Forall (λ x, ¬ P x) l → filter P l = [].
Proof.
  induction 1 as [|x l Hx _ IH]; [done|].
  by rewrite filter_cons, decide_False, IH.
Qed.

(** ** The normalizer *)

Lemma normalize_other (s : string) :
  s ≠ "KIBERA" → normalize_division_name s = s.
Proof.
  intros Hs. unfold normalize_division_name, name_mapping.
  by rewrite lookup_singleton_ne.
Qed.

Lemma normalize_idem (s : string) :
  normalize_division_name (normalize_division_name s) = normalize_division_name s.
Proof.
  destruct (decide (s = "KIBERA")) as [->|Hs]; [reflexivity|].
  by rewrite !(normalize_other s).
Qed.

(** C7: the alias table of [normalize_division_name] has one entry; the
    function sends "KIBERA" to "KIBRA" and every other string to itself, and
    applying it twice is applying it once. *)
Theorem normalize_division_name_spec :
  size name_mapping = 1
  ∧ (∀ s : string,
       normalize_division_name s = if String.eqb s "KIBERA" then "KIBRA" else s)
  ∧ (∀ s : string,
       normalize_division_name (normalize_division_name s)
       = normalize_division_name s).
Proof.
  split; [apply map_size_singleton|]. split; [|apply normalize_idem].
  intros s. destruct (String.eqb_spec s "KIBERA") as [->|Hs]; [reflexivity|].
  by apply normalize_other.
Qed.

(** ** Subsetting *)

Lemma subset_by_province_filter {A : Type} (df : list A) (province : string)
    (province_col : A → option string) :
  subset_by_province df province province_col
  = filter (λ r, province_col r = Some province) df.
Proof.
  unfold subset_by_province, series_eq. apply getitem_mask_filter.
  intros r. apply bool_decide_eq_true.
Qed.

Lemma subset_by_level_filter {A : Type} (df : list A) (level : string)
    (level_col : A → option string) :
  subset_by_level df level level_col = filter (λ r, level_col r = Some level) df.
Proof. apply subset_by_province_filter. Qed.

Lemma subset_by_subcounties_filter {A : Type} (df : list A)
    (subcounties : list string) (subcounty_col : A → option string) :
  subset_by_subcounties df subcounties subcounty_col
  = filter (λ r, cell_in subcounties (subcounty_col r)) df.
Proof.
  unfold subset_by_subcounties, isin. apply getitem_mask_filter.
  intros r. destruct (subcounty_col r); simpl; [apply bool_decide_eq_true|].
  split; [discriminate|tauto].
Qed.

(** ** The store *)

Lemma fresh_unused (h : store) : h !! fresh (dom h) = None.
Proof. apply not_elem_of_dom, is_fresh. Qed.

Lemma preserves_new (h : store) (f : frame) :
  preserves h (<[fresh (dom h) := f]> h).
Proof.
  intros l g Hl. rewrite lookup_insert_ne; [done|].
  intros <-. rewrite fresh_unused in Hl. discriminate.
Qed.

Lemma subset_prog_run (g : list (option string) → list bool)
    (h : store) (df : loc) (f : frame) (col : column)
    (series : list (option string)) :
  h !! df = Some f → col f = Some series →
  bind (read df) (λ f, bind (lift (col f))
    (λ series, new (frame_getitem_mask f (g series)))) h
  = Some (fresh (dom h), <[fresh (dom h) := frame_getitem_mask f (g series)]> h).
Proof.
  intros Hdf Hcol. unfold bind, read. rewrite Hdf, Hcol. reflexivity.
Qed.

(** C9: each subset operation returns exactly the rows that satisfy its test,
    in their order in the input; run on a store, it puts them in a new table
    and leaves every table of the store, its argument included, as it was. *)
Theorem subset_operations_spec :
  (∀ (A : Type) (df : list A) (v : string) (col : A → option string),
     subset_by_province df v col = filter (λ r, col r = Some v) df
     ∧ subset_by_level df v col = filter (λ r, col r = Some v) df)
  ∧ (∀ (A : Type) (df : list A) (vs : list string) (col : A → option string),
       subset_by_subcounties df vs col = filter (λ r, cell_in vs (col r)) df)
  ∧ (∀ (h : store) (df : loc) rows nd (v : string),
       h !! df = Some (SchoolFrame rows nd) →
       ∃ l nd', h !! l = None
         ∧ subset_by_province_prog df v Province_col h
           = Some (l, <[l := SchoolFrame
                          (filter (λ r, School.Province r = Some v) rows) nd']> h)
         ∧ preserves h
             (<[l := SchoolFrame
                       (filter (λ r, School.Province r = Some v) rows) nd']> h))
  ∧ (∀ (h : store) (df : loc) rows nd (v : string),
       h !! df = Some (SchoolFrame rows nd) →
       ∃ l nd', h !! l = None
         ∧ subset_by_level_prog df v Level_col h
           = Some (l, <[l := SchoolFrame
                          (filter (λ r, School.Level_ r = Some v) rows) nd']> h)
         ∧ preserves h
             (<[l := SchoolFrame
                       (filter (λ r, School.Level_ r = Some v) rows) nd']> h))
  ∧ (∀ (h : store) (df : loc) rows (vs : list string),
       h !! df = Some (PopFrame rows) →
       ∃ l, h !! l = None
         ∧ subset_by_subcounties_prog df vs County_Sub_County_col h
           = Some (l, <[l := PopFrame
                          (filter (λ r, cell_in vs (Pop.County_Sub_County r)) rows)]> h)
         ∧ preserves h
             (<[l := PopFrame
                       (filter (λ r, cell_in vs (Pop.County_Sub_County r)) rows)]> h)).
Proof.
  split; [|split; [|split; [|split]]].
  - intros A df v col. split;
      [apply subset_by_province_filter|apply subset_by_level_filter].
  - intros. apply subset_by_subcounties_filter.
  - intros h df rows nd v Hdf.
    exists (fresh (dom h)),
      ((λ c, getitem_mask c (series_eq (School.Province <$> rows) v)) <$> nd).
    rewrite <- subset_by_province_filter.
    split; [apply fresh_unused|]. split; [|apply preserves_new].
    unfold subset_by_province_prog.
    by rewrite (subset_prog_run (λ s, series_eq s v) h df _ _ _ Hdf eq_refl).
  - intros h df rows nd v Hdf.
    exists (fresh (dom h)),
      ((λ c, getitem_mask c (series_eq (School.Level_ <$> rows) v)) <$> nd).
    rewrite <- subset_by_level_filter.
    split; [apply fresh_unused|]. split; [|apply preserves_new].
    unfold subset_by_level_prog.
    by rewrite (subset_prog_run (λ s, series_eq s v) h df _ _ _ Hdf eq_refl).
  - intros h df rows vs Hdf. exists (fresh (dom h)).
    rewrite <- subset_by_subcounties_filter.
    split; [apply fresh_unused|]. split; [|apply preserves_new].
    unfold subset_by_subcounties_prog.
    by rewrite (subset_prog_run (λ s, isin s vs) h df _ _ _ Hdf eq_refl).
Qed.

Lemma length_apply_normalize (series : list (option string)) :
  length (apply_normalize series) = length series.
Proof. apply length_fmap. Qed.

(** The run of [merge_schools_population_prog]: three tables are created (the
    copy, which receives the new column, [school_stats] and the result), and
    the result holds what [merge_schools_population] computes. *)
Lemma merge_schools_population_prog_run (h : store) (school_df pop_df : loc)
    (S : list School.row) nd (P : list Pop.row) :
  h !! school_df = Some (SchoolFrame S nd) →
  h !! pop_df = Some (PopFrame P) →
  ∃ c s m,
    h !! c = None ∧ h !! s = None ∧ h !! m = None
    ∧ c ≠ s ∧ c ≠ m ∧ s ≠ m
    ∧ merge_schools_population_prog school_df pop_df Division_col h
      = Some (m,
          <[m := MergedFrame (merge_schools_population S P School.Division)]>
          (<[s := StatsFrame (school_stats S School.Division)]>
          (<[c := SchoolFrame S
                    (Some (apply_normalize (School.Division <$> S)))]> h))).
Proof.
  intros HS HP.
  set (c := fresh (dom h)).
  set (h1 := <[c := SchoolFrame S nd]> h).
  set (N := apply_normalize (School.Division <$> S)).
  set (h2 := <[c := SchoolFrame S (Some N)]> h).
  set (s := fresh (dom h2)).
  set (h3 := <[s := StatsFrame (school_stats S School.Division)]> h2).
  set (m := fresh (dom h3)).
  assert (Hc : h !! c = None) by apply fresh_unused.
  assert (Hs2 : h2 !! s = None) by apply fresh_unused.
  assert (Hm3 : h3 !! m = None) by apply fresh_unused.
  assert (Hcs : c ≠ s).
  { intros E. rewrite <- E in Hs2. unfold h2 in Hs2.
    by rewrite lookup_insert_eq in Hs2. }
  assert (Hsm : s ≠ m).
  { intros E. rewrite <- E in Hm3. unfold h3 in Hm3.
    by rewrite lookup_insert_eq in Hm3. }
  assert (Hcm : c ≠ m).
  { intros E. rewrite <- E in Hm3. unfold h3, h2 in Hm3.
    rewrite lookup_insert_ne, lookup_insert_eq in Hm3; [done|]. congruence. }
  assert (Hs : h !! s = None).
  { unfold h2 in Hs2. by rewrite lookup_insert_ne in Hs2. }
  assert (Hm : h !! m = None).
  { unfold h3, h2 in Hm3. by rewrite !lookup_insert_ne in Hm3. }
  assert (Hpc : pop_df ≠ c) by (intros ->; congruence).
  assert (Hps : pop_df ≠ s) by (intros ->; congruence).
  exists c, s, m. repeat (split; [done|]).
  unfold merge_schools_population_prog, copy, bind, read, new.
  rewrite HS. fold c. fold h1.
  unfold h1 at 1. rewrite lookup_insert_eq. simpl.
  unfold setitem_Normalized_Division, bind, read.
  unfold h1 at 1. rewrite lookup_insert_eq.
  rewrite bool_decide_true
    by (by rewrite length_apply_normalize, length_fmap).
  unfold write. unfold h1 at 1. rewrite lookup_insert_eq.
  unfold h1. rewrite insert_insert_eq. fold N. fold h2.
  unfold groupby_agg_prog, bind, read. unfold h2 at 1.
  rewrite lookup_insert_eq. unfold new. fold s.
  change (groupby_agg (zip S N)) with (school_stats S School.Division).
  fold h3. unfold merge_prog, bind, read.
  unfold h3 at 1. rewrite lookup_insert_eq.
  unfold h3 at 1. rewrite lookup_insert_ne by done.
  unfold h2 at 1. rewrite lookup_insert_ne by done.
  rewrite HP. unfold new, ret. fold m. reflexivity.
Qed.

(** C10: [merge_schools_population] leaves its two arguments as they were:
    the new column goes to a copy of the school table, and every table of the
    store before the call is in the store after it, unchanged. *)
Theorem merge_schools_population_frame (h : store) (school_df pop_df : loc)
    (S : list School.row) nd (P : list Pop.row) :
  h !! school_df = Some (SchoolFrame S nd) →
  h !! pop_df = Some (PopFrame P) →
  ∃ (merged_df : loc) (h' : store),
    merge_schools_population_prog school_df pop_df Division_col h
    = Some (merged_df, h')
    ∧ h' !! school_df = Some (SchoolFrame S nd)
    ∧ h' !! pop_df = Some (PopFrame P)
    ∧ preserves h h'
    ∧ h !! merged_df = None
    ∧ h' !! merged_df
      = Some (MergedFrame (merge_schools_population S P School.Division)).
Proof.
  intros HS HP.
  destruct (merge_schools_population_prog_run h school_df pop_df S nd P HS HP)
    as (c & s & m & Hc & Hs & Hm & Hcs & Hcm & Hsm & Hrun).
  eexists m, _. split; [exact Hrun|].
  assert (Hpres : preserves h
    (<[m := MergedFrame (merge_schools_population S P School.Division)]>
      (<[s := StatsFrame (school_stats S School.Division)]>
        (<[c := SchoolFrame S
                  (Some (apply_normalize (School.Division <$> S)))]> h)))).
  { intros l f Hl.
    rewrite !lookup_insert_ne; [done|intros <-; congruence..]. }
  split; [by apply Hpres|]. split; [by apply Hpres|].
  split; [exact Hpres|]. split; [exact Hm|].
  by rewrite lookup_insert_eq.
Qed.

(** ** Aggregation *)

Lemma NoDup_group_keys (keys : list (option string)) : NoDup (group_keys keys).
Proof.
  unfold group_keys. rewrite merge_sort_Permutation. apply NoDup_remove_dups.
Qed.

Lemma elem_of_group_keys (keys : list (option string)) (k : string) :
  k ∈ group_keys keys ↔ Some k ∈ keys.
Proof.
  unfold group_keys.
  rewrite merge_sort_Permutation, elem_of_remove_dups, list_elem_of_omap.
  split; [intros (x & Hx & E); simpl in E; by subst|].
  intros H. by exists (Some k).
Qed.

Lemma group_of_zip (f : School.row → option string) (k : string)
    (df : list School.row) :
  group_of k (zip df (f <$> df)) = filter (λ r, f r = Some k) df.
Proof.
  unfold group_of. induction df as [|r df IH]; [done|].
  rewrite fmap_cons. cbn [zip zip_with]. rewrite !filter_cons. cbn [snd].
  destruct (decide (f r = Some k)); [rewrite fmap_cons|]; by rewrite IH.
Qed.

Lemma apply_normalize_fmap (col : School.row → option string)
    (df : list School.row) :
  apply_normalize (col <$> df) = normalized col <$> df.
Proof. unfold apply_normalize. by rewrite <- list_fmap_compose. Qed.

Lemma school_stats_eq (df : list School.row) (col : School.row → option string) :
  school_stats df col
  = (λ k, agg_row k (filter (λ r, normalized col r = Some k) df))
    <$> group_keys (normalized col <$> df).
Proof.
  unfold school_stats, groupby_agg. rewrite apply_normalize_fmap.
  rewrite snd_zip by (by rewrite length_fmap).
  apply list_fmap_ext. intros _ k _. by rewrite group_of_zip.
Qed.

Lemma school_stats_Division (df : list School.row)
    (col : School.row → option string) :
  Stats.Division <$> school_stats df col = group_keys (normalized col <$> df).
Proof.
  rewrite school_stats_eq, <- list_fmap_compose.
  rewrite <- (list_fmap_id (group_keys _)) at 2. by apply list_fmap_ext.
Qed.

Lemma NoDup_school_stats (df : list School.row)
    (col : School.row → option string) :
  NoDup (Stats.Division <$> school_stats df col).
Proof. rewrite school_stats_Division. apply NoDup_group_keys. Qed.

Lemma agg_count_fmap {A B : Type} (f : A → option B) (g : list A) :
  agg_count (f <$> g) = length (filter (λ r, is_Some (f r)) g).
Proof.
  unfold agg_count. induction g as [|r g IH]; [done|].
  rewrite fmap_cons, !filter_cons.
  destruct (decide (is_Some (f r))); simpl; by rewrite IH.
Qed.

(** The school counts add up to the number of rows that have a division and
    an identifier. *)
Lemma school_count_sum (df : list School.row) (col : School.row → option string) :
  sum_list (Stats.School_Count <$> school_stats df col)
  = length (filter (λ r, is_Some (col r) ∧ is_Some (School.FID r)) df).
Proof.
  rewrite school_stats_eq, <- list_fmap_compose.
  set (keys := group_keys (normalized col <$> df)).
  transitivity (sum_list_with
    (λ k, length (filter (λ r, normalized col r = k)
                    (filter (λ r, is_Some (School.FID r)) df)))
    (Some <$> keys)).
  - generalize keys. clear. intros keys.
    induction keys as [|k keys IH]; [done|].
    rewrite !fmap_cons. cbn [sum_list sum_list_with]. rewrite IH. f_equal.
    unfold compose. cbn [Stats.School_Count agg_row].
    rewrite agg_count_fmap, !list_filter_filter. unfold id. f_equal.
    apply list_filter_iff. tauto.
  - rewrite sum_filter_keys
      by (apply (NoDup_fmap_2 _), NoDup_group_keys).
    rewrite list_filter_filter. f_equal. apply filter_ext_in.
    intros r Hr. split.
    + intros [Hk HF]. split; [|done].
      apply list_elem_of_fmap in Hk as (k & Hk & _).
      unfold normalized in Hk. destruct (col r); [by eexists|discriminate].
    + intros [[d Hd] HF]. split; [|done].
      assert (E : normalized col r = Some (normalize_division_name d))
        by (unfold normalized; by rewrite Hd).
      rewrite E. apply list_elem_of_fmap_2, elem_of_group_keys.
      rewrite <- E. by apply list_elem_of_fmap_2.
Qed.

(** C4 (amended): for a school table in which every row has an identifier,
    the aggregation has one row per distinct normalized division among the
    rows that have a division; a row holds the number of rows of its
    division, the sums of their enrollment, boys, girls, classrooms and
    teachers and the means of their latitude and longitude; the school
    counts add up to the number of rows that have a division. *)
Theorem school_stats_spec (school_df : list School.row)
    (col : School.row → option string) :
  Forall (λ r, is_Some (School.FID r)) school_df →
  NoDup (Stats.Division <$> school_stats school_df col)
  ∧ (∀ k : string,
       k ∈ Stats.Division <$> school_stats school_df col
       ↔ ∃ r, r ∈ school_df ∧ normalized col r = Some k)
  ∧ (∀ s, s ∈ school_stats school_df col →
       ∃ g, g = filter (λ r, normalized col r = Some (Stats.Division s)) school_df
         ∧ Stats.School_Count s = length g
         ∧ Stats.Total_Enrollment s = agg_sum (School.TotalEnrol <$> g)
         ∧ Stats.Total_Boys s = agg_sum (School.TotalBoys <$> g)
         ∧ Stats.Total_Girls s = agg_sum (School.TotalGirls <$> g)
         ∧ Stats.Total_Classrooms s = agg_sum (School.No_Classrm <$> g)
         ∧ Stats.Total_Teachers s = agg_sum (School.TeachersTo <$> g)
         ∧ Stats.Latitude s = agg_mean (School.Latitude <$> g)
         ∧ Stats.Longitude s = agg_mean (School.Longitude <$> g))
  ∧ sum_list (Stats.School_Count <$> school_stats school_df col)
    = length (filter (λ r, is_Some (col r)) school_df).
Proof.
  intros HF. split; [apply NoDup_school_stats|]. split; [|split].
  - intros k. rewrite school_stats_Division, elem_of_group_keys.
    rewrite list_elem_of_fmap.
    split; [intros (r & E & Hr)|intros (r & Hr & E)]; by exists r.
  - intros s Hs. rewrite school_stats_eq in Hs.
    apply list_elem_of_fmap in Hs as (k & -> & _).
    eexists. split; [reflexivity|]. cbn [agg_row Stats.Division
      Stats.School_Count Stats.Total_Enrollment Stats.Total_Boys
      Stats.Total_Girls Stats.Total_Classrooms Stats.Total_Teachers
      Stats.Latitude Stats.Longitude].
    split; [|done]. rewrite agg_count_fmap. f_equal. apply filter_all.
    apply Forall_forall. intros r Hr. apply list_elem_of_filter in Hr as [_ Hr].
    by apply (proj1 (Forall_forall _ _) HF).
  - rewrite school_count_sum. f_equal. apply filter_ext_in.
    intros r Hr. pose proof (proj1 (Forall_forall _ _) HF r Hr). tauto.
Qed.

(** ** Outer merge *)

Lemma merge_outer_eq (left : list Stats.row) (right : list Pop.row) :
  merge_outer left right
  = (merge_keys left right
       ≫= λ k, join_key (left_rows k left) (right_rows (Some k) right))
    ++ (right_only_row <$> right_rows None right).
Proof. reflexivity. Qed.

Lemma NoDup_merge_keys left right : NoDup (merge_keys left right).
Proof.
  unfold merge_keys. rewrite merge_sort_Permutation. apply NoDup_remove_dups.
Qed.

Lemma elem_of_merge_keys left right (k : string) :
  k ∈ merge_keys left right
  ↔ (∃ l, l ∈ left ∧ Stats.Division l = k)
    ∨ (∃ r, r ∈ right ∧ Pop.County_Sub_County r = Some k).
Proof.
  unfold merge_keys.
  rewrite merge_sort_Permutation, elem_of_remove_dups, elem_of_app.
  rewrite list_elem_of_fmap, list_elem_of_omap.
  split; (intros [(x & H1 & H2)|(x & H1 & H2)]; [left|right]); by exists x.
Qed.

Lemma filter_nil_not {A : Type} (P : A → Prop) `{!∀ x, Decision (P x)}
    (l : list A) (x : A) :
  filter P l = [] → x ∈ l → ¬ P x.
Proof.
  intros E Hx HP. assert (Hin : x ∈ filter P l) by by apply list_elem_of_filter.
  rewrite E in Hin. by apply elem_of_nil in Hin.
Qed.

Lemma elem_of_join_key (ls : list Stats.row) (rs : list Pop.row) (m : Merged.row) :
  m ∈ join_key ls rs
  ↔ (ls = [] ∧ ∃ r, r ∈ rs ∧ m = right_only_row r)
    ∨ (rs = [] ∧ ∃ l, l ∈ ls ∧ m = left_only_row l)
    ∨ (∃ l r, l ∈ ls ∧ r ∈ rs ∧ m = both_row l r).
Proof.
  assert (Hboth : ∀ (ls' : list Stats.row) (rs' : list Pop.row),
    m ∈ (ls' ≫= λ l, both_row l <$> rs')
    ↔ ∃ l r, l ∈ ls' ∧ r ∈ rs' ∧ m = both_row l r).
  { intros ls' rs'. rewrite list_elem_of_bind. split.
    - intros (l & Hm & Hl). apply list_elem_of_fmap in Hm as (r & -> & Hr).
      by exists l, r.
    - intros (l & r & Hl & Hr & ->). exists l. split; [|done].
      by apply list_elem_of_fmap_2. }
  destruct ls as [|l ls], rs as [|r rs]; cbn [join_key].
  - rewrite fmap_nil, elem_of_nil. split; [tauto|].
    intros [(_ & x & Hx & _)|[(_ & x & Hx & _)|(x & y & Hx & _)]];
      by apply elem_of_nil in Hx.
  - rewrite list_elem_of_fmap. split.
    + intros (x & -> & Hx). left. split; [done|]. by exists x.
    + intros [(_ & x & Hx & ->)|[(E & _)|(x & y & Hx & _)]];
        [by exists x|discriminate|by apply elem_of_nil in Hx].
  - rewrite list_elem_of_fmap. split.
    + intros (x & -> & Hx). right. left. split; [done|]. by exists x.
    + intros [(E & _)|[(_ & x & Hx & ->)|(x & y & _ & Hy & _)]];
        [discriminate|by exists x|by apply elem_of_nil in Hy].
  - rewrite Hboth. split; [tauto|].
    intros [(E & _)|[(E & _)|H]]; [discriminate..|done].
Qed.

Lemma elem_of_left_rows (k : string) left (l : Stats.row) :
  l ∈ left_rows k left ↔ Stats.Division l = k ∧ l ∈ left.
Proof. apply (list_elem_of_filter (λ l, Stats.Division l = k)). Qed.

Lemma elem_of_right_rows (k : option string) right (r : Pop.row) :
  r ∈ right_rows k right ↔ Pop.County_Sub_County r = k ∧ r ∈ right.
Proof. apply (list_elem_of_filter (λ r, Pop.County_Sub_County r = k)). Qed.

Lemma elem_of_merge_outer left right (m : Merged.row) :
  m ∈ merge_outer left right ↔ merged_from left right m.
Proof.
  rewrite merge_outer_eq, elem_of_app, list_elem_of_bind, list_elem_of_fmap.
  split.
  - intros [(k & Hm & Hk)|(r & -> & Hr)].
    + apply elem_of_join_key in Hm
        as [(E & r & Hr & ->)|[(E & l & Hl & ->)|(l & r & Hl & Hr & ->)]].
      * apply elem_of_right_rows in Hr as [Hk' Hr].
        apply from_right; [done|]. intros l Hl Hkl.
        apply (filter_nil_not _ _ l E Hl). congruence.
      * apply elem_of_left_rows in Hl as [Hk' Hl].
        apply from_left; [done|]. intros r Hr Hkr.
        apply (filter_nil_not _ _ r E Hr). congruence.
      * apply elem_of_left_rows in Hl as [Hk' Hl].
        apply elem_of_right_rows in Hr as [Hk'' Hr].
        apply from_both; [done..|congruence].
    + apply elem_of_right_rows in Hr as [Hk Hr].
      apply from_right; [done|]. intros l _. congruence.
  - intros [l Hl Hno|r Hr Hno|l r Hl Hr Hk].
    + left. exists (Stats.Division l). split.
      * apply elem_of_join_key. right. left. split.
        -- apply filter_none, Forall_forall. intros r Hr. by apply Hno.
        -- exists l. split; [|done]. by apply elem_of_left_rows.
      * apply elem_of_merge_keys. left. by exists l.
    + destruct (Pop.County_Sub_County r) as [k|] eqn:Ek.
      * left. exists k. split.
        -- apply elem_of_join_key. left. split.
           ++ apply filter_none, Forall_forall. intros l Hl E.
              apply (Hno l Hl). congruence.
           ++ exists r. split; [|done]. by apply elem_of_right_rows.
        -- apply elem_of_merge_keys. right. by exists r.
      * right. exists r. split; [done|]. by apply elem_of_right_rows.
    + left. exists (Stats.Division l). split.
      * apply elem_of_join_key. right. right. exists l, r.
        split; [by apply elem_of_left_rows|].
        split; [by apply elem_of_right_rows|done].
      * apply elem_of_merge_keys. left. by exists l.
Qed.


(** ** Size of the merged table *)

Lemma length_filter_key_le {A K : Type} `{!EqDecision K} (f : A → K) (k : K)
    (l : list A) :
  NoDup (f <$> l) → length (filter (λ x, f x = k) l) ≤ 1.
Proof.
  induction l as [|x l IH]; [simpl; lia|].
  rewrite fmap_cons, NoDup_cons. intros [Hx Hnd].
  rewrite filter_cons. destruct (decide (f x = k)) as [E|E]; [|by apply IH].
  rewrite filter_none; [simpl; lia|].
  apply Forall_forall. intros y Hy Ey. apply Hx. rewrite E, <- Ey.
  by apply list_elem_of_fmap_2.
Qed.

Lemma length_join_key (ls : list Stats.row) (rs : list Pop.row) :
  length ls ≤ 1 →
  length ls ≤ length (join_key ls rs)
  ∧ length rs ≤ length (join_key ls rs)
  ∧ length (join_key ls rs) ≤ length ls + length rs.
Proof.
  intros Hls. destruct ls as [|l [|l' ls]]; [| |simpl in Hls; lia].
  - cbn [join_key]. rewrite length_fmap. simpl. lia.
  - destruct rs as [|r rs]; cbn [join_key]; [simpl; lia|].
    rewrite bind_cons, length_app, length_fmap. simpl. lia.
Qed.

Lemma length_tags (out : list Merged.row) :
  length out
  = length (filter (λ m, Merged._merge m = both) out)
    + length (filter (λ m, Merged._merge m = left_only) out)
    + length (filter (λ m, Merged._merge m = right_only) out).
Proof.
  induction out as [|m out IH]; [done|].
  rewrite !filter_cons. destruct (Merged._merge m); simpl; lia.
Qed.

Lemma length_merge_outer (left : list Stats.row) (right : list Pop.row) :
  NoDup (Stats.Division <$> left) →
  length left ≤ length (merge_outer left right)
  ∧ length right ≤ length (merge_outer left right)
  ∧ length (merge_outer left right) ≤ length left + length right.
Proof.
  intros Hnd. rewrite merge_outer_eq, length_app, length_fmap, length_list_bind.
  set (keys := merge_keys left right).
  set (J := sum_list_with
    (λ k, length (join_key (left_rows k left) (right_rows (Some k) right))) keys).
  assert (HL : sum_list_with (λ k, length (left_rows k left)) keys = length left).
  { unfold left_rows. rewrite sum_filter_keys by apply NoDup_merge_keys.
    f_equal. apply filter_all, Forall_forall. intros l Hl.
    apply elem_of_merge_keys. left. by exists l. }
  assert (HR : sum_list_with (λ k, length (right_rows (Some k) right)) keys
               + length (right_rows None right) = length right).
  { transitivity
      (sum_list_with (λ k, length (right_rows k right)) (Some <$> keys)
       + length (right_rows None right)).
    { f_equal. generalize keys. intros ks.
      induction ks as [|k ks IH]; [done|]. rewrite fmap_cons. simpl. lia. }
    unfold right_rows.
    rewrite sum_filter_keys by (apply (NoDup_fmap_2 _), NoDup_merge_keys).
    rewrite <- (Permutation_length
      (filter_app_complement (λ r, Pop.County_Sub_County r = None) right)).
    rewrite length_app, Nat.add_comm.
    f_equal; [f_equal; by apply list_filter_iff|].
    f_equal. apply filter_ext_in. intros r Hr. split.
    - intros Hk E. rewrite E in Hk.
      apply list_elem_of_fmap in Hk as (k & Hk & _). discriminate.
    - intros Hk. destruct (Pop.County_Sub_County r) as [k|] eqn:Ek; [|done].
      apply list_elem_of_fmap_2, elem_of_merge_keys. right. by exists r. }
  assert (HJ : sum_list_with (λ k, length (left_rows k left)) keys ≤ J
    ∧ sum_list_with (λ k, length (right_rows (Some k) right)) keys ≤ J
    ∧ J ≤ sum_list_with (λ k, length (left_rows k left)
                              + length (right_rows (Some k) right)) keys).
  { unfold J. split; [|split]; apply sum_list_with_le; intros k _;
      apply length_join_key; by apply length_filter_key_le. }
  rewrite sum_list_with_plus in HJ. fold J. lia.
Qed.

(** C3: the merged table has at least as many rows as either of the two
    tables joined and at most as many as both together, and the three values
    of the indicator share out its rows. *)
Theorem merge_schools_population_size (school_df : list School.row)
    (pop_df : list Pop.row) (col : School.row → option string) :
  Nat.max (length (school_stats school_df col)) (length pop_df)
    ≤ length (merge_schools_population school_df pop_df col)
  ∧ length (merge_schools_population school_df pop_df col)
    ≤ length (school_stats school_df col) + length pop_df
  ∧ length (merge_schools_population school_df pop_df col)
    = length (filter (λ m, Merged._merge m = both)
                (merge_schools_population school_df pop_df col))
      + length (filter (λ m, Merged._merge m = left_only)
                  (merge_schools_population school_df pop_df col))
      + length (filter (λ m, Merged._merge m = right_only)
                  (merge_schools_population school_df pop_df col)).
Proof.
  pose proof (length_merge_outer (school_stats school_df col) pop_df
    (NoDup_school_stats school_df col)) as (HL & HR & HU).
  unfold merge_schools_population.
  split; [lia|]. split; [done|]. apply length_tags.
Qed.

(** ** Rows of one key *)

Lemma sum_list_with_indicator {K : Type} `{!EqDecision K} (k : K) (c : nat)
    (keys : list K) :
  NoDup keys →
  sum_list_with (λ k', if decide (k' = k) then c else 0) keys
  = if decide (k ∈ keys) then c else 0.
Proof.
  induction 1 as [|k' keys Hk' Hnd IH]; [done|].
  cbn [sum_list_with]. rewrite IH.
  destruct (decide (k' = k)) as [->|E].
  - rewrite decide_False by done.
    rewrite decide_True by apply list_elem_of_here. lia.
  - destruct (decide (k ∈ keys)) as [I|I].
    + rewrite decide_True by (by apply list_elem_of_further). lia.
    + rewrite decide_False; [lia|]. rewrite elem_of_cons.
      intros [->|?]; [by apply E|done].
Qed.

Lemma length_join_key_county (k k' : string) (left : list Stats.row)
    (right : list Pop.row) :
  NoDup (Stats.Division <$> left) →
  length (filter (λ m, Merged.County_Sub_County m = Some k)
            (join_key (left_rows k' left) (right_rows (Some k') right)))
  = if decide (k' = k) then length (right_rows (Some k) right) else 0.
Proof.
  intros Hnd.
  pose proof (length_filter_key_le Stats.Division k' left Hnd) as Hls.
  fold (left_rows k' left) in Hls.
  assert (Hrs : Forall (λ r, Pop.County_Sub_County r = Some k')
                  (right_rows (Some k') right)).
  { apply Forall_forall. intros r Hr. by apply elem_of_right_rows in Hr as [? _]. }
  destruct (decide (k' = k)) as [->|E].
  - destruct (left_rows k left) as [|l [|l' ls]]; [| |simpl in Hls; lia].
    + cbn [join_key]. rewrite filter_all, length_fmap; [done|].
      apply Forall_fmap. eapply Forall_impl; [exact Hrs|]. by intros r Hr.
    + destruct (right_rows (Some k) right) as [|r rs]; cbn [join_key]; [done|].
      rewrite bind_cons, app_nil_r, filter_all, length_fmap; [done|].
      apply Forall_fmap. eapply Forall_impl; [exact Hrs|]. by intros x Hx.
  - rewrite filter_none; [done|]. apply Forall_forall. intros m Hm.
    apply elem_of_join_key in Hm
      as [(_ & r & Hr & ->)|[(_ & l & _ & ->)|(l & r & _ & Hr & ->)]];
      cbn; [|done|];
      apply (proj1 (Forall_forall _ _) Hrs) in Hr; rewrite Hr; congruence.
Qed.

(** The merged table has, for a key, one row per right row of that key. *)
Lemma length_merge_outer_county (k : string) (left : list Stats.row)
    (right : list Pop.row) :
  NoDup (Stats.Division <$> left) →
  length (filter (λ m, Merged.County_Sub_County m = Some k)
            (merge_outer left right))
  = length (right_rows (Some k) right).
Proof.
  intros Hnd. rewrite merge_outer_eq, filter_app, length_app.
  rewrite (filter_none _ (right_only_row <$> _)).
  2:{ apply Forall_fmap, Forall_forall. intros r Hr. cbn.
      apply elem_of_right_rows in Hr as [-> _]. done. }
  rewrite filter_list_bind, length_list_bind.
  rewrite (sum_list_with_ext_in _
    (λ k', if decide (k' = k) then length (right_rows (Some k) right) else 0))
    by (intros k' _; by apply length_join_key_county).
  rewrite sum_list_with_indicator by apply NoDup_merge_keys.
  simpl. rewrite Nat.add_0_r. destruct (decide (k ∈ merge_keys left right)) as [|I]; [done|].
  destruct (right_rows (Some k) right) as [|r rs] eqn:E; [done|].
  exfalso. apply I, elem_of_merge_keys. right. exists r.
  apply and_comm, elem_of_right_rows. rewrite E. apply list_elem_of_here.
Qed.

(** ** The example of two divisions *)

Lemma string_le_total : Total string_le.
Proof.
  intros a b. unfold string_le.
  destruct (String.leb_total a b) as [E|E]; rewrite E; [by left|by right].
Qed.

Lemma sorted_pair {A : Type} (R : relation A) (a b : A) (l : list A) :
  NoDup l → (∀ x, x ∈ l ↔ x = a ∨ x = b) → a ≠ b →
  Sorted R l → ¬ R b a → l = [a; b].
Proof.
  intros Hnd Hin Hab Hs HR.
  assert (Hp : [a; b] ≡ₚ l).
  { symmetry. apply NoDup_Permutation; [done| |].
    - apply NoDup_cons. split; [by rewrite list_elem_of_singleton|].
      apply NoDup_singleton.
    - intros x. rewrite Hin, elem_of_cons, list_elem_of_singleton. tauto. }
  apply Permutation_length_2_inv in Hp as [->| ->]; [done|].
  apply Sorted_inv in Hs as [_ Hhd]. apply HdRel_inv in Hhd. contradiction.
Qed.

Section two_divisions.
Variables (school_df : list School.row) (pk pw : Pop.row).

Hypothesis has_FID : Forall (λ r, is_Some (School.FID r)) school_df.
Hypothesis divisions :
  Forall (λ r, School.Division r = Some "KIBERA"
               ∨ School.Division r = Some "WESTLANDS") school_df.
Hypothesis five :
  length (filter (λ r, School.Division r = Some "KIBERA") school_df) = 5.
Hypothesis three :
  length (filter (λ r, School.Division r = Some "WESTLANDS") school_df) = 3.
Hypothesis key_pk : Pop.County_Sub_County pk = Some "KIBRA".
Hypothesis key_pw : Pop.County_Sub_County pw = Some "WESTLANDS".

Let kibera := filter (λ r, School.Division r = Some "KIBERA") school_df.
Let westlands := filter (λ r, School.Division r = Some "WESTLANDS") school_df.

Lemma normalized_kibra (r : School.row) :
  r ∈ school_df →
  normalized School.Division r = Some "KIBRA"
  ↔ School.Division r = Some "KIBERA".
Proof.
  intros Hr. unfold normalized.
  destruct (proj1 (Forall_forall _ _) divisions r Hr) as [E|E];
    rewrite E; by split.
Qed.

Lemma normalized_westlands (r : School.row) :
  r ∈ school_df →
  normalized School.Division r = Some "WESTLANDS"
  ↔ School.Division r = Some "WESTLANDS".
Proof.
  intros Hr. unfold normalized.
  destruct (proj1 (Forall_forall _ _) divisions r Hr) as [E|E];
    rewrite E; by split.
Qed.

Lemma two_group_keys :
  group_keys (normalized School.Division <$> school_df) = ["KIBRA"; "WESTLANDS"].
Proof.
  apply (sorted_pair string_le); [apply NoDup_group_keys| |done| |by compute].
  - intros k. rewrite elem_of_group_keys, list_elem_of_fmap. split.
    + intros (r & E & Hr). unfold normalized in E.
      destruct (proj1 (Forall_forall _ _) divisions r Hr) as [D|D];
        rewrite D in E; simpl in E; injection E as ->; [by left|by right].
    + intros [-> | ->].
      * destruct kibera as [|r g] eqn:E;
          [unfold kibera in E; rewrite E in five; discriminate|].
        assert (Hr : r ∈ kibera) by (rewrite E; apply list_elem_of_here).
        apply list_elem_of_filter in Hr as [D Hr].
        exists r. split; [|done]. symmetry. by apply normalized_kibra.
      * destruct westlands as [|r g] eqn:E;
          [unfold westlands in E; rewrite E in three; discriminate|].
        assert (Hr : r ∈ westlands) by (rewrite E; apply list_elem_of_here).
        apply list_elem_of_filter in Hr as [D Hr].
        exists r. split; [|done]. symmetry. by apply normalized_westlands.
  - pose proof string_le_total. apply (Sorted_merge_sort string_le).
Qed.

Lemma two_school_stats :
  school_stats school_df School.Division
  = [agg_row "KIBRA" kibera; agg_row "WESTLANDS" westlands].
Proof.
  rewrite school_stats_eq, two_group_keys. cbn [fmap list_fmap].
  f_equal; [f_equal|f_equal; f_equal]; apply filter_ext_in; intros r Hr;
    [by apply normalized_kibra|by apply normalized_westlands].
Qed.

Lemma two_counts :
  Stats.School_Count (agg_row "KIBRA" kibera) = 5
  ∧ Stats.School_Count (agg_row "WESTLANDS" westlands) = 3.
Proof.
  cbn [agg_row Stats.School_Count]. rewrite !agg_count_fmap.
  rewrite !filter_all; [split; [exact five|exact three]|..];
    apply Forall_forall; intros r Hr;
    apply list_elem_of_filter in Hr as [_ Hr];
    by apply (proj1 (Forall_forall _ _) has_FID).
Qed.

Lemma two_merged :
  merge_schools_population school_df [pk; pw] School.Division
  = [both_row (agg_row "KIBRA" kibera) pk;
     both_row (agg_row "WESTLANDS" westlands) pw].
Proof.
  unfold merge_schools_population. rewrite two_school_stats.
  unfold merge_outer, merge_keys, left_rows, right_rows.
  cbn [fmap list_fmap omap list_omap Stats.Division agg_row app].
  rewrite key_pk, key_pw. cbn [omap list_omap app].
  change (merge_sort string_le
            (remove_dups ["KIBRA"; "WESTLANDS"; "KIBRA"; "WESTLANDS"]))
    with ["KIBRA"; "WESTLANDS"].
  cbn [mbind list_bind].
  rewrite !filter_cons, !filter_nil. cbn [Stats.Division agg_row].
  rewrite key_pk, key_pw. reflexivity.
Qed.
End two_divisions.

(** C1: a school table with five rows of division "KIBERA" and three of
    division "WESTLANDS", merged with a population table of one "KIBRA" row
    and one "WESTLANDS" row, gives two rows: the "KIBRA" row with a school
    count of 5 and the "WESTLANDS" row with a school count of 3, each with
    the population columns of its row and the indicator [both]. *)
Theorem merge_two_divisions (school_df : list School.row) (pk pw : Pop.row) :
  Forall (λ r, is_Some (School.FID r)) school_df →
  Forall (λ r, School.Division r = Some "KIBERA"
               ∨ School.Division r = Some "WESTLANDS") school_df →
  length (filter (λ r, School.Division r = Some "KIBERA") school_df) = 5 →
  length (filter (λ r, School.Division r = Some "WESTLANDS") school_df) = 3 →
  Pop.County_Sub_County pk = Some "KIBRA" →
  Pop.County_Sub_County pw = Some "WESTLANDS" →
  ∃ mk mw,
    merge_schools_population school_df [pk; pw] School.Division = [mk; mw]
    ∧ Merged.Division mk = Some "KIBRA"
    ∧ Merged.County_Sub_County mk = Some "KIBRA"
    ∧ Merged.School_Count mk = num_of_nat 5
    ∧ Merged.Total mk = Pop.Total pk
    ∧ Merged._merge mk = both
    ∧ Merged.Division mw = Some "WESTLANDS"
    ∧ Merged.County_Sub_County mw = Some "WESTLANDS"
    ∧ Merged.School_Count mw = num_of_nat 3
    ∧ Merged.Total mw = Pop.Total pw
    ∧ Merged._merge mw = both.
Proof.
  intros HF HD H5 H3 Hk Hw.
  destruct (two_counts school_df HF H5 H3) as [Ck Cw].
  eexists _, _. split; [by apply two_merged|].
  cbn [both_row Merged.Division Merged.County_Sub_County Merged.School_Count
       Merged.Total Merged._merge].
  rewrite Ck, Cw. cbn [agg_row Stats.Division]. by repeat split.
Qed.

(** ** The canonical subcounties *)

Lemma NoDup_get_nairobi_subcounties : NoDup get_nairobi_subcounties.
Proof. apply (bool_decide_unpack _). by vm_compute. Qed.

Lemma normalize_subcounty (k : string) :
  k ∈ get_nairobi_subcounties → normalize_division_name k = k.
Proof.
  intros Hk. apply normalize_other. intros ->. revert Hk.
  apply (bool_decide_unpack _). by vm_compute.
Qed.

(** C8 (amended): the list of canonical subcounty names has 18 entries, all
    different, and the normalizer is injective on them; the subset by a list
    of names and the merge keep, for a listed name, every population row of
    that name, so the merged table has as many rows of a name as the
    population table has. *)
Theorem canonical_subcounties :
  length get_nairobi_subcounties = 18
  ∧ NoDup get_nairobi_subcounties
  ∧ (∀ a b : string,
       a ∈ get_nairobi_subcounties → b ∈ get_nairobi_subcounties →
       normalize_division_name a = normalize_division_name b → a = b)
  ∧ (∀ (school_df : list School.row) (pop_df : list Pop.row)
       (col : School.row → option string) (subcounties : list string)
       (k : string),
       k ∈ subcounties →
       length (filter (λ m, Merged.County_Sub_County m = Some k)
                 (merge_schools_population school_df
                    (subset_by_subcounties pop_df subcounties
                       Pop.County_Sub_County) col))
       = length (filter (λ r, Pop.County_Sub_County r = Some k) pop_df)).
Proof.
  split; [reflexivity|]. split; [apply NoDup_get_nairobi_subcounties|]. split.
  - intros a b Ha Hb. by rewrite !normalize_subcounty.
  - intros school_df pop_df col vs k Hk. unfold merge_schools_population.
    rewrite length_merge_outer_county by apply NoDup_school_stats.
    unfold right_rows. rewrite subset_by_subcounties_filter, list_filter_filter.
    f_equal. apply list_filter_iff. intros r. split; [tauto|].
    intros E. split; [done|]. by rewrite E.
Qed.

(** ** Metric derivation *)

Lemma str_replace_comma_chars (s : string) :
  String.list_ascii_of_string (str_replace_comma s)
  = filter (λ c, c ≠ ","%char) (String.list_ascii_of_string s).
Proof.
  induction s as [|c s IH]; [done|].
  cbn [str_replace_comma String.list_ascii_of_string]. rewrite filter_cons.
  destruct (Ascii.eqb_spec c ","%char) as [->|E].
  - by rewrite decide_False by (intros H; by apply H).
  - rewrite decide_True by done. cbn [String.list_ascii_of_string]. by rewrite IH.
Qed.

Lemma fdiv_zero (x y : num) : is_zero y = true → is_finite (fdiv x y) = false.
Proof.
  destruct y as [b| | |]; try discriminate. cbn [is_zero]. intros Hb.
  apply Z.eqb_eq in Hb. destruct x as [a| | |]; cbn [fdiv]; unfold Qsign;
    rewrite ?Hb; cbn; [|done..]. by destruct (Qnum a ?= 0)%Z.
Qed.

Lemma fmul_not_finite (x : num) (q : Q) :
  Qsign q = Gt → is_finite x = false → is_finite (fmul x (Fin q)) = false.
Proof. intros Hq. destruct x; [discriminate|cbn [fmul]; by rewrite Hq..|done]. Qed.

Lemma Forall2_imap {A B : Type} (P : A → B → Prop) (f : nat → A → B)
    (l : list A) :
  (∀ i x, l !! i = Some x → P x (f i x)) → Forall2 P l (imap f l).
Proof.
  intros H. apply Forall2_same_length_lookup_2; [by rewrite length_imap|].
  intros i x y Hx Hy. rewrite list_lookup_imap, Hx in Hy.
  injection Hy as <-. by apply H.
Qed.

Section metrics_facts.
Variable astype_float : string → option num.

Lemma clean_numeric_eq (series : list cell) :
  clean_numeric astype_float series
  = mapM (clean_cell astype_float series) series.
Proof. unfold clean_numeric, clean_cell. by destruct (dtype_object series). Qed.

Lemma clean_cell_text (series : list cell) (s : string) :
  Str s ∈ series →
  clean_cell astype_float series (Str s) = astype_float (str_replace_comma s).
Proof.
  intros Hs. unfold clean_cell, dtype_object.
  assert (E : existsb is_str series = true).
  { apply existsb_exists. exists (Str s). split; [|done].
    by apply list_elem_of_In. }
  by rewrite E.
Qed.

Lemma clean_cell_float (xs : list num) (x : num) :
  clean_cell astype_float (Num <$> xs) (Num x) = Some x.
Proof.
  unfold clean_cell, dtype_object.
  assert (E : existsb is_str (Num <$> xs) = false).
  { induction xs as [|y xs IH]; [done|]. by rewrite fmap_cons. }
  by rewrite E.
Qed.

Lemma clean_numeric_float (xs : list num) :
  clean_numeric astype_float (Num <$> xs) = Some xs.
Proof.
  rewrite clean_numeric_eq. apply mapM_Some, Forall2_fmap_l, Forall_Forall2_diag.
  apply Forall_forall. intros x _. apply clean_cell_float.
Qed.

Lemma clean_numeric_lookup (col : Merged.row → cell) (df : list Merged.row)
    (out : list num) (i : nat) (r : Merged.row) :
  clean_numeric astype_float (col <$> df) = Some out →
  df !! i = Some r →
  ∃ x, out !! i = Some x
     ∧ clean_cell astype_float (col <$> df) (col r) = Some x.
Proof.
  rewrite clean_numeric_eq. intros Hout Hr. apply mapM_Some in Hout.
  apply (Forall2_lookup_l _ _ _ i (col r)) in Hout as (x & Hx & Hc);
    [by exists x|].
  by rewrite list_lookup_fmap, Hr.
Qed.
End metrics_facts.

Lemma getitem_mask_matched (merged_df : list Merged.row) :
  getitem_mask merged_df (merge_eq (Merged._merge <$> merged_df) both)
  = matched merged_df.
Proof.
  unfold merge_eq, matched. apply getitem_mask_filter.
  intros m. apply bool_decide_eq_true.
Qed.

Lemma calculate_completion_metrics_Some (astype_float : string → option num)
    (merged_df : list Merged.row) (metrics_df : list Metrics.row) :
  calculate_completion_metrics astype_float merged_df = Some metrics_df →
  Forall2 (metrics_of astype_float (matched merged_df))
    (matched merged_df) metrics_df.
Proof.
  unfold calculate_completion_metrics.
  rewrite getitem_mask_matched. set (df := matched merged_df).
  destruct (clean_numeric _ (Merged.Total <$> df)) as [total|] eqn:E1;
    [|discriminate].
  destruct (clean_numeric _ (Merged.At_School <$> df)) as [at_school|] eqn:E2;
    [|discriminate].
  destruct (clean_numeric _ (Merged.Left_After_Completion <$> df))
    as [completed|] eqn:E3; [|discriminate].
  destruct (clean_numeric _ (Merged.Left_Before_Completion <$> df))
    as [dropped|] eqn:E4; [|discriminate].
  destruct (clean_numeric _ (Merged.Never_Been_to_School <$> df))
    as [never|] eqn:E5; [|discriminate].
  cbn [mbind option_bind]. intros [= <-]. apply Forall2_imap. intros i r Hr.
  destruct (clean_numeric_lookup _ _ _ _ i r E1 Hr) as (x1 & L1 & C1).
  destruct (clean_numeric_lookup _ _ _ _ i r E2 Hr) as (x2 & L2 & C2).
  destruct (clean_numeric_lookup _ _ _ _ i r E3 Hr) as (x3 & L3 & C3).
  destruct (clean_numeric_lookup _ _ _ _ i r E4 Hr) as (x4 & L4 & C4).
  destruct (clean_numeric_lookup _ _ _ _ i r E5 Hr) as (x5 & L5 & C5).
  unfold metrics_of, rate_series.
  cbn [Metrics.Total Metrics.At_School Metrics.Left_After_Completion
       Metrics.Left_Before_Completion Metrics.Never_Been_to_School
       Metrics.Completed_Rate Metrics.Division Metrics.School_Count
       Metrics.Total_Enrollment Metrics.County_Sub_County Metrics._merge].
  rewrite lookup_zip_with, L1, L2, L3, L4, L5. cbn.
  rewrite C1, C2, C3, C4, C5. repeat (split; [done|]).
  apply list_elem_of_lookup_2 in Hr. unfold df, matched in Hr.
  by apply list_elem_of_filter in Hr as [? _].
Qed.

Lemma calculate_completion_metrics_is_Some (astype_float : string → option num)
    (merged_df : list Merged.row) :
  is_Some (calculate_completion_metrics astype_float merged_df)
  ↔ Forall (λ col, Forall (λ r, is_Some
       (clean_cell astype_float (col <$> matched merged_df) (col r)))
       (matched merged_df)) attendance_cols.
Proof.
  unfold calculate_completion_metrics.
  rewrite getitem_mask_matched. set (df := matched merged_df).
  assert (Hcol : ∀ col : Merged.row → cell,
    is_Some (clean_numeric astype_float (col <$> df))
    ↔ Forall (λ r, is_Some (clean_cell astype_float (col <$> df) (col r))) df).
  { intros col. rewrite clean_numeric_eq, mapM_is_Some, Forall_fmap. done. }
  unfold attendance_cols. rewrite !Forall_cons, <- !Hcol.
  destruct (clean_numeric _ (Merged.Total <$> df));
    [|split; [by intros [? ?]|by intros ([? ?] & _)]].
  destruct (clean_numeric _ (Merged.At_School <$> df));
    [|split; [by intros [? ?]|by intros (_ & [? ?] & _)]].
  destruct (clean_numeric _ (Merged.Left_After_Completion <$> df));
    [|split; [by intros [? ?]|by intros (_ & _ & [? ?] & _)]].
  destruct (clean_numeric _ (Merged.Left_Before_Completion <$> df));
    [|split; [by intros [? ?]|by intros (_ & _ & _ & [? ?] & _)]].
  destruct (clean_numeric _ (Merged.Never_Been_to_School <$> df));
    [|split; [by intros [? ?]|by intros (_ & _ & _ & _ & [? ?] & _)]].
  cbn [mbind option_bind]. split; [|by eexists]. intros _.
  repeat (split; [by eexists|]). apply Forall_nil_2.
Qed.

Lemma create_schools_per_capita_charts_Some (astype_float : string → option num)
    (metrics_df : list Metrics.row) :
  ∃ capita,
    create_schools_per_capita_charts astype_float metrics_df = Some capita
    ∧ Forall2 capita_of metrics_df capita.
Proof.
  unfold create_schools_per_capita_charts. rewrite !clean_numeric_float.
  cbn [mbind option_bind]. eexists. split; [reflexivity|].
  apply Forall2_imap. intros i m Hm. unfold capita_of, rate_series.
  cbn [Capita.base Capita.Total_Pop Capita.Schools_per_10k
       Capita.Students_per_School].
  rewrite !lookup_zip_with, !list_lookup_fmap, Hm. cbn.
  by destruct m.
Qed.

(** C5: the metric derivation returns a table exactly when every text cell
    of the five attendance columns of the matched rows, commas removed, reads
    as a float; its rows are then those of the matched rows with the text
    cells so converted and the completion rate completed / total * 100; the
    per-capita columns are school count / total * 10000 and enrollment /
    school count. *)
Theorem metric_derivation_spec (astype_float : string → option num)
    (merged_df : list Merged.row) :
  (is_Some (calculate_completion_metrics astype_float merged_df)
   ↔ Forall (λ col, Forall (λ r, is_Some
        (clean_cell astype_float (col <$> matched merged_df) (col r)))
        (matched merged_df)) attendance_cols)
  ∧ (∀ metrics_df,
       calculate_completion_metrics astype_float merged_df = Some metrics_df →
       Forall2 (metrics_of astype_float (matched merged_df))
         (matched merged_df) metrics_df
       ∧ ∃ capita,
           create_schools_per_capita_charts astype_float metrics_df = Some capita
           ∧ Forall2 capita_of metrics_df capita)
  ∧ (∀ (series : list cell) (s : string),
       Str s ∈ series →
       clean_cell astype_float series (Str s)
       = astype_float (str_replace_comma s))
  ∧ (∀ s : string,
       String.list_ascii_of_string (str_replace_comma s)
       = filter (λ c, c ≠ ","%char) (String.list_ascii_of_string s)).
Proof.
  split; [apply calculate_completion_metrics_is_Some|]. split; [|split].
  - intros metrics_df H. split; [by apply calculate_completion_metrics_Some|].
    apply create_schools_per_capita_charts_Some.
  - apply clean_cell_text.
  - apply str_replace_comma_chars.
Qed.

(** C6: a zero denominator is not guarded against: when the total population
    of a row is zero, its completion rate and its schools per 10k are an
    infinity or NaN, and when its school count is zero its students per
    school is; both cases are reached from input tables, and the only way
    for the derivation not to return is a text cell that does not read as a
    float. *)
Theorem zero_denominators_unguarded (astype_float : string → option num) :
  (∀ merged_df metrics_df,
     calculate_completion_metrics astype_float merged_df = Some metrics_df →
     Forall (λ m, is_zero (Metrics.Total m) = true →
                  is_finite (Metrics.Completed_Rate m) = false) metrics_df)
  ∧ (∀ metrics_df, ∃ capita,
       create_schools_per_capita_charts astype_float metrics_df = Some capita
       ∧ Forall2 (λ m c,
           (is_zero (Metrics.Total m) = true →
            is_finite (Capita.Schools_per_10k c) = false
            ∧ is_finite (Metrics.Completed_Rate (Capita.base c)) = false)
           ∧ (is_zero (Metrics.School_Count m) = true →
              is_finite (Capita.Students_per_School c) = false))
           metrics_df capita)
  ∧ (∃ metrics_df capita mk mw ck cw,
       calculate_completion_metrics astype_float
         (merge_schools_population example_school_zero example_pop_zero
            School.Division) = Some metrics_df
       ∧ create_schools_per_capita_charts astype_float metrics_df = Some capita
       ∧ metrics_df = [mk; mw] ∧ capita = [ck; cw]
       ∧ Metrics.School_Count mk = Fin 0
       ∧ Capita.Students_per_School ck = PInf
       ∧ Metrics.Total mw = Fin 0
       ∧ Metrics.Completed_Rate mw = NaN
       ∧ Capita.Schools_per_10k cw = PInf)
  ∧ (∀ merged_df,
       is_Some (calculate_completion_metrics astype_float merged_df)
       ↔ Forall (λ col, Forall (λ r, is_Some
            (clean_cell astype_float (col <$> matched merged_df) (col r)))
            (matched merged_df)) attendance_cols).
Proof.
  split; [|split; [|split; [|apply calculate_completion_metrics_is_Some]]].
  - intros merged_df metrics_df H.
    apply calculate_completion_metrics_Some in H.
    induction H as [|r m df ms Hm _ IH]; [apply Forall_nil_2|].
    apply Forall_cons. split; [|exact IH].
    destruct Hm as (_ & _ & _ & _ & _ & -> & _). intros Hz.
    apply fmul_not_finite; [done|]. by apply fdiv_zero.
  - intros metrics_df.
    destruct (create_schools_per_capita_charts_Some astype_float metrics_df)
      as (capita & E & H).
    exists capita. split; [exact E|]. clear E.
    induction H as [|m c ms cs Hc _ IH]; [apply Forall2_nil_2|].
    apply Forall2_cons. split; [|exact IH].
    destruct Hc as (_ & -> & -> & -> & _).
    split; [intros Hz; split|intros Hz];
      [apply fmul_not_finite; [done|]..|]; by apply fdiv_zero.
  - eexists _, _, _, _, _, _. by vm_compute.
Qed.

(** ** The properties at the example tables *)

Lemma merge_two_divisions_witness :
  ∃ mk mw,
    merge_schools_population example_school_df [example_kibra; example_westlands]
      School.Division = [mk; mw]
    ∧ Merged.Division mk = Some "KIBRA"
    ∧ Merged.County_Sub_County mk = Some "KIBRA"
    ∧ Merged.School_Count mk = num_of_nat 5
    ∧ Merged.Total mk = Num (Fin 10000)
    ∧ Merged._merge mk = both
    ∧ Merged.Division mw = Some "WESTLANDS"
    ∧ Merged.County_Sub_County mw = Some "WESTLANDS"
    ∧ Merged.School_Count mw = num_of_nat 3
    ∧ Merged.Total mw = Num (Fin 8000)
    ∧ Merged._merge mw = both.
Proof.
  apply (merge_two_divisions example_school_df example_kibra example_westlands);
    try reflexivity.
  - repeat (apply Forall_cons_2; [by eexists|]). apply Forall_nil_2.
  - repeat (apply Forall_cons_2; [(by left) || (by right)|]). apply Forall_nil_2.
Defined.


Lemma school_stats_spec_witness :
  Forall (λ r, is_Some (School.FID r)) example_school_df
  ∧ sum_list (Stats.School_Count
                <$> school_stats example_school_df School.Division)
    = length (filter (λ r, is_Some (School.Division r)) example_school_df).
Proof.
  assert (H : Forall (λ r, is_Some (School.FID r)) example_school_df).
  { repeat (apply Forall_cons_2; [by eexists|]). apply Forall_nil_2. }
  split; [exact H|].
  apply (school_stats_spec example_school_df School.Division H).
Defined.

(** The school counts of a table with a school without division do not add
    up to its number of rows. *)
Lemma school_stats_counterexample :
  Stats.School_Count <$> school_stats example_no_division School.Division = [1]
  ∧ length example_no_division = 2
  ∧ sum_list (Stats.School_Count
                <$> school_stats example_no_division School.Division)
    ≠ length example_no_division.
Proof. split; [reflexivity|]. split; [reflexivity|]. by vm_compute. Qed.

Lemma canonical_subcounties_witness :
  "KIBRA" ∈ get_nairobi_subcounties
  ∧ length (filter (λ m, Merged.County_Sub_County m = Some "KIBRA")
              (merge_schools_population example_school_df
                 (subset_by_subcounties example_pop_df get_nairobi_subcounties
                    Pop.County_Sub_County) School.Division))
    = length (filter (λ r, Pop.County_Sub_County r = Some "KIBRA")
                example_pop_df).
Proof.
  assert (H : "KIBRA" ∈ get_nairobi_subcounties)
    by (apply (bool_decide_unpack _); by vm_compute).
  split; [exact H|].
  by apply (proj2 (proj2 (proj2 canonical_subcounties))).
Defined.

(** A population table with two rows for KIBRA gives two rows to the subset
    and two rows to the merged table for that name. *)
Lemma canonical_subcounties_counterexample :
  "KIBRA" ∈ get_nairobi_subcounties
  ∧ length (filter (λ r, Pop.County_Sub_County r = Some "KIBRA")
              (subset_by_subcounties example_pop_twice get_nairobi_subcounties
                 Pop.County_Sub_County)) = 2
  ∧ length (filter (λ m, Merged.County_Sub_County m = Some "KIBRA")
              (merge_schools_population example_school_df
                 (subset_by_subcounties example_pop_twice
                    get_nairobi_subcounties Pop.County_Sub_County)
                 School.Division)) = 2.
Proof.
  split; [apply (bool_decide_unpack _); by vm_compute|]. by vm_compute.
Qed.

Lemma metric_derivation_spec_witness :
  ∃ metrics_df,
    calculate_completion_metrics float_of_digits
      (merge_schools_population example_school_df example_pop_text
         School.Division) = Some metrics_df
    ∧ Forall2 (metrics_of float_of_digits
                 (matched (merge_schools_population example_school_df
                             example_pop_text School.Division)))
        (matched (merge_schools_population example_school_df example_pop_text
                    School.Division)) metrics_df
    ∧ (Metrics.Completed_Rate <$> metrics_df) = [Fin 25; Fin 50].
Proof.
  eexists. split; [by vm_compute|]. split; [|by vm_compute].
  apply (proj1 (proj2 (metric_derivation_spec float_of_digits
    (merge_schools_population example_school_df example_pop_text
       School.Division))) _).
  by vm_compute.
Defined.

Lemma zero_denominators_unguarded_witness :
  ∃ metrics_df,
    calculate_completion_metrics float_of_digits
      (merge_schools_population example_school_zero example_pop_zero
         School.Division) = Some metrics_df
    ∧ Forall (λ m, is_zero (Metrics.Total m) = true →
                   is_finite (Metrics.Completed_Rate m) = false) metrics_df
    ∧ (Metrics.Completed_Rate <$> metrics_df) = [Fin 20; NaN].
Proof.
  eexists. split; [by vm_compute|]. split; [|by vm_compute].
  apply (proj1 (zero_denominators_unguarded float_of_digits)
    (merge_schools_population example_school_zero example_pop_zero
       School.Division)).
  by vm_compute.
Defined.

Lemma subset_operations_spec_witness :
  ∃ l,
    subset_by_subcounties_prog 2%positive get_nairobi_subcounties
      County_Sub_County_col example_store
    = Some (l, <[l := PopFrame
                  (filter (λ r, cell_in get_nairobi_subcounties
                                  (Pop.County_Sub_County r)) example_pop_df)]>
               example_store)
    ∧ example_store !! l = None.
Proof.
  destruct (proj2 (proj2 (proj2 (proj2 subset_operations_spec)))
    example_store 2%positive example_pop_df get_nairobi_subcounties eq_refl)
    as (l & Hl & Hrun & _).
  by exists l.
Defined.

Lemma merge_schools_population_frame_witness :
  ∃ (merged_df : loc) (h' : store),
    merge_schools_population_prog 1%positive 2%positive Division_col example_store
    = Some (merged_df, h')
    ∧ h' !! 1%positive = Some (SchoolFrame example_school_df None)
    ∧ h' !! 2%positive = Some (PopFrame example_pop_df)
    ∧ preserves example_store h'
    ∧ example_store !! merged_df = None
    ∧ h' !! merged_df
      = Some (MergedFrame
                (merge_schools_population example_school_df example_pop_df
                   School.Division)).
Proof.
  apply (merge_schools_population_frame example_store 1%positive 2%positive
    example_school_df None example_pop_df); reflexivity.
Defined.

(** Without the copy, the call changes its first argument: the school table
    of the store has the new column afterwards. *)
Lemma merge_in_place_prog_changes :
  ∃ (merged_df : loc) (h' : store),
    merge_in_place_prog 1%positive 2%positive Division_col example_store
    = Some (merged_df, h')
    ∧ h' !! 1%positive
      = Some (SchoolFrame example_school_df
                (Some (apply_normalize (School.Division <$> example_school_df))))
    ∧ h' !! 1%positive ≠ example_store !! 1%positive.
Proof. eexists _, _. split; [reflexivity|]. by vm_compute. Qed.

(** * Further properties *)

(** ** Subsets compose *)

Lemma filter_filter_comm {A : Type} (P Q : A → Prop) `{!∀ x, Decision (P x)}
    `{!∀ x, Decision (Q x)} (l : list A) :
  filter P (filter Q l) = filter Q (filter P l).
Proof. rewrite !list_filter_filter. apply list_filter_iff. tauto. Qed.

Lemma sublist_filter_impl {A : Type} (P Q : A → Prop) `{!∀ x, Decision (P x)}
    `{!∀ x, Decision (Q x)} (l : list A) :
  (∀ x, P x → Q x) → sublist (filter P l) (filter Q l).
Proof.
  intros HPQ.
  rewrite (list_filter_iff P (λ x, P x ∧ Q x)) by (split; [auto|tauto]).
  rewrite <- list_filter_filter. apply sublist_filter.
Qed.

(** X1: the subset operations can be applied in any order: the province
    subset of the level subset is the level subset of the province subset,
    namely the rows that pass both tests, in their order; likewise with the
    subset by subcounties. *)
Theorem subsets_commute (A : Type) (df : list A) (province level : string)
    (subcounties : list string) (pc lc sc : A → option string) :
  subset_by_level (subset_by_province df province pc) level lc
  = filter (λ r, lc r = Some level ∧ pc r = Some province) df
  ∧ subset_by_level (subset_by_province df province pc) level lc
    = subset_by_province (subset_by_level df level lc) province pc
  ∧ subset_by_subcounties (subset_by_province df province pc) subcounties sc
    = subset_by_province (subset_by_subcounties df subcounties sc) province pc.
Proof.
  rewrite ?subset_by_level_filter, ?subset_by_province_filter,
    ?subset_by_subcounties_filter.
  split; [apply list_filter_filter|]. split; apply filter_filter_comm.
Qed.

(** X2: a subset is a sublist of the table, each of its rows passes the
    test, taking it again changes nothing, and the subset by an empty list
    of names is empty. *)
Theorem subsets_idempotent (A : Type) (df : list A) (v : string)
    (vs : list string) (col : A → option string) :
  sublist (subset_by_province df v col) df
  ∧ sublist (subset_by_subcounties df vs col) df
  ∧ Forall (λ r, col r = Some v) (subset_by_province df v col)
  ∧ Forall (λ r, ∃ s, col r = Some s ∧ s ∈ vs) (subset_by_subcounties df vs col)
  ∧ subset_by_province (subset_by_province df v col) v col
    = subset_by_province df v col
  ∧ subset_by_subcounties (subset_by_subcounties df vs col) vs col
    = subset_by_subcounties df vs col
  ∧ subset_by_subcounties df [] col = [].
Proof.
  rewrite !subset_by_province_filter, !subset_by_subcounties_filter.
  split; [apply sublist_filter|]. split; [apply sublist_filter|].
  split; [apply Forall_forall; intros r Hr;
          by apply list_elem_of_filter in Hr as [? _]|].
  split.
  { apply Forall_forall. intros r Hr. apply list_elem_of_filter in Hr as [Hr _].
    destruct (col r) as [s|]; [by exists s|done]. }
  split; [rewrite list_filter_filter; apply list_filter_iff; tauto|].
  split; [rewrite list_filter_filter; apply list_filter_iff; tauto|].
  apply filter_none, Forall_forall. intros r _.
  destruct (col r) as [s|]; simpl; [apply not_elem_of_nil|tauto].
Qed.

(** ** Comma removal *)

(** X3: removing the commas leaves a string without comma, is the identity
    on a string without comma, changes nothing when done again, and goes
    through concatenation. *)
Theorem str_replace_comma_spec (s t : string) :
  (","%char ∉ String.list_ascii_of_string (str_replace_comma s))
  ∧ ((","%char ∉ String.list_ascii_of_string s) → str_replace_comma s = s)
  ∧ str_replace_comma (str_replace_comma s) = str_replace_comma s
  ∧ str_replace_comma (s +:+ t) = str_replace_comma s +:+ str_replace_comma t.
Proof.
  assert (Hno : ∀ u, ","%char ∉ String.list_ascii_of_string (str_replace_comma u)).
  { intros u. rewrite str_replace_comma_chars. intros H.
    by apply list_elem_of_filter in H as [H _]. }
  assert (Hid : ∀ u, (","%char ∉ String.list_ascii_of_string u) →
                     str_replace_comma u = u).
  { induction u as [|c u IH]; [done|]. cbn [String.list_ascii_of_string].
    rewrite not_elem_of_cons. intros [Hc Hu]. cbn [str_replace_comma].
    destruct (Ascii.eqb_spec c ","%char) as [E|_]; [congruence|].
    by rewrite IH by done. }
  split; [apply Hno|]. split; [apply Hid|]. split; [apply Hid, Hno|].
  induction s as [|c s IH]; [done|].
  change (String c s +:+ t) with (String c (s +:+ t)). cbn [str_replace_comma].
  destruct (Ascii.eqb c ","%char); [done|].
  change (String c (str_replace_comma s) +:+ str_replace_comma t)
    with (String c (str_replace_comma s +:+ str_replace_comma t)).
  by rewrite IH.
Qed.

Lemma str_replace_comma_spec_witness :
  str_replace_comma "8000" = "8000"
  ∧ str_replace_comma "1,234,567" = "1234567".
Proof.
  split; [|reflexivity].
  apply (proj1 (proj2 (str_replace_comma_spec "8000" ""))).
  apply (bool_decide_unpack _). by vm_compute.
Defined.

(** ** The school table of the distribution chart *)

Lemma getitem_mask_and {A : Type} (g1 g2 : A → bool) (P : A → Prop)
    `{!∀ x, Decision (P x)} (df : list A) :
  (∀ x, g1 x && g2 x = true ↔ P x) →
  getitem_mask df (mask_and (g1 <$> df) (g2 <$> df)) = filter P df.
Proof.
  intros Hg. unfold mask_and. induction df as [|r df IH]; [done|].
  rewrite filter_cons, <- IH, !fmap_cons. cbn [zip_with getitem_mask].
  destruct (g1 r && g2 r) eqn:E.
  - rewrite decide_True; [done|]. by apply Hg.
  - rewrite decide_False; [done|]. rewrite <- Hg. congruence.
Qed.

Lemma load_nairobi_schools_filter (df : list School.row) :
  load_nairobi_schools df
  = filter (λ r, (is_nan (School.Latitude r) = false
                  ∧ is_nan (School.Longitude r) = false)
                 ∧ School.Province r = Some "NAIROBI"
                 ∧ School.Level_ r = Some "PRIMARY SCHOOL") df.
Proof.
  unfold load_nairobi_schools, dropna_coordinates, series_eq.
  rewrite <- !list_fmap_compose.
  rewrite (getitem_mask_and _ _
    (λ r, School.Province r = Some "NAIROBI"
          ∧ School.Level_ r = Some "PRIMARY SCHOOL")).
  - apply list_filter_filter.
  - intros r. unfold compose.
    rewrite andb_true_iff, !bool_decide_eq_true. done.
Qed.

(** X4: the table of the distribution chart is the table
    [data_wrangling.main] merges (province subset, then level subset) without
    its rows that lack a coordinate; loading what was loaded changes
    nothing. *)
Theorem load_nairobi_schools_spec (df : list School.row) :
  load_nairobi_schools df
  = dropna_coordinates
      (subset_by_level (subset_by_province df "NAIROBI" School.Province)
         "PRIMARY SCHOOL" School.Level_)
  ∧ Forall (λ r, School.Province r = Some "NAIROBI"
                 ∧ School.Level_ r = Some "PRIMARY SCHOOL"
                 ∧ School.Latitude r ≠ NaN ∧ School.Longitude r ≠ NaN)
      (load_nairobi_schools df)
  ∧ load_nairobi_schools (load_nairobi_schools df) = load_nairobi_schools df
  ∧ sublist (load_nairobi_schools df)
      (subset_by_level (subset_by_province df "NAIROBI" School.Province)
         "PRIMARY SCHOOL" School.Level_).
Proof.
  rewrite !load_nairobi_schools_filter.
  rewrite ?subset_by_level_filter, ?subset_by_province_filter.
  unfold dropna_coordinates. rewrite !list_filter_filter.
  split; [apply list_filter_iff; tauto|]. split; [|split].
  - apply Forall_forall. intros r Hr.
    apply list_elem_of_filter in Hr as [[[Hlat Hlon] [Hp Hl]] _].
    repeat split; [done..| |]; intros E; rewrite E in *; discriminate.
  - apply list_filter_iff. tauto.
  - apply sublist_filter_impl. tauto.
Qed.

(** ** The two spellings of one division *)

Lemma normalize_division_name_facts :
  (∀ s : string, s ≠ "KIBERA" → normalize_division_name s = s)
  ∧ normalize_division_name "KIBERA" = "KIBRA"
  ∧ (∀ s : string, normalize_division_name s ≠ "KIBERA").
Proof.
  split; [apply normalize_other|]. split; [reflexivity|].
  intros s. destruct (decide (s = "KIBERA")) as [->|Hs]; [done|].
  by rewrite normalize_other.
Qed.

Lemma normalized_eq_Some (col : School.row → option string) (r : School.row)
    (k : string) :
  normalized col r = Some k
  ↔ (k = "KIBRA" ∧ (col r = Some "KIBERA" ∨ col r = Some "KIBRA"))
    ∨ (k ≠ "KIBRA" ∧ k ≠ "KIBERA" ∧ col r = Some k).
Proof.
  unfold normalized. destruct (col r) as [d|]; simpl.
  - destruct (decide (d = "KIBERA")) as [->|Hd].
    + rewrite (proj1 (proj2 normalize_division_name_facts)). split.
      * intros [= <-]. left. split; [done|by left].
      * intros [[-> _]|(_ & Hk & [= E])]; [done|congruence].
    + rewrite (proj1 normalize_division_name_facts) by done. split.
      * intros [= ->]. destruct (decide (k = "KIBRA")) as [->|Hk];
          [left; split; [done|by right]|by right].
      * intros [[-> [[= E]|[= E]]]|(_ & _ & [= E])]; congruence.
  - split; [discriminate|]. intros [[_ [H|H]]|(_ & _ & H)]; discriminate.
Qed.

(** X5: [school_stats] has no row named "KIBERA"; its row "KIBRA" counts the
    schools of both spellings, and any other row the schools of its own
    division (those with an identifier). *)
Theorem school_stats_pools_kibera (school_df : list School.row)
    (col : School.row → option string) (s : Stats.row) :
  s ∈ school_stats school_df col →
  Stats.Division s ≠ "KIBERA"
  ∧ (Stats.Division s = "KIBRA" →
     Stats.School_Count s
     = length (filter (λ r, (col r = Some "KIBERA" ∨ col r = Some "KIBRA")
                            ∧ is_Some (School.FID r)) school_df))
  ∧ (Stats.Division s ≠ "KIBRA" →
     Stats.School_Count s
     = length (filter (λ r, col r = Some (Stats.Division s)
                            ∧ is_Some (School.FID r)) school_df)).
Proof.
  intros Hs. pose proof Hs as Hin. rewrite school_stats_eq in Hs.
  apply list_elem_of_fmap in Hs as (k & -> & Hk).
  apply elem_of_group_keys, list_elem_of_fmap in Hk as (r0 & Hk & _).
  cbn [agg_row Stats.Division Stats.School_Count].
  rewrite agg_count_fmap, list_filter_filter.
  assert (Hne : k ≠ "KIBERA").
  { intros ->. symmetry in Hk. apply normalized_eq_Some in Hk.
    destruct Hk as [[? _]|(_ & ? & _)]; congruence. }
  split; [done|]. split; intros E; f_equal; apply list_filter_iff; intros r;
    rewrite normalized_eq_Some; tauto.
Qed.

(** ** Division statistics *)

Lemma count_ge_total : Total count_ge.
Proof. intros a b. unfold count_ge. lia. Qed.

Lemma count_ge_trans : Transitive count_ge.
Proof. intros a b c. unfold count_ge. lia. Qed.

Lemma create_division_statistics_perm (agg_std : list num → num)
    (df : list School.row) :
  create_division_statistics agg_std df
  ≡ₚ (λ k, division_row agg_std k (filter (λ r, School.Division r = Some k) df))
     <$> group_keys (School.Division <$> df).
Proof.
  unfold create_division_statistics. rewrite merge_sort_Permutation.
  rewrite snd_zip by (by rewrite length_fmap).
  erewrite list_fmap_ext; [reflexivity|]. intros _ k _. cbn beta.
  by rewrite group_of_zip.
Qed.

Lemma division_count_sum (agg_std : list num → num) (keys : list string)
    (df : list School.row) :
  sum_list (DivisionStats.School_Count
    <$> ((λ k, division_row agg_std k
                 (filter (λ r, School.Division r = Some k) df)) <$> keys))
  = sum_list_with
      (λ k, length (filter (λ r, School.Division r = k)
                      (filter (λ r, is_Some (School.FID r)) df)))
      (Some <$> keys).
Proof.
  induction keys as [|k keys IH]; [done|].
  rewrite !fmap_cons. cbn [sum_list_with]. rewrite IH. f_equal.
  unfold id. cbn [DivisionStats.School_Count division_row].
  rewrite agg_count_fmap, !list_filter_filter. f_equal.
  apply list_filter_iff. tauto.
Qed.

(** X6: the division statistics are in decreasing order of school count, so
    the first row has the largest; they have one row per distinct division
    of the table, spelled as in the table; a row counts the schools of its
    division that have an identifier, and the counts add up to the number of
    schools that have both. *)
Theorem create_division_statistics_spec (agg_std : list num → num)
    (df : list School.row) :
  StronglySorted count_ge (create_division_statistics agg_std df)
  ∧ NoDup (DivisionStats.Division <$> create_division_statistics agg_std df)
  ∧ (∀ k : string,
       k ∈ DivisionStats.Division <$> create_division_statistics agg_std df
       ↔ ∃ r, r ∈ df ∧ School.Division r = Some k)
  ∧ (∀ d, d ∈ create_division_statistics agg_std df →
       DivisionStats.School_Count d
       = length (filter (λ r, School.Division r = Some (DivisionStats.Division d)
                              ∧ is_Some (School.FID r)) df))
  ∧ sum_list (DivisionStats.School_Count
                <$> create_division_statistics agg_std df)
    = length (filter (λ r, is_Some (School.Division r)
                           ∧ is_Some (School.FID r)) df).
Proof.
  pose proof count_ge_total. pose proof count_ge_trans.
  split; [apply (StronglySorted_merge_sort count_ge)|].
  pose proof (create_division_statistics_perm agg_std df) as Hp.
  assert (Hdiv : DivisionStats.Division <$> create_division_statistics agg_std df
                 ≡ₚ group_keys (School.Division <$> df)).
  { rewrite Hp, <- list_fmap_compose.
    rewrite (list_fmap_ext _ id (group_keys (School.Division <$> df)))
      by done.
    by rewrite list_fmap_id. }
  split; [rewrite Hdiv; apply NoDup_group_keys|]. split; [|split].
  - intros k. rewrite Hdiv, elem_of_group_keys, list_elem_of_fmap.
    split; [intros (r & E & Hr)|intros (r & Hr & E)]; by exists r.
  - intros d Hd. rewrite Hp in Hd. apply list_elem_of_fmap in Hd as (k & -> & _).
    cbn [division_row DivisionStats.Division DivisionStats.School_Count].
    rewrite agg_count_fmap, list_filter_filter. f_equal.
    apply list_filter_iff. tauto.
  - rewrite Hp, division_count_sum.
    rewrite sum_filter_keys by (apply (NoDup_fmap_2 _), NoDup_group_keys).
    rewrite list_filter_filter. f_equal. apply filter_ext_in.
    intros r Hr. split.
    + intros [Hk HF]. split; [|done].
      apply list_elem_of_fmap in Hk as (k & Hk & _). by exists k.
    + intros [[d Hd] HF]. split; [|done]. rewrite Hd.
      apply list_elem_of_fmap_2, elem_of_group_keys. rewrite <- Hd.
      by apply list_elem_of_fmap_2.
Qed.

(** X7: the two scripts count the same schools under different names: the
    school count of a row of [school_stats] is the sum of the school counts
    of the rows of the division statistics whose name normalizes to its
    name. *)
Theorem school_stats_division_statistics (agg_std : list num → num)
    (df : list School.row) (s : Stats.row) :
  s ∈ school_stats df School.Division →
  Stats.School_Count s
  = sum_list (DivisionStats.School_Count
      <$> filter (λ d, normalize_division_name (DivisionStats.Division d)
                       = Stats.Division s)
            (create_division_statistics agg_std df)).
Proof.
  intros Hs. rewrite school_stats_eq in Hs.
  apply list_elem_of_fmap in Hs as (k & -> & Hk).
  cbn [agg_row Stats.Division Stats.School_Count].
  rewrite (create_division_statistics_perm agg_std df).
  set (keys := group_keys (School.Division <$> df)).
  assert (Hf : filter (λ d, normalize_division_name (DivisionStats.Division d) = k)
      ((λ k0, division_row agg_std k0
                (filter (λ r, School.Division r = Some k0) df)) <$> keys)
    = (λ k0, division_row agg_std k0
               (filter (λ r, School.Division r = Some k0) df))
      <$> filter (λ d, normalize_division_name d = k) keys).
  { generalize keys. intros ks. induction ks as [|d ks IH]; [done|].
    rewrite fmap_cons, !filter_cons.
    cbn [division_row DivisionStats.Division].
    destruct (decide (normalize_division_name d = k));
      [rewrite fmap_cons|]; by rewrite IH. }
  rewrite Hf, division_count_sum.
  rewrite sum_filter_keys
    by (apply (NoDup_fmap_2 _), NoDup_filter, NoDup_group_keys).
  rewrite agg_count_fmap, !list_filter_filter. f_equal.
  apply filter_ext_in. intros r Hr. unfold normalized. split.
  - intros [HF E]. split; [|done].
    destruct (School.Division r) as [d|] eqn:Ed; [|discriminate].
    simpl in E. injection E as E.
    apply list_elem_of_fmap_2, list_elem_of_filter. split; [done|].
    apply elem_of_group_keys. rewrite <- Ed. by apply list_elem_of_fmap_2.
  - intros [Hd HF]. split; [done|].
    apply list_elem_of_fmap in Hd as (d & -> & Hd).
    apply list_elem_of_filter in Hd as [<- _]. done.
Qed.

(** ** The merged rows of each kind *)

Lemma filter_app_disjoint {A : Type} (P Q : A → Prop) `{!∀ x, Decision (P x)}
    `{!∀ x, Decision (Q x)} (l : list A) :
  (∀ x, P x → Q x → False) →
  filter P l ++ filter Q l ≡ₚ filter (λ x, P x ∨ Q x) l.
Proof.
  intros Hd. induction l as [|x l IH]; [done|].
  rewrite !filter_cons.
  destruct (decide (P x)) as [HP|HP], (decide (Q x)) as [HQ|HQ].
  - destruct (Hd x HP HQ).
  - rewrite decide_True by tauto. simpl. by rewrite IH.
  - rewrite decide_True by tauto. rewrite <- Permutation_middle. by rewrite IH.
  - rewrite decide_False by tauto. done.
Qed.

(** Going through distinct keys and taking, for the keys that pass a test,
    the rows of that key, reaches the rows whose key is listed and passes. *)
Lemma bind_filter_keys {A K : Type} `{!EqDecision K} (f : A → K)
    (Q : K → Prop) `{!∀ k, Decision (Q k)} (keys : list K) (xs : list A) :
  NoDup keys →
  keys ≫= (λ k, if decide (Q k) then filter (λ x, f x = k) xs else [])
  ≡ₚ filter (λ x, f x ∈ keys ∧ Q (f x)) xs.
Proof.
  intros Hnd. induction Hnd as [|k keys Hk Hnd IH].
  - rewrite filter_none; [done|]. apply Forall_forall. intros x _ [Hx _].
    by apply elem_of_nil in Hx.
  - rewrite bind_cons, IH. destruct (decide (Q k)) as [HQ|HQ].
    + rewrite filter_app_disjoint.
      * erewrite list_filter_iff; [reflexivity|]. intros x. cbn beta.
        rewrite elem_of_cons. split; [|tauto].
        intros [E|[? ?]]; [rewrite E; tauto|tauto].
      * intros x E [Hx _]. apply Hk. by rewrite <- E.
    + simpl. erewrite list_filter_iff; [reflexivity|]. intros x. cbn beta.
      rewrite elem_of_cons. split; [tauto|].
      intros [[E|?] HQx]; [|tauto]. rewrite E in HQx. tauto.
Qed.

Lemma fmap_list_bind {A B C : Type} (g : B → C) (f : A → list B) (l : list A) :
  g <$> (l ≫= f) = l ≫= (λ x, g <$> f x).
Proof.
  induction l as [|x l IH]; [done|]. by rewrite !bind_cons, fmap_app, IH.
Qed.

Lemma pop_of_right_only_row (r : Pop.row) : pop_of (right_only_row r) = r.
Proof. by destruct r. Qed.

Lemma pop_of_both_row (l : Stats.row) (r : Pop.row) : pop_of (both_row l r) = r.
Proof. by destruct r. Qed.

Lemma filter_fmap_tag {A : Type} (row : A → Merged.row) (t t' : merge_tag)
    (l : list A) :
  (∀ x, Merged._merge (row x) = t') →
  filter (λ m, Merged._merge m = t) (row <$> l)
  = if decide (t' = t) then row <$> l else [].
Proof.
  intros Ht. destruct (decide (t' = t)) as [E|E].
  - apply filter_all, Forall_fmap, Forall_forall. intros x _. simpl.
    by rewrite Ht.
  - apply filter_none, Forall_fmap, Forall_forall. intros x _. simpl.
    by rewrite Ht.
Qed.

Lemma left_rows_nil (k : string) (left : list Stats.row) :
  left_rows k left = [] ↔ k ∉ Stats.Division <$> left.
Proof.
  split.
  - intros E Hk. apply list_elem_of_fmap in Hk as (l & -> & Hl).
    by apply (filter_nil_not _ _ l E Hl).
  - intros Hk. apply filter_none, Forall_forall. intros l Hl E. apply Hk.
    rewrite <- E. by apply list_elem_of_fmap_2.
Qed.

Lemma right_rows_nil (k : option string) (right : list Pop.row) :
  right_rows k right = [] ↔ k ∉ Pop.County_Sub_County <$> right.
Proof.
  split.
  - intros E Hk. apply list_elem_of_fmap in Hk as (r & -> & Hr).
    by apply (filter_nil_not _ _ r E Hr).
  - intros Hk. apply filter_none, Forall_forall. intros r Hr E. apply Hk.
    rewrite <- E. by apply list_elem_of_fmap_2.
Qed.

Section join_key_tags.
Variables (left : list Stats.row) (right : list Pop.row) (k : string).
Hypothesis left_keys : NoDup (Stats.Division <$> left).

Lemma join_key_both :
  pop_of <$> filter (λ m, Merged._merge m = both)
               (join_key (left_rows k left) (right_rows (Some k) right))
  = if decide (cell_in (Stats.Division <$> left) (Some k))
    then right_rows (Some k) right else [].
Proof.
  pose proof (length_filter_key_le Stats.Division k left left_keys) as Hls.
  fold (left_rows k left) in Hls. pose proof (left_rows_nil k left) as Hnil.
  destruct (left_rows k left) as [|l [|l' ls]]; [| |simpl in Hls; lia].
  - rewrite decide_False by (apply Hnil; done). cbn [join_key].
    by rewrite (filter_fmap_tag _ _ right_only).
  - rewrite decide_True
      by (simpl; destruct (decide (k ∈ Stats.Division <$> left)) as [|N];
          [done|by apply Hnil in N]).
    destruct (right_rows (Some k) right) as [|r rs]; [done|]. cbn [join_key].
    rewrite bind_cons, app_nil_r, (filter_fmap_tag _ _ both) by done.
    rewrite decide_True by done. rewrite <- list_fmap_compose.
    rewrite (list_fmap_ext _ id (r :: rs))
      by (intros; apply pop_of_both_row).
    by rewrite list_fmap_id.
Qed.

Lemma join_key_right_only :
  pop_of <$> filter (λ m, Merged._merge m = right_only)
               (join_key (left_rows k left) (right_rows (Some k) right))
  = if decide (¬ cell_in (Stats.Division <$> left) (Some k))
    then right_rows (Some k) right else [].
Proof.
  pose proof (length_filter_key_le Stats.Division k left left_keys) as Hls.
  fold (left_rows k left) in Hls. pose proof (left_rows_nil k left) as Hnil.
  destruct (left_rows k left) as [|l [|l' ls]]; [| |simpl in Hls; lia].
  - rewrite decide_True by (apply Hnil; done). cbn [join_key].
    rewrite (filter_fmap_tag _ _ right_only) by done.
    rewrite decide_True by done. rewrite <- list_fmap_compose.
    rewrite (list_fmap_ext _ id (right_rows (Some k) right))
      by (intros; apply pop_of_right_only_row).
    by rewrite list_fmap_id.
  - rewrite decide_False.
    2:{ simpl. intros N. by apply Hnil in N. }
    destruct (right_rows (Some k) right) as [|r rs]; cbn [join_key].
    + by rewrite (filter_fmap_tag _ _ left_only).
    + rewrite bind_cons, app_nil_r. by rewrite (filter_fmap_tag _ _ both).
Qed.
End join_key_tags.

Lemma join_key_left_only (left : list Stats.row) (right : list Pop.row)
    (k : string) :
  filter (λ m, Merged._merge m = left_only)
    (join_key (left_rows k left) (right_rows (Some k) right))
  = left_only_row
    <$> (if decide (Some k ∉ Pop.County_Sub_County <$> right)
         then filter (λ l, Stats.Division l = k) left else []).
Proof.
  fold (left_rows k left). pose proof (right_rows_nil (Some k) right) as Hnil.
  destruct (left_rows k left) as [|l ls].
  - cbn [join_key]. rewrite (filter_fmap_tag _ _ right_only) by done.
    rewrite decide_False by done. by destruct (decide _).
  - destruct (right_rows (Some k) right) as [|r rs]; cbn [join_key].
    + rewrite decide_True by (by apply Hnil).
      rewrite (filter_fmap_tag _ _ left_only) by done. by rewrite decide_True.
    + rewrite decide_False by (intros N; by apply Hnil in N).
      apply filter_none, Forall_forall. intros m Hm.
      apply list_elem_of_bind in Hm as (x & Hm & _).
      by apply list_elem_of_fmap in Hm as (y & -> & _).
Qed.

Lemma bind_Some_keys {B : Type} (F : option string → list B) (keys : list string) :
  keys ≫= (λ k, F (Some k)) = (Some <$> keys) ≫= F.
Proof. by rewrite list_fmap_bind. Qed.

Lemma merge_outer_both (left : list Stats.row) (right : list Pop.row) :
  NoDup (Stats.Division <$> left) →
  pop_of <$> filter (λ m, Merged._merge m = both) (merge_outer left right)
  ≡ₚ filter (λ r, cell_in (Stats.Division <$> left) (Pop.County_Sub_County r))
       right.
Proof.
  intros Hnd. rewrite merge_outer_eq, filter_app.
  rewrite (filter_fmap_tag _ _ right_only) by done.
  rewrite decide_False, app_nil_r by done.
  rewrite filter_list_bind, fmap_list_bind.
  rewrite (list_bind_ext _
    (λ k, (λ c, if decide (cell_in (Stats.Division <$> left) c)
                then filter (λ r, Pop.County_Sub_County r = c) right else [])
          (Some k)) _ (merge_keys left right))
    by (done || (intros k; by apply join_key_both)).
  rewrite (bind_Some_keys
    (λ c, if decide (cell_in (Stats.Division <$> left) c)
          then filter (λ r, Pop.County_Sub_County r = c) right else [])).
  rewrite (bind_filter_keys Pop.County_Sub_County
             (cell_in (Stats.Division <$> left)))
    by (apply (NoDup_fmap_2 _), NoDup_merge_keys).
  erewrite filter_ext_in; [reflexivity|]. intros r Hr. cbn beta.
  split; [tauto|]. intros Hc. split; [|done].
  destruct (Pop.County_Sub_County r) as [d|] eqn:Ed; [|done].
  apply list_elem_of_fmap_2, elem_of_merge_keys. right. by exists r.
Qed.

Lemma merge_outer_right_only (left : list Stats.row) (right : list Pop.row) :
  NoDup (Stats.Division <$> left) →
  pop_of <$> filter (λ m, Merged._merge m = right_only) (merge_outer left right)
  ≡ₚ filter (λ r, ¬ cell_in (Stats.Division <$> left) (Pop.County_Sub_County r))
       right.
Proof.
  intros Hnd. rewrite merge_outer_eq, filter_app, fmap_app.
  rewrite (filter_fmap_tag _ _ right_only) by done.
  rewrite decide_True by done. rewrite <- (list_fmap_compose right_only_row).
  rewrite (list_fmap_ext _ id (right_rows None right))
    by (intros; apply pop_of_right_only_row).
  rewrite list_fmap_id, filter_list_bind, fmap_list_bind.
  rewrite (list_bind_ext _
    (λ k, (λ c, if decide (¬ cell_in (Stats.Division <$> left) c)
                then filter (λ r, Pop.County_Sub_County r = c) right else [])
          (Some k)) _ (merge_keys left right))
    by (done || (intros k; by apply join_key_right_only)).
  rewrite (bind_Some_keys
    (λ c, if decide (¬ cell_in (Stats.Division <$> left) c)
          then filter (λ r, Pop.County_Sub_County r = c) right else [])).
  rewrite (bind_filter_keys Pop.County_Sub_County
             (λ c, ¬ cell_in (Stats.Division <$> left) c))
    by (apply (NoDup_fmap_2 _), NoDup_merge_keys).
  unfold right_rows. rewrite filter_app_disjoint.
  - erewrite filter_ext_in; [reflexivity|]. intros r Hr. cbn beta. split.
    + intros [[_ Hc]|E]; [done|]. rewrite E. simpl. tauto.
    + intros Hc. destruct (Pop.County_Sub_County r) as [d|] eqn:Ed; [|by right].
      left. split; [|done].
      apply list_elem_of_fmap_2, elem_of_merge_keys. right. by exists r.
  - intros r [Hk _] E. rewrite E in Hk.
    apply list_elem_of_fmap in Hk as (d & Hd & _). discriminate.
Qed.

Lemma merge_outer_left_only (left : list Stats.row) (right : list Pop.row) :
  filter (λ m, Merged._merge m = left_only) (merge_outer left right)
  ≡ₚ left_only_row
     <$> filter (λ l, Some (Stats.Division l) ∉ Pop.County_Sub_County <$> right)
           left.
Proof.
  rewrite merge_outer_eq, filter_app.
  rewrite (filter_fmap_tag _ _ right_only) by done.
  rewrite decide_False, app_nil_r by done.
  rewrite filter_list_bind.
  rewrite (list_bind_ext _
    (λ k, left_only_row
          <$> (if decide (Some k ∉ Pop.County_Sub_County <$> right)
               then filter (λ l, Stats.Division l = k) left else []))
    _ (merge_keys left right))
    by (done || (intros k; by apply join_key_left_only)).
  rewrite <- fmap_list_bind.
  rewrite (bind_filter_keys Stats.Division
             (λ k, Some k ∉ Pop.County_Sub_County <$> right))
    by apply NoDup_merge_keys.
  erewrite filter_ext_in; [reflexivity|]. intros l Hl. cbn beta.
  split; [tauto|]. intros Hc. split; [|done].
  apply elem_of_merge_keys. left. by exists l.
Qed.

(** X8: the matched rows of the merged table carry the population rows whose
    subcounty is a division of [school_stats], each once; the population-only
    rows carry the other population rows, each once; the school-only rows
    are the rows of [school_stats] whose division no population row has. *)
Theorem merge_schools_population_by_tag (school_df : list School.row)
    (pop_df : list Pop.row) (col : School.row → option string) :
  pop_of <$> filter (λ m, Merged._merge m = both)
               (merge_schools_population school_df pop_df col)
  ≡ₚ filter (λ r, cell_in (Stats.Division <$> school_stats school_df col)
                    (Pop.County_Sub_County r)) pop_df
  ∧ pop_of <$> filter (λ m, Merged._merge m = right_only)
                 (merge_schools_population school_df pop_df col)
    ≡ₚ filter (λ r, ¬ cell_in (Stats.Division <$> school_stats school_df col)
                        (Pop.County_Sub_County r)) pop_df
  ∧ filter (λ m, Merged._merge m = left_only)
      (merge_schools_population school_df pop_df col)
    ≡ₚ left_only_row
       <$> filter (λ l, Some (Stats.Division l)
                        ∉ Pop.County_Sub_County <$> pop_df)
             (school_stats school_df col).
Proof.
  unfold merge_schools_population.
  split; [apply merge_outer_both, NoDup_school_stats|].
  split; [apply merge_outer_right_only, NoDup_school_stats|].
  apply merge_outer_left_only.
Qed.

Lemma merge_outer_pop (left : list Stats.row) (right : list Pop.row) :
  NoDup (Stats.Division <$> left) →
  pop_of <$> filter (λ m, Merged._merge m ≠ left_only) (merge_outer left right)
  ≡ₚ right.
Proof.
  intros Hnd.
  rewrite (list_filter_iff _
    (λ m, Merged._merge m = both ∨ Merged._merge m = right_only)).
  2:{ intros m. destruct (Merged._merge m); split;
        (done || (intros [?|?]; done) || (intros _; by left)
         || (intros _; by right)). }
  rewrite <- filter_app_disjoint by (intros m E1 E2; congruence).
  rewrite fmap_app, merge_outer_both, merge_outer_right_only by done.
  apply filter_app_complement.
Qed.

(** X9: the merge neither loses nor repeats a population row: the rows of
    the merged table other than school-only carry the population table, row
    for row, in some order; so there are as many of them as population
    rows. *)
Theorem merge_schools_population_keeps_population
    (school_df : list School.row) (pop_df : list Pop.row)
    (col : School.row → option string) :
  pop_of <$> filter (λ m, Merged._merge m ≠ left_only)
               (merge_schools_population school_df pop_df col)
  ≡ₚ pop_df
  ∧ length (filter (λ m, Merged._merge m = both)
              (merge_schools_population school_df pop_df col))
    + length (filter (λ m, Merged._merge m = right_only)
                (merge_schools_population school_df pop_df col))
    = length pop_df.
Proof.
  unfold merge_schools_population.
  pose proof (NoDup_school_stats school_df col) as Hnd.
  split; [by apply merge_outer_pop|].
  rewrite <- (Permutation_length
    (filter_app_complement
       (λ r, cell_in (Stats.Division <$> school_stats school_df col)
               (Pop.County_Sub_County r)) pop_df)).
  rewrite length_app.
  rewrite <- (Permutation_length (merge_outer_both _ pop_df Hnd)).
  rewrite <- (Permutation_length (merge_outer_right_only _ pop_df Hnd)).
  by rewrite !length_fmap.
Qed.

(** ** Empty tables *)

(** X10: with no school the merged table is the population table, each row
    population-only; with no population row it is [school_stats], each row
    school-only; either way the metric derivation returns the empty table. *)
Theorem merge_empty_table (astype_float : string → option num)
    (school_df : list School.row) (pop_df : list Pop.row)
    (col : School.row → option string) :
  merge_schools_population [] pop_df col ≡ₚ right_only_row <$> pop_df
  ∧ merge_schools_population school_df [] col
    ≡ₚ left_only_row <$> school_stats school_df col
  ∧ calculate_completion_metrics astype_float
      (merge_schools_population [] pop_df col) = Some []
  ∧ calculate_completion_metrics astype_float
      (merge_schools_population school_df [] col) = Some [].
Proof.
  assert (Hright : ∀ m, m ∈ merge_outer [] pop_df →
                        m = right_only_row (pop_of m)).
  { intros m Hm. apply elem_of_merge_outer in Hm.
    destruct Hm as [l Hl _|r _ _|l r Hl _ _];
      [by apply elem_of_nil in Hl|by rewrite pop_of_right_only_row
      |by apply elem_of_nil in Hl]. }
  assert (Hleft : ∀ m, m ∈ merge_outer (school_stats school_df col) [] →
                       Merged._merge m = left_only).
  { intros m Hm. apply elem_of_merge_outer in Hm.
    destruct Hm as [l _ _|r Hr _|l r _ Hr _];
      [done|by apply elem_of_nil in Hr..]. }
  assert (Hmatched : ∀ merged_df,
    matched merged_df = [] →
    calculate_completion_metrics astype_float merged_df = Some []).
  { intros merged_df E. unfold calculate_completion_metrics.
    by rewrite getitem_mask_matched, E. }
  unfold merge_schools_population.
  change (school_stats [] col) with (@nil Stats.row).
  split; [|split; [|split]].
  - rewrite <- (merge_outer_pop [] pop_df) at 2 by apply NoDup_nil_2.
    rewrite filter_all.
    2:{ apply Forall_forall. intros m Hm. by rewrite (Hright m Hm). }
    rewrite <- list_fmap_compose.
    rewrite <- (list_fmap_id (merge_outer [] pop_df)) at 1.
    erewrite list_fmap_ext; [reflexivity|]. intros i m Hm. cbn.
    apply list_elem_of_lookup_2 in Hm. by rewrite <- (Hright m Hm).
  - rewrite <- (filter_all (λ m, Merged._merge m = left_only)
                 (merge_outer (school_stats school_df col) []))
      by (by apply Forall_forall).
    rewrite merge_outer_left_only. f_equiv. rewrite filter_all; [done|].
    apply Forall_forall. intros l _. apply not_elem_of_nil.
  - apply Hmatched, filter_none, Forall_forall. intros m Hm.
    by rewrite (Hright m Hm).
  - apply Hmatched, filter_none, Forall_forall. intros m Hm.
    by rewrite (Hleft m Hm).
Qed.

(** ** Denominators that are not zero *)

Lemma foldl_fadd_finite (ys : list num) (a : Q) :
  Forall (λ y, is_finite y = true) ys →
  is_finite (foldl fadd (Fin a) ys) = true.
Proof.
  intros H. revert a. induction H as [|y ys Hy _ IH]; intros a; [done|].
  destruct y as [b| | |]; try discriminate. cbn [foldl fadd]. apply IH.
Qed.

Lemma agg_sum_finite (xs : list num) :
  Forall (λ x, x ≠ PInf ∧ x ≠ NInf) xs → is_finite (agg_sum xs) = true.
Proof.
  intros H. unfold agg_sum, dropna. apply foldl_fadd_finite, Forall_forall.
  intros x Hx. apply list_elem_of_filter in Hx as [Hn Hx].
  apply (proj1 (Forall_forall _ _) H) in Hx as [? ?]. by destruct x.
Qed.

Lemma fdiv_finite (x : num) (n : nat) :
  is_finite x = true → 1 ≤ n → is_finite (fdiv x (num_of_nat n)) = true.
Proof.
  destruct x as [a| | |]; try discriminate. intros _ Hn.
  unfold num_of_nat. cbn [fdiv]. unfold Qsign. cbn [Qnum inject_Z].
  destruct (Z.of_nat n ?= 0)%Z eqn:E; [|done..].
  apply Z.compare_eq in E. lia.
Qed.

Lemma school_count_pos (school_df : list School.row)
    (col : School.row → option string) (s : Stats.row) :
  Forall (λ r, is_Some (School.FID r)) school_df →
  s ∈ school_stats school_df col → 1 ≤ Stats.School_Count s.
Proof.
  intros HF Hs. rewrite school_stats_eq in Hs.
  apply list_elem_of_fmap in Hs as (k & -> & Hk).
  apply elem_of_group_keys, list_elem_of_fmap in Hk as (r & Hk & Hr).
  cbn [agg_row Stats.School_Count]. rewrite agg_count_fmap, list_filter_filter.
  assert (Hin : r ∈ filter (λ a, is_Some (School.FID a)
                               ∧ normalized col a = Some k) school_df).
  { apply list_elem_of_filter. split; [|done]. split; [|done].
    by apply (proj1 (Forall_forall _ _) HF). }
  destruct (filter _ school_df); [by apply elem_of_nil in Hin|simpl; lia].
Qed.

(** X11: when every school has an identifier, every row of [school_stats]
    counts at least one school; if moreover no enrollment is an infinity, the
    students per school of every matched division is a finite number. *)
Theorem students_per_school_finite (astype_float : string → option num)
    (school_df : list School.row) (pop_df : list Pop.row)
    (col : School.row → option string)
    (metrics_df : list Metrics.row) (capita : list Capita.row) :
  Forall (λ r, is_Some (School.FID r)) school_df →
  Forall (λ r, School.TotalEnrol r ≠ PInf ∧ School.TotalEnrol r ≠ NInf)
    school_df →
  calculate_completion_metrics astype_float
    (merge_schools_population school_df pop_df col) = Some metrics_df →
  create_schools_per_capita_charts astype_float metrics_df = Some capita →
  Forall (λ s, 1 ≤ Stats.School_Count s) (school_stats school_df col)
  ∧ Forall (λ c, is_finite (Capita.Students_per_School c) = true) capita.
Proof.
  intros HF HE Hm Hc.
  split; [apply Forall_forall; intros s Hs; by eapply school_count_pos|].
  apply calculate_completion_metrics_Some in Hm.
  destruct (create_schools_per_capita_charts_Some astype_float metrics_df)
    as (capita' & Hc' & Hcap).
  rewrite Hc in Hc'. injection Hc' as <-.
  assert (Hmet : Forall (λ m, ∃ n a, 1 ≤ n
      ∧ Metrics.School_Count m = num_of_nat n
      ∧ Metrics.Total_Enrollment m = Fin a) metrics_df).
  { apply Forall_forall. intros m Hin.
    apply list_elem_of_lookup in Hin as (i & Hi).
    destruct (Forall2_lookup_r _ _ _ i m Hm Hi) as (r & Hr & Hrm).
    destruct Hrm as (_ & _ & _ & _ & _ & _ & _ & _ & -> & -> & _).
    apply list_elem_of_lookup_2 in Hr. unfold matched in Hr.
    apply list_elem_of_filter in Hr as [Hboth Hr].
    apply elem_of_merge_outer in Hr.
    destruct Hr as [l _ _|p _ _|l p Hl _ _]; [discriminate..|].
    pose proof (school_count_pos school_df col l HF Hl) as Hn.
    cbn [both_row Merged.School_Count Merged.Total_Enrollment].
    rewrite school_stats_eq in Hl.
    apply list_elem_of_fmap in Hl as (k & -> & _).
    cbn [agg_row Stats.Total_Enrollment Stats.School_Count] in *.
    assert (Hfin : is_finite (agg_sum (School.TotalEnrol
        <$> filter (λ r, normalized col r = Some k) school_df)) = true).
    { apply agg_sum_finite, Forall_fmap, Forall_forall. intros r Hr.
      apply list_elem_of_filter in Hr as [_ Hr].
      by apply (proj1 (Forall_forall _ _) HE). }
    destruct (agg_sum _) as [a| | |]; try discriminate.
    by eexists _, a. }
  clear Hm Hc. induction Hcap as [|m c ms cs Hmc _ IH]; [apply Forall_nil_2|].
  apply Forall_cons in Hmet as [(n & a & Hn & En & Ea) Hmet].
  apply Forall_cons. split; [|by apply IH].
  destruct Hmc as (_ & _ & -> & _). rewrite En, Ea. by apply fdiv_finite.
Qed.

(** ** The completion chart *)

Lemma rate_le_total : Total rate_le.
Proof.
  intros x y. unfold rate_le.
  destruct x as [a| | |], y as [b| | |]; cbn; try (by left); try (by right).
  unfold Qle_bool.
  destruct (Z.leb_spec (Qnum a * QDen b) (Qnum b * QDen a)) as [?|Hlt];
    [by left|right].
  destruct (Z.leb_spec (Qnum b * QDen a) (Qnum a * QDen b)); [done|lia].
Qed.

Lemma rate_row_le_total : Total rate_row_le.
Proof. intros a b. apply rate_le_total. Qed.

Lemma rate_rows_eq (astype_float : string → option num)
    (df : list Metrics.row) :
  imap (λ i r,
    {| rate_base := r;
       Total_Pop := default NaN ((Metrics.Total <$> df) !! i);
       Completed := default NaN ((Metrics.Left_After_Completion <$> df) !! i);
       Completion_Rate :=
         default NaN
           (rate_series (Metrics.Left_After_Completion <$> df)
              (Metrics.Total <$> df) !! i) |}) df
  = rate_row_of <$> df.
Proof.
  apply list_eq. intros i. unfold rate_series.
  rewrite list_lookup_imap, lookup_zip_with, !list_lookup_fmap.
  by destruct (df !! i) as [m|].
Qed.

Lemma create_completion_rates_chart_eq (astype_float : string → option num)
    (metrics_df : list Metrics.row) :
  create_completion_rates_chart astype_float metrics_df
  = (let df := merge_sort rate_row_le (rate_row_of <$> metrics_df) in
     bars ← mapM (λ r,
         comp ← first_of_division df (Metrics.Division (rate_base r)) Completed;
         total ← first_of_division df (Metrics.Division (rate_base r)) Total_Pop;
         Some {| bar_division := Metrics.Division (rate_base r);
                 bar_rate := Completion_Rate r;
                 bar_color := rate_color (Completion_Rate r);
                 bar_comp := comp;
                 bar_total := total |}) df;
     top ← py_max (Completion_Rate <$> df);
     Some {| bars := bars;
             avg := agg_mean (Completion_Rate <$> df);
             xlim := fmul top (Fin (12 # 10)) |}).
Proof.
  unfold create_completion_rates_chart. rewrite !clean_numeric_float.
  cbn [mbind option_bind]. by rewrite (rate_rows_eq astype_float).
Qed.

Lemma create_completion_rates_chart_rates
    (astype_float : string → option num) (metrics_df : list Metrics.row)
    (chart : rate_chart) :
  create_completion_rates_chart astype_float metrics_df = Some chart →
  bar_rate <$> bars chart
  = Completion_Rate <$> merge_sort rate_row_le (rate_row_of <$> metrics_df).
Proof.
  rewrite create_completion_rates_chart_eq. cbn zeta.
  set (df := merge_sort rate_row_le (rate_row_of <$> metrics_df)).
  destruct (mapM _ df) as [bs|] eqn:Ebs; [|discriminate].
  cbn [mbind option_bind].
  destruct (py_max _) as [top|]; [|discriminate].
  cbn [mbind option_bind]. intros [= <-]. cbn [bars].
  apply mapM_Some in Ebs.
  apply list_eq_Forall2, Forall2_fmap.
  eapply Forall2_impl; [apply Forall2_flip, Ebs|]. intros b r Hb. cbn in Hb.
  destruct (first_of_division df _ Completed); [|discriminate].
  destruct (first_of_division df _ Total_Pop); [|discriminate].
  cbn in Hb. by injection Hb as <-.
Qed.

(** X12: when the completion chart is computed, its bars are as many as the
    rows of the table; their rates are the rates completed / total * 100 of
    the rows, in ascending order with the nulls last; a bar has the colour of
    its rate, and a null rate has the colour of the rates under 45. *)
Theorem create_completion_rates_chart_spec (astype_float : string → option num)
    (metrics_df : list Metrics.row) (chart : rate_chart) :
  create_completion_rates_chart astype_float metrics_df = Some chart →
  length (bars chart) = length metrics_df
  ∧ bar_rate <$> bars chart
    ≡ₚ (λ m, fmul (fdiv (Metrics.Left_After_Completion m) (Metrics.Total m))
               (Fin 100)) <$> metrics_df
  ∧ Sorted rate_le (bar_rate <$> bars chart)
  ∧ Forall (λ b, bar_color b = rate_color (bar_rate b)
                 ∧ (bar_rate b = NaN → bar_color b = "#e74c3c"))
      (bars chart).
Proof.
  rewrite create_completion_rates_chart_eq. cbn zeta.
  set (df := merge_sort rate_row_le (rate_row_of <$> metrics_df)).
  destruct (mapM _ df) as [bs|] eqn:Ebs; [|discriminate].
  cbn [mbind option_bind].
  destruct (py_max _) as [top|]; [|discriminate].
  cbn [mbind option_bind]. intros [= <-]. cbn [bars].
  apply mapM_Some in Ebs.
  assert (Hrates : bar_rate <$> bs = Completion_Rate <$> df).
  { apply list_eq_Forall2, Forall2_fmap.
    eapply Forall2_impl; [apply Forall2_flip, Ebs|]. intros b r Hb. cbn in Hb.
    destruct (first_of_division df _ Completed); [|discriminate].
    destruct (first_of_division df _ Total_Pop); [|discriminate].
    cbn in Hb. by injection Hb as <-. }
  assert (Hperm : df ≡ₚ rate_row_of <$> metrics_df)
    by apply merge_sort_Permutation.
  split; [|split; [|split]].
  - rewrite <- (Forall2_length _ _ _ Ebs), Hperm. apply length_fmap.
  - rewrite Hrates, Hperm, <- list_fmap_compose. done.
  - rewrite Hrates. pose proof rate_row_le_total.
    apply (Sorted_fmap _ rate_row_le); [done|].
    apply (Sorted_merge_sort rate_row_le).
  - apply Forall_forall. intros b Hb.
    apply list_elem_of_lookup in Hb as (i & Hi).
    destruct (Forall2_lookup_r _ _ _ i b Ebs Hi) as (r & _ & Hr). cbn in Hr.
    destruct (first_of_division df _ Completed); [|discriminate].
    destruct (first_of_division df _ Total_Pop); [|discriminate].
    cbn in Hr. injection Hr as <-. cbn. split; [done|]. by intros ->.
Qed.

(** ** The charts need a matched division *)

Lemma py_max_is_Some (xs : list num) : is_Some (py_max xs) ↔ xs ≠ [].
Proof. destruct xs; simpl; split; (done || by intros [? ?] || by eexists). Qed.

Lemma create_grouped_waterfall_is_Some (rnd : Q → Q)
    (metrics_df : list Metrics.row) :
  is_Some (create_grouped_waterfall rnd metrics_df) ↔ metrics_df ≠ [].
Proof.
  unfold create_grouped_waterfall. rewrite length_fmap.
  destruct metrics_df as [|m ms]; [split; [by intros [? ?]|done]|].
  rewrite bool_decide_false by done. cbn [fmap list_fmap py_max mbind option_bind].
  split; [done|by eexists].
Qed.

Lemma create_completion_rates_chart_is_Some (astype_float : string → option num)
    (metrics_df : list Metrics.row) :
  Forall (λ m, is_Some (Metrics.Division m)) metrics_df →
  is_Some (create_completion_rates_chart astype_float metrics_df)
  ↔ metrics_df ≠ [].
Proof.
  intros Hdiv. rewrite create_completion_rates_chart_eq. cbn zeta.
  assert (Hperm : merge_sort rate_row_le (rate_row_of <$> metrics_df)
                  ≡ₚ rate_row_of <$> metrics_df)
    by apply merge_sort_Permutation.
  destruct metrics_df as [|m ms].
  - split; [|done]. by intros [? ?].
  - split; [done|]. intros _.
    remember (merge_sort rate_row_le (rate_row_of <$> m :: ms)) as df eqn:Edf.
    clear Edf.
    assert (Hbars : is_Some (mapM (λ r,
        comp ← first_of_division df (Metrics.Division (rate_base r)) Completed;
        total ← first_of_division df (Metrics.Division (rate_base r)) Total_Pop;
        Some {| bar_division := Metrics.Division (rate_base r);
                bar_rate := Completion_Rate r;
                bar_color := rate_color (Completion_Rate r);
                bar_comp := comp;
                bar_total := total |}) df)).
    { apply mapM_is_Some, Forall_forall. intros r Hr. cbn.
      assert (Hd : is_Some (Metrics.Division (rate_base r))).
      { pose proof Hr as Hr'. rewrite Hperm in Hr'.
        apply list_elem_of_fmap in Hr' as (m' & -> & Hm').
        by apply (proj1 (Forall_forall _ _) Hdiv). }
      destruct Hd as [d Hd]. rewrite Hd. cbn [first_of_division].
      assert (Hin : r ∈ filter (λ r0, Metrics.Division (rate_base r0) = Some d) df)
        by (by apply list_elem_of_filter).
      destruct (filter _ df) as [|r0 rs]; [by apply elem_of_nil in Hin|].
      by eexists. }
    destruct Hbars as [bs ->]. cbn [mbind option_bind].
    assert (Hmax : is_Some (py_max (Completion_Rate <$> df))).
    { apply py_max_is_Some. intros E. apply fmap_nil_inv in E.
      rewrite E in Hperm. by apply Permutation_nil_l in Hperm. }
    destruct Hmax as [top ->]. by eexists.
Qed.

Lemma matched_merge_rows (school_df : list School.row) (pop_df : list Pop.row)
    (col : School.row → option string) (r : Merged.row) :
  r ∈ matched (merge_schools_population school_df pop_df col) →
  ∃ k, Merged.Division r = Some k
     ∧ Merged.County_Sub_County r = Some k
     ∧ k ∈ Stats.Division <$> school_stats school_df col.
Proof.
  unfold matched, merge_schools_population. intros Hr.
  apply list_elem_of_filter in Hr as [Hboth Hr].
  apply elem_of_merge_outer in Hr.
  destruct Hr as [l _ _|p _ _|l p Hl _ Hk]; [discriminate..|].
  exists (Stats.Division l). split; [done|]. split; [done|].
  by apply list_elem_of_fmap_2.
Qed.

Section metrics_of_merge.
Variables (astype_float : string → option num)
  (school_df : list School.row) (pop_df : list Pop.row)
  (col : School.row → option string) (metrics_df : list Metrics.row).

Hypothesis calculated :
  calculate_completion_metrics astype_float
    (merge_schools_population school_df pop_df col) = Some metrics_df.

Lemma metrics_rows :
  Forall (λ m, ∃ k, Metrics.Division m = Some k
                  ∧ Metrics.County_Sub_County m = Some k
                  ∧ k ∈ Stats.Division <$> school_stats school_df col)
    metrics_df.
Proof.
  apply calculate_completion_metrics_Some in calculated.
  apply Forall_forall. intros m Hm.
  apply list_elem_of_lookup in Hm as (i & Hi).
  destruct (Forall2_lookup_r _ _ _ i m calculated Hi) as (r & Hr & Hrm).
  destruct Hrm as (_ & _ & _ & _ & _ & _ & -> & -> & _).
  apply list_elem_of_lookup_2 in Hr.
  destruct (matched_merge_rows _ _ _ _ Hr) as (k & ? & ? & ?). by exists k.
Qed.

Lemma metrics_length :
  length metrics_df
  = length (filter (λ r, cell_in (Stats.Division <$> school_stats school_df col)
                           (Pop.County_Sub_County r)) pop_df).
Proof.
  apply calculate_completion_metrics_Some, Forall2_length in calculated.
  rewrite <- calculated. unfold matched, merge_schools_population.
  rewrite <- (Permutation_length
    (merge_outer_both _ pop_df (NoDup_school_stats school_df col))).
  by rewrite length_fmap.
Qed.

Lemma metrics_nonempty :
  metrics_df ≠ []
  ↔ ∃ r, r ∈ pop_df
       ∧ cell_in (Stats.Division <$> school_stats school_df col)
           (Pop.County_Sub_County r).
Proof.
  pose proof metrics_length as Hlen. split.
  - intros Hne.
    destruct (filter (λ r, cell_in (Stats.Division <$> school_stats school_df col)
                             (Pop.County_Sub_County r)) pop_df)
      as [|r rs] eqn:E.
    + destruct metrics_df; [done|discriminate].
    + assert (Hr : r ∈ r :: rs) by apply list_elem_of_here.
      rewrite <- E in Hr. apply list_elem_of_filter in Hr as [? ?].
      by exists r.
  - intros (r & Hr & Hc) ->.
    assert (Hin : r ∈ filter
      (λ r, cell_in (Stats.Division <$> school_stats school_df col)
              (Pop.County_Sub_County r)) pop_df)
      by (by apply list_elem_of_filter).
    destruct (filter _ pop_df); [by apply elem_of_nil in Hin|discriminate].
Qed.
End metrics_of_merge.

(** X13: the metrics table of a merged table has one row per population row
    whose subcounty is a division of [school_stats]; in each of its rows the
    division and the subcounty are that same name. *)
Theorem metrics_of_merged_table (astype_float : string → option num)
    (school_df : list School.row) (pop_df : list Pop.row)
    (col : School.row → option string) (metrics_df : list Metrics.row) :
  calculate_completion_metrics astype_float
    (merge_schools_population school_df pop_df col) = Some metrics_df →
  length metrics_df
  = length (filter (λ r, cell_in (Stats.Division <$> school_stats school_df col)
                           (Pop.County_Sub_County r)) pop_df)
  ∧ Forall (λ m, ∃ k, Metrics.Division m = Some k
                    ∧ Metrics.County_Sub_County m = Some k
                    ∧ k ∈ Stats.Division <$> school_stats school_df col)
      metrics_df.
Proof.
  intros H. split; [by eapply metrics_length|by eapply metrics_rows].
Qed.

(** X14: the values of the two charts drawn from the metrics table of a
    merged table are computed exactly when some population row has the
    division of a school as its subcounty; when none has, the metrics table
    is empty and both raise, the waterfall on its division by the number of
    rows and the completion chart on the maximum of no rate. *)
Theorem charts_need_a_match (astype_float : string → option num)
    (rnd : Q → Q) (school_df : list School.row) (pop_df : list Pop.row)
    (col : School.row → option string) (metrics_df : list Metrics.row) :
  calculate_completion_metrics astype_float
    (merge_schools_population school_df pop_df col) = Some metrics_df →
  (is_Some (create_grouped_waterfall rnd metrics_df)
   ↔ ∃ r, r ∈ pop_df
        ∧ cell_in (Stats.Division <$> school_stats school_df col)
            (Pop.County_Sub_County r))
  ∧ (is_Some (create_completion_rates_chart astype_float metrics_df)
     ↔ ∃ r, r ∈ pop_df
          ∧ cell_in (Stats.Division <$> school_stats school_df col)
              (Pop.County_Sub_County r))
  ∧ (metrics_df = [] →
     create_grouped_waterfall rnd metrics_df = None
     ∧ create_completion_rates_chart astype_float metrics_df = None).
Proof.
  intros H.
  pose proof (metrics_nonempty _ _ _ _ _ H) as Hne.
  pose proof (metrics_rows _ _ _ _ _ H) as Hrows.
  split; [by rewrite create_grouped_waterfall_is_Some|]. split.
  - rewrite create_completion_rates_chart_is_Some; [done|].
    eapply Forall_impl; [exact Hrows|]. intros m (k & -> & _). by eexists.
  - by intros ->.
Qed.

(** ** The bars of the waterfall *)

Lemma Qnat_pos (n : nat) : 1 ≤ n → (1 <= inject_Z (Z.of_nat n))%Q.
Proof. intros Hn. unfold Qle. simpl. lia. Qed.

Lemma Qnat_le (i n : nat) :
  i < n → (0 <= inject_Z (Z.of_nat i))%Q
          ∧ (inject_Z (Z.of_nat i) + 1 <= inject_Z (Z.of_nat n))%Q.
Proof. intros Hi. unfold Qle. simpl. lia. Qed.

Lemma float_min_small : (float_min <= 1 # 2 ^ 60)%Q.
Proof.
  unfold float_min, Qle. cbn [Qnum Qden]. intros H. vm_compute in H.
  discriminate.
Qed.

Lemma float_max_large : (inject_Z (2 ^ 60) <= float_max)%Q.
Proof.
  unfold float_max, Qle. cbn [Qnum Qden inject_Z]. intros H. vm_compute in H.
  discriminate.
Qed.

(** Linear arithmetic on rationals with halves. *)
Ltac lraq := unfold Qdiv in *; change (/ 2)%Q with (1 # 2)%Q in *; lra.

Section rounding.
Variable rnd : Q → Q.
Hypothesis Hrnd : float64_rounding rnd.

Local Open Scope Q_scope.

Lemma rnd_error (q B : Q) :
  q == 0 ∨ (float_min <= Qabs q ∧ Qabs q <= float_max) →
  Qabs q <= B →
  - ((1 # 2 ^ 53) * B) <= rnd q - q ∧ rnd q - q <= (1 # 2 ^ 53) * B.
Proof.
  intros Hq HB. destruct Hrnd as [Hexact Hrel].
  assert (H0 : 0 <= B) by (eapply Qle_trans; [apply Qabs_nonneg|exact HB]).
  change (2 ^ 53)%positive with 9007199254740992%positive.
  destruct Hq as [Hq|[Hlo Hhi]].
  - assert (E : rnd q == q).
    { apply (Hexact q 0%Z); [rewrite Hq; reflexivity|]. vm_compute.
      discriminate. }
    lra.
  - pose proof (Hrel q Hlo Hhi) as H.
    change (2 ^ 53)%positive with 9007199254740992%positive in H.
    assert (H' : Qabs (rnd q - q) <= (1 # 9007199254740992) * B) by lra.
    apply Qabs_Qle_condition in H'. lra.
Qed.

Lemma in_range (q : Q) :
  (1 # 2 ^ 60 <= q ∧ q <= inject_Z (2 ^ 60))
  ∨ (1 # 2 ^ 60 <= - q ∧ - q <= inject_Z (2 ^ 60)) →
  float_min <= Qabs q ∧ Qabs q <= float_max.
Proof.
  intros Hq. pose proof float_min_small. pose proof float_max_large.
  assert (Hpos : 0 < 1 # 2 ^ 60) by reflexivity.
  destruct Hq as [[Ha Hb]|[Ha Hb]].
  - rewrite Qabs_pos by lra. lra.
  - rewrite Qabs_neg by lra. lra.
Qed.

Lemma rnd_error_pos (q : Q) :
  1 # 2 ^ 60 <= q → q <= inject_Z (2 ^ 60) →
  - ((1 # 2 ^ 53) * q) <= rnd q - q ∧ rnd q - q <= (1 # 2 ^ 53) * q.
Proof.
  intros Hl Hu. apply rnd_error.
  - right. apply in_range. left. by split.
  - rewrite Qabs_pos; [apply Qle_refl|].
    eapply Qle_trans; [|exact Hl]. discriminate.
Qed.

Lemma rnd_error_neg (q : Q) :
  1 # 2 ^ 60 <= - q → - q <= inject_Z (2 ^ 60) →
  - ((1 # 2 ^ 53) * - q) <= rnd q - q ∧ rnd q - q <= (1 # 2 ^ 53) * - q.
Proof.
  intros Hl Hu. apply rnd_error.
  - right. apply in_range. right. by split.
  - rewrite Qabs_neg; [apply Qle_refl|].
    assert (0 <= - q) by (eapply Qle_trans; [|exact Hl]; discriminate). lra.
Qed.

Lemma rnd_zero (q : Q) : q == 0 → rnd q == 0.
Proof.
  intros Hq. destruct Hrnd as [Hexact _].
  rewrite (Hexact q 0%Z); [exact Hq|rewrite Hq; reflexivity|].
  vm_compute. discriminate.
Qed.

Lemma rnd_half (q : Q) (z : Z) :
  q == inject_Z z / 2 → (Z.abs z ≤ 2 ^ 53)%Z → rnd q == q.
Proof. destruct Hrnd as [Hexact _]. apply Hexact. Qed.

(** The place of a bar over the rationals: the width [rnd qw] is the
    rounded quotient of the rounded 0.85 by the number [N] of rows, the
    offset [rnd qo] the rounded product of [c = I + 1/2 - N/2] and the
    width, and the place [rnd qx] the rounded sum of the tick [J] and the
    offset. *)
Lemma bar_layout (N I J c qk qw qo qx : Q) :
  1 <= N → N <= inject_Z (2 ^ 53) → 0 <= I → I + 1 <= N →
  c == I + (1 # 2) - N / 2 →
  c == 0 ∨ 1 # 2 <= c ∨ c <= - (1 # 2) →
  J == 0 ∨ (1 <= J ∧ J <= 4) →
  qk == 85 # 100 →
  qw == rnd qk / N →
  qo == c * rnd qw →
  qx == J + rnd qo →
  0 < rnd qw
  ∧ 849 # 1000 <= rnd qw * N ∧ rnd qw * N <= 851 # 1000
  ∧ J - (43 # 100) <= rnd qx - rnd qw / 2
  ∧ rnd qx + rnd qw / 2 <= J + (43 # 100).
Proof.
  intros HN1 HN2 HI HIN Hc Hc0 HJ Hqk Hqw Hqo Hqx.
  change (inject_Z (2 ^ 53)) with (9007199254740992 # 1) in HN2.
  (* the literal *)
  destruct (rnd_error_pos qk) as [Hk1 Hk2];
    [rewrite Hqk; discriminate..|].
  change (2 ^ 53)%positive with 9007199254740992%positive in Hk1, Hk2.
  set (k := rnd qk) in *. clearbody k.
  (* the width *)
  assert (HqwN : qw * N == k) by (rewrite Hqw; field; lra).
  assert (Hqw0 : 0 <= qw).
  { rewrite Hqw. apply Qle_shift_div_l; lra. }
  assert (Hqw1 : 1 * qw <= N * qw) by (apply Qmult_le_compat_r; assumption).
  assert (Hqw2 : N * qw <= (9007199254740992 # 1) * qw)
    by (apply Qmult_le_compat_r; assumption).
  destruct (rnd_error_pos qw) as [Hw1 Hw2].
  { change (2 ^ 60)%positive with 1152921504606846976%positive. lra. }
  { change (inject_Z (2 ^ 60)) with (1152921504606846976 # 1). lra. }
  change (2 ^ 53)%positive with 9007199254740992%positive in Hw1, Hw2.
  set (w := rnd qw) in *. clearbody w.
  assert (Hw0 : 0 < w) by lra.
  assert (HwN1 : (qw - (1 # 9007199254740992) * qw) * N <= w * N)
    by (apply Qmult_le_compat_r; lra).
  assert (HwN2 : w * N <= (qw + (1 # 9007199254740992) * qw) * N)
    by (apply Qmult_le_compat_r; lra).
  assert (HwN3 : (qw - (1 # 9007199254740992) * qw) * N
                 == k - (1 # 9007199254740992) * k) by (rewrite <- HqwN; ring).
  assert (HwN4 : (qw + (1 # 9007199254740992) * qw) * N
                 == k + (1 # 9007199254740992) * k) by (rewrite <- HqwN; ring).
  split; [exact Hw0|]. split; [lra|]. split; [lra|].
  (* the offset *)
  assert (HcM : c * w <= (N - 1) / 2 * w).
  { apply Qmult_le_compat_r; [|lraq]. rewrite Hc. lraq. }
  assert (Hcm : - ((N - 1) / 2) * w <= c * w).
  { apply Qmult_le_compat_r; [|lraq]. rewrite Hc. lraq. }
  assert (HM : (N - 1) / 2 * w == (w * N - w) / 2) by field.
  assert (Hw3 : (1 # 36028797018963968) <= w) by lraq.
  assert (Ho : - ((1 # 9007199254740992) * ((w * N - w) / 2) + (w * N - w) / 2)
               <= rnd qo
               ∧ rnd qo
                 <= (1 # 9007199254740992) * ((w * N - w) / 2) + (w * N - w) / 2
               ∧ (J == 0 →
                  rnd qo == 0 ∨ 1 # 2 ^ 60 <= rnd qo ∨ 1 # 2 ^ 60 <= - rnd qo)).
  { change (2 ^ 60)%positive with 1152921504606846976%positive.
    destruct Hc0 as [Hz|[Hp|Hn]].
    - assert (Hq0 : qo == 0) by (rewrite Hqo, Hz; ring).
      pose proof (rnd_zero qo Hq0) as Ez. rewrite Ez.
      split; [lraq|]. split; [lraq|]. intros _. left. reflexivity.
    - assert (Hlow : (1 # 2) * w <= c * w)
        by (apply Qmult_le_compat_r; lraq).
      destruct (rnd_error_pos qo) as [Ho1 Ho2].
      { change (2 ^ 60)%positive with 1152921504606846976%positive. lraq. }
      { change (inject_Z (2 ^ 60)) with (1152921504606846976 # 1). lraq. }
      change (2 ^ 53)%positive with 9007199254740992%positive in Ho1, Ho2.
      split; [lraq|]. split; [lraq|]. intros _. right. left. lraq.
    - assert (Hlow : c * w <= - (1 # 2) * w)
        by (apply Qmult_le_compat_r; lraq).
      destruct (rnd_error_neg qo) as [Ho1 Ho2].
      { change (2 ^ 60)%positive with 1152921504606846976%positive. lraq. }
      { change (inject_Z (2 ^ 60)) with (1152921504606846976 # 1). lraq. }
      change (2 ^ 53)%positive with 9007199254740992%positive in Ho1, Ho2.
      split; [lraq|]. split; [lraq|]. intros _. right. right. lraq. }
  destruct Ho as (Ho1 & Ho2 & Ho3).
  set (o := rnd qo) in *. clearbody o.
  (* the place *)
  assert (Hx : - (5 # 9007199254740992) <= rnd qx - qx
               ∧ rnd qx - qx <= 5 # 9007199254740992).
  { destruct HJ as [HJ0|[HJ1 HJ4]].
    - destruct (Ho3 HJ0) as [Hz|[Hp|Hn]].
      + assert (Hq0 : qx == 0) by (rewrite Hqx, HJ0, Hz; ring).
        pose proof (rnd_zero qx Hq0). lraq.
      + destruct (rnd_error_pos qx) as [Hx1 Hx2].
        { lraq. }
        { change (inject_Z (2 ^ 60)) with (1152921504606846976 # 1). lraq. }
        change (2 ^ 53)%positive with 9007199254740992%positive in Hx1, Hx2.
        lraq.
      + destruct (rnd_error_neg qx) as [Hx1 Hx2].
        { lraq. }
        { change (inject_Z (2 ^ 60)) with (1152921504606846976 # 1). lraq. }
        change (2 ^ 53)%positive with 9007199254740992%positive in Hx1, Hx2.
        lraq.
    - destruct (rnd_error_pos qx) as [Hx1 Hx2].
      { change (2 ^ 60)%positive with 1152921504606846976%positive. lraq. }
      { change (inject_Z (2 ^ 60)) with (1152921504606846976 # 1). lraq. }
      change (2 ^ 53)%positive with 9007199254740992%positive in Hx1, Hx2.
      lraq. }
  destruct HJ as [HJ0|[HJ1 HJ4]]; split; lraq.
Qed.

Local Close Scope Q_scope.

(** The width and the place of the bar at tick [j] of the division at
    index [i] of [n]. *)
Lemma place_of_bar (n i j : nat) :
  (Z.of_nat n ≤ 2 ^ 53)%Z → i < n → j < 5 →
  ∃ wq q : Q,
    fl rnd (fdiv (fl rnd (Fin (85 # 100))) (num_of_nat n)) = Fin wq
    ∧ fl rnd (fadd (num_of_nat j) (bar_offset rnd n i (Fin wq))) = Fin q
    ∧ (0 < wq)%Q
    ∧ (849 # 1000 <= wq * inject_Z (Z.of_nat n))%Q
    ∧ (wq * inject_Z (Z.of_nat n) <= 851 # 1000)%Q
    ∧ (inject_Z (Z.of_nat j) - (43 # 100) <= q - wq / 2)%Q
    ∧ (q + wq / 2 <= inject_Z (Z.of_nat j) + (43 # 100))%Q.
Proof.
  intros Hn Hi Hj.
  assert (Hs : Qsign (inject_Z (Z.of_nat n)) = Gt)
    by (unfold Qsign; cbn [Qnum inject_Z]; apply Z.compare_gt_iff; lia).
  unfold bar_offset, fsub, num_of_nat, fl, fdiv, fneg, fadd, fmul, fin.
  rewrite Hs. change (Qsign 2) with Gt. cbv beta iota.
  set (N := inject_Z (Z.of_nat n)). set (I := inject_Z (Z.of_nat i)).
  set (J := inject_Z (Z.of_nat j)).
  set (qk := (85 # 100)%Q).
  set (qw := Qred (Qred (rnd qk) / N)).
  set (qa := Qred (N / 2)).
  set (qb := Qred (I + Qred (- Qred (rnd qa)))).
  set (qc := Qred (Qred (rnd qb) + (1 # 2))).
  set (c := Qred (rnd qc)).
  set (qo := Qred (c * Qred (rnd qw))).
  set (qx := Qred (J + Qred (rnd qo))).
  exists (Qred (rnd qw)), (Qred (rnd qx)).
  split; [reflexivity|]. split; [reflexivity|].
  destruct (Qnat_le i n Hi) as [HI HIN]. fold I N in HI, HIN.
  assert (HN1 : (1 <= N)%Q) by (apply Qnat_pos; lia).
  assert (HN2 : (N <= inject_Z (2 ^ 53))%Q)
    by (unfold N; by rewrite <- Zle_Qle).
  assert (Ea : (rnd qa == N / 2)%Q).
  { assert (E : (qa == inject_Z (Z.of_nat n) / 2)%Q) by apply Qred_correct.
    rewrite (rnd_half qa (Z.of_nat n) E) by lia. exact E. }
  assert (Eb : (rnd qb == I - N / 2)%Q).
  { assert (E : (qb == I - N / 2)%Q).
    { unfold qb. rewrite !Qred_correct, Ea. ring. }
    rewrite (rnd_half qb (2 * Z.of_nat i - Z.of_nat n)); [exact E| |lia].
    rewrite E. unfold I, N, Z.sub.
    rewrite inject_Z_plus, inject_Z_mult, inject_Z_opp. field. }
  assert (Ec : (c == inject_Z (2 * Z.of_nat i - Z.of_nat n + 1) / 2)%Q).
  { assert (E : (qc == inject_Z (2 * Z.of_nat i - Z.of_nat n + 1) / 2)%Q).
    { unfold qc. rewrite !Qred_correct, Eb. unfold I, N, Z.sub.
      rewrite !inject_Z_plus, inject_Z_mult, inject_Z_opp. field. }
    unfold c. rewrite Qred_correct.
    rewrite (rnd_half qc (2 * Z.of_nat i - Z.of_nat n + 1) E) by lia.
    exact E. }
  assert (Hc : (c == I + (1 # 2) - N / 2)%Q).
  { rewrite Ec. unfold I, N, Z.sub.
    rewrite !inject_Z_plus, inject_Z_mult, inject_Z_opp. field. }
  assert (Hc0 : (c == 0)%Q ∨ (1 # 2 <= c)%Q ∨ (c <= - (1 # 2))%Q).
  { set (z := (2 * Z.of_nat i - Z.of_nat n + 1)%Z) in Ec.
    destruct (Z.lt_trichotomy z 0) as [Hz|[Hz|Hz]].
    - right. right. rewrite Ec.
      assert (inject_Z z <= inject_Z (-1))%Q by (rewrite <- Zle_Qle; lia).
      change (inject_Z (-1)) with (- (1))%Q in *. lraq.
    - left. rewrite Ec, Hz. reflexivity.
    - right. left. rewrite Ec.
      assert (inject_Z 1 <= inject_Z z)%Q by (rewrite <- Zle_Qle; lia).
      change (inject_Z 1) with 1%Q in *. lraq. }
  assert (HJ : (J == 0)%Q ∨ (1 <= J)%Q ∧ (J <= 4)%Q).
  { destruct j as [|j]; [left; reflexivity|right].
    split; unfold J; [change 1%Q with (inject_Z 1)|change 4%Q with (inject_Z 4)];
      rewrite <- Zle_Qle; lia. }
  destruct (bar_layout N I J c qk qw qo qx HN1 HN2 HI HIN Hc Hc0 HJ)
    as (H1 & H2 & H3 & H4 & H5).
  - reflexivity.
  - unfold qw. by rewrite !Qred_correct.
  - unfold qo. by rewrite !Qred_correct.
  - unfold qx. by rewrite !Qred_correct.
  - rewrite !Qred_correct. done.
Qed.
End rounding.

(** X15: under the rounding of float64, the waterfall of a non-empty table
    of at most 2^53 rows has one group of five bars per row; the width of a
    bar is positive, and the widths of the bars of a tick add up to 0.85
    within a thousandth; the bar of a row at a tick, taken with its width,
    lies within 0.43 of the tick, so the bars of one tick stay apart from
    those of the next. *)
Theorem create_grouped_waterfall_bars (rnd : Q → Q)
    (metrics_df : list Metrics.row) (w : waterfall) :
  float64_rounding rnd →
  (Z.of_nat (length metrics_df) ≤ 2 ^ 53)%Z →
  create_grouped_waterfall rnd metrics_df = Some w →
  length (groups w) = length metrics_df
  ∧ ∃ wq, width w = Fin wq
    ∧ (0 < wq)%Q
    ∧ (849 # 1000 <= wq * inject_Z (Z.of_nat (length metrics_df)))%Q
    ∧ (wq * inject_Z (Z.of_nat (length metrics_df)) <= 851 # 1000)%Q
    ∧ ∀ (i : nat) (g : list bar), groups w !! i = Some g →
        length g = 5
        ∧ ∀ (j : nat) (b : bar), g !! j = Some b →
            ∃ q, bar_x b = Fin q
              ∧ (inject_Z (Z.of_nat j) - (43 # 100) <= q - wq / 2)%Q
              ∧ (q + wq / 2 <= inject_Z (Z.of_nat j) + (43 # 100))%Q.
Proof.
  intros Hrnd Hlen. unfold create_grouped_waterfall. rewrite length_fmap.
  set (n := length metrics_df) in *.
  destruct (bool_decide (n = 0)) eqn:En; [discriminate|].
  apply bool_decide_eq_false in En.
  destruct (place_of_bar rnd Hrnd n 0 0 Hlen) as (wq & _ & Ew & _ & Hw0 & Hw1
    & Hw2 & _); [lia..|].
  rewrite Ew.
  destruct (py_max _) as [top|]; [|discriminate].
  cbn [mbind option_bind]. intros [= <-]. cbn [groups width].
  split; [apply length_imap|].
  exists wq. split; [reflexivity|]. split; [exact Hw0|]. split; [exact Hw1|].
  split; [exact Hw2|].
  intros i g Hg. rewrite list_lookup_imap in Hg.
  destruct (metrics_df !! i) as [m|] eqn:Em; [|discriminate].
  injection Hg as <-. split; [reflexivity|].
  apply lookup_lt_Some in Em. fold n in Em.
  intros j b Hb.
  assert (Hj : j < 5).
  { apply lookup_lt_Some in Hb. exact Hb. }
  destruct (place_of_bar rnd Hrnd n i j Hlen Em Hj) as (wq' & q & Ew' & Eq
    & _ & _ & _ & Hlo & Hhi).
  rewrite Ew in Ew'. injection Ew' as <-.
  exists q. split; [|by split].
  unfold division_bars in Hb.
  do 5 (destruct j as [|j]; [injection Hb as <-; exact Eq|]). discriminate.
Qed.

(** ** The divisions of the scatter plot *)

Lemma remove_dups_singleton {A : Type} `{!EqDecision A} (l : list A) (x : A) :
  remove_dups l = [x] ↔ x ∈ l ∧ ∀ y, y ∈ l → y = x.
Proof.
  split.
  - intros E. split.
    + apply elem_of_remove_dups. rewrite E. apply list_elem_of_here.
    + intros y Hy. apply elem_of_remove_dups in Hy. rewrite E in Hy.
      by apply list_elem_of_singleton in Hy.
  - intros [Hx Hall]. pose proof (NoDup_remove_dups l) as Hnd.
    apply elem_of_remove_dups in Hx.
    assert (Hall' : ∀ y, y ∈ remove_dups l → y = x)
      by (intros y Hy; by apply Hall, elem_of_remove_dups).
    destruct (remove_dups l) as [|a [|b k]].
    + by apply elem_of_nil in Hx.
    + f_equal. apply Hall', list_elem_of_here.
    + apply NoDup_cons in Hnd as [Hab _]. exfalso. apply Hab.
      rewrite (Hall' a) by apply list_elem_of_here.
      rewrite (Hall' b) by (apply list_elem_of_further, list_elem_of_here).
      apply list_elem_of_here.
Qed.

(** X17: the sorted list of divisions of the scatter plot is computed unless
    the division column holds both a null cell and a name, in which case
    sorting raises; when computed it holds each cell of the column once, the
    names in increasing order. *)
Theorem sorted_unique_spec (series : list (option string)) :
  (sorted_unique series = None
   ↔ None ∈ series ∧ ∃ s : string, Some s ∈ series)
  ∧ ∀ l, sorted_unique series = Some l →
      NoDup l
      ∧ (∀ c, c ∈ l ↔ c ∈ series)
      ∧ Sorted string_le (omap id l).
Proof.
  unfold sorted_unique.
  destruct (decide (None ∈ remove_dups series)) as [Hnone|Hnone].
  - rewrite bool_decide_true by done.
    destruct (decide (remove_dups series = [None])) as [E|E].
    + rewrite bool_decide_true by done. split.
      * split; [discriminate|]. intros (_ & s & Hs).
        apply remove_dups_singleton in E as [_ Hall]. by apply Hall in Hs.
      * intros l [= <-]. split; [apply NoDup_singleton|].
        apply remove_dups_singleton in E as [Hin Hall].
        split; [|repeat constructor]. intros c. rewrite list_elem_of_singleton.
        split; [by intros ->|apply Hall].
    + rewrite bool_decide_false by done. split; [|discriminate].
      split; [|done]. intros _.
      apply (proj1 (elem_of_remove_dups _ _)) in Hnone.
      split; [done|].
      destruct (decide (Forall (λ c, c = None) series)) as [Hall|Hnot].
      * destruct E. apply remove_dups_singleton. split; [done|].
        by apply Forall_forall.
      * apply not_Forall_Exists in Hnot; [|apply _].
        apply Exists_exists in Hnot as ([s|] & Hs & Hne);
          [by exists s|by destruct Hne].
  - rewrite bool_decide_false by done. split.
    + split; [discriminate|]. intros [H _]. by apply elem_of_remove_dups in H.
    + intros l [= <-].
      assert (Hperm : merge_sort string_le (omap id (remove_dups series))
                      ≡ₚ omap id (remove_dups series))
        by apply merge_sort_Permutation.
      assert (Homap : ∀ k : list (option string),
        None ∉ k → Some <$> omap id k = k).
      { induction k as [|[s|] k IH]; [done| |].
        - rewrite not_elem_of_cons. intros [_ Hk]. cbn. by rewrite IH.
        - intros H. destruct H. apply list_elem_of_here. }
      split; [|split].
      * apply (NoDup_fmap_2 _). rewrite Hperm.
        apply (NoDup_fmap_1 Some). rewrite Homap by done.
        apply NoDup_remove_dups.
      * intros c. rewrite Hperm, Homap by done. apply elem_of_remove_dups.
      * assert (Hid : ∀ k : list string, omap id (Some <$> k) = k).
        { induction k as [|s k IH]; [done|]. cbn. by rewrite IH. }
        rewrite Hid. pose proof string_le_total.
        apply (Sorted_merge_sort string_le).
Qed.

(** ** Means of coordinates *)

Lemma agg_mean_finite (xs : list num) :
  xs ≠ [] → Forall (λ x, is_finite x = true) xs →
  is_finite (agg_mean xs) = true.
Proof.
  intros Hne Hfin. unfold agg_mean, dropna.
  rewrite filter_all
    by (eapply Forall_impl; [exact Hfin|]; intros x Hx; by destruct x).
  destruct xs as [|x xs]; [done|].
  pose proof (foldl_fadd_finite (x :: xs) 0 Hfin) as Hsum.
  apply fdiv_finite; [done|simpl; lia].
Qed.

(** X18: the means of the division statistics of a loaded table are finite
    numbers, never null, when no coordinate of the table is an infinity:
    the rows without coordinate were dropped at loading. *)
Theorem division_means_finite (agg_std : list num → num)
    (df : list School.row) :
  Forall (λ r, School.Latitude r ≠ PInf ∧ School.Latitude r ≠ NInf
               ∧ School.Longitude r ≠ PInf ∧ School.Longitude r ≠ NInf) df →
  Forall (λ d, is_finite (DivisionStats.Lat_Mean d) = true
               ∧ is_finite (DivisionStats.Lon_Mean d) = true)
    (create_division_statistics agg_std (load_nairobi_schools df)).
Proof.
  intros Hinf. rewrite create_division_statistics_perm.
  apply Forall_fmap, Forall_forall. intros k Hk.
  apply elem_of_group_keys, list_elem_of_fmap in Hk as (r & Hk & Hr).
  cbn [division_row DivisionStats.Lat_Mean DivisionStats.Lon_Mean].
  set (g := filter (λ r, School.Division r = Some k) (load_nairobi_schools df)).
  assert (Hne : g ≠ []).
  { assert (Hin : r ∈ g) by (by apply list_elem_of_filter).
    intros E. rewrite E in Hin. by apply elem_of_nil in Hin. }
  assert (Hg : Forall (λ r, is_finite (School.Latitude r) = true
                            ∧ is_finite (School.Longitude r) = true) g).
  { apply Forall_forall. intros x Hx. apply list_elem_of_filter in Hx as [_ Hx].
    rewrite load_nairobi_schools_filter in Hx.
    apply list_elem_of_filter in Hx as [[[Hlat Hlon] _] Hx].
    apply (proj1 (Forall_forall _ _) Hinf) in Hx as (? & ? & ? & ?).
    by destruct (School.Latitude x), (School.Longitude x). }
  split; (apply agg_mean_finite; [by intros E%fmap_nil_inv|]);
    apply Forall_fmap; (eapply Forall_impl; [exact Hg|]); by intros x [? ?].
Qed.

(** ** The rate computed again *)

(** X19: the completion rate is computed anew by each chart function and
    comes out the same: on the table the metric derivation returns, the
    rates of the completion chart are its column of rates, and the table of
    the per-capita charts has its rows unchanged. *)
Theorem rate_recomputed (astype_float : string → option num)
    (merged_df : list Merged.row) (metrics_df : list Metrics.row)
    (chart : rate_chart) (capita : list Capita.row) :
  calculate_completion_metrics astype_float merged_df = Some metrics_df →
  create_completion_rates_chart astype_float metrics_df = Some chart →
  create_schools_per_capita_charts astype_float metrics_df = Some capita →
  bar_rate <$> bars chart ≡ₚ Metrics.Completed_Rate <$> metrics_df
  ∧ Capita.base <$> capita = metrics_df.
Proof.
  intros Hm Hchart Hcap.
  apply calculate_completion_metrics_Some in Hm.
  assert (Hrate : Forall (λ m, Metrics.Completed_Rate m
      = fmul (fdiv (Metrics.Left_After_Completion m) (Metrics.Total m))
          (Fin 100)) metrics_df).
  { apply Forall_forall. intros m Hin.
    apply list_elem_of_lookup in Hin as (i & Hi).
    destruct (Forall2_lookup_r _ _ _ i m Hm Hi) as (r & _ & Hrm).
    by destruct Hrm as (_ & _ & _ & _ & _ & ? & _). }
  split.
  - rewrite (create_completion_rates_chart_rates _ _ _ Hchart).
    rewrite (merge_sort_Permutation rate_row_le), <- list_fmap_compose.
    erewrite list_fmap_ext; [reflexivity|]. intros i m Hi. cbn.
    apply list_elem_of_lookup_2 in Hi.
    by rewrite (proj1 (Forall_forall _ _) Hrate m Hi).
  - destruct (create_schools_per_capita_charts_Some astype_float metrics_df)
      as (capita' & Hc' & H2).
    rewrite Hcap in Hc'. injection Hc' as <-.
    clear Hcap Hchart Hm. induction H2 as [|m c ms cs Hmc _ IH]; [done|].
    apply Forall_cons in Hrate as [Hr Hrate]. rewrite fmap_cons, IH by done.
    f_equal. destruct Hmc as (_ & _ & _ & E1 & E2).
    rewrite E2, E1, <- Hr. by destruct m.
Qed.

(** ** The pipeline of the wrangling script *)

(** X20: in the table [main] merges, the population rows are those of the
    input whose name is one of the canonical subcounties, each once, whether
    or not a school matches; and every row with school columns (a row that
    is not right-only) has the normalized division of a primary school of
    the province NAIROBI of the input. *)
Theorem main_merged_data_spec (school_data : list School.row)
    (pop_data : list Pop.row) :
  pop_of <$> filter (λ m, Merged._merge m ≠ left_only)
               (main_merged_data school_data pop_data)
  ≡ₚ filter (λ p, cell_in get_nairobi_subcounties (Pop.County_Sub_County p))
       pop_data
  ∧ ∀ m, m ∈ main_merged_data school_data pop_data →
      Merged._merge m ≠ right_only →
      ∃ s, s ∈ school_data
        ∧ School.Province s = Some "NAIROBI"
        ∧ School.Level_ s = Some "PRIMARY SCHOOL"
        ∧ normalized School.Division s = Merged.Division m.
Proof.
  unfold main_merged_data. cbn zeta.
  rewrite subset_by_subcounties_filter, subset_by_level_filter,
    subset_by_province_filter.
  unfold merge_schools_population. split.
  - apply merge_outer_pop, NoDup_school_stats.
  - intros m Hm Htag. apply elem_of_merge_outer in Hm.
    assert (Hl : ∀ l, l ∈ school_stats
        (filter (λ r, School.Level_ r = Some "PRIMARY SCHOOL")
           (filter (λ r, School.Province r = Some "NAIROBI") school_data))
        School.Division →
      ∃ s, s ∈ school_data
        ∧ School.Province s = Some "NAIROBI"
        ∧ School.Level_ s = Some "PRIMARY SCHOOL"
        ∧ normalized School.Division s = Some (Stats.Division l)).
    { intros l Hin.
      apply (list_elem_of_fmap_2 Stats.Division) in Hin.
      rewrite school_stats_Division in Hin.
      apply elem_of_group_keys, list_elem_of_fmap in Hin as (s & Es & Hs).
      apply list_elem_of_filter in Hs as [Hlevel Hs].
      apply list_elem_of_filter in Hs as [Hprov Hs].
      by exists s. }
    destruct Hm as [l Hin _|r _ _|l r Hin _ _]; [by apply Hl|done|by apply Hl].
Qed.

(** ** Instances on the example tables *)

Lemma school_stats_pools_kibera_witness :
  ∃ s, s ∈ school_stats example_school_df School.Division
     ∧ Stats.Division s = "KIBRA"
     ∧ Stats.School_Count s = 5.
Proof.
  pick_row (school_stats example_school_df School.Division) 0 Hs.
  eexists. split; [exact Hs|]. split; [reflexivity|].
  rewrite (proj1 (proj2 (school_stats_pools_kibera example_school_df
    School.Division _ Hs)) eq_refl).
  by vm_compute.
Defined.

Lemma create_division_statistics_spec_witness :
  ∃ d, d ∈ create_division_statistics (λ _, NaN) example_school_df
     ∧ DivisionStats.Division d = "KIBERA"
     ∧ DivisionStats.School_Count d = 5.
Proof.
  pick_row (create_division_statistics (λ _, NaN) example_school_df) 0 Hd.
  eexists. split; [exact Hd|]. split; [reflexivity|].
  rewrite (proj1 (proj2 (proj2 (proj2 (create_division_statistics_spec
    (λ _, NaN) example_school_df)))) _ Hd).
  by vm_compute.
Defined.

Lemma school_stats_division_statistics_witness :
  ∃ s, s ∈ school_stats example_school_df School.Division
     ∧ Stats.Division s = "KIBRA"
     ∧ Stats.School_Count s
       = sum_list (DivisionStats.School_Count
           <$> filter (λ d, normalize_division_name (DivisionStats.Division d)
                            = "KIBRA")
                 (create_division_statistics (λ _, NaN) example_school_df)).
Proof.
  pick_row (school_stats example_school_df School.Division) 0 Hs.
  eexists. split; [exact Hs|]. split; [reflexivity|].
  apply (school_stats_division_statistics (λ _, NaN) example_school_df _ Hs).
Defined.

Lemma students_per_school_finite_witness :
  ∃ metrics_df capita,
    calculate_completion_metrics float_of_digits
      (merge_schools_population example_school_df example_pop_text
         School.Division) = Some metrics_df
    ∧ create_schools_per_capita_charts float_of_digits metrics_df = Some capita
    ∧ Forall (λ c, is_finite (Capita.Students_per_School c) = true) capita.
Proof.
  eval_some (calculate_completion_metrics float_of_digits
    (merge_schools_population example_school_df example_pop_text
       School.Division)) Em.
  match type of Em with _ = Some ?m =>
    eval_some (create_schools_per_capita_charts float_of_digits m) Ec end.
  eexists _, _. split; [exact Em|]. split; [exact Ec|].
  refine (proj2 (students_per_school_finite float_of_digits example_school_df
    example_pop_text School.Division _ _ _ _ Em Ec)).
  - repeat (apply Forall_cons_2; [by eexists|]). apply Forall_nil_2.
  - repeat (apply Forall_cons_2; [by split|]). apply Forall_nil_2.
Defined.

Lemma create_completion_rates_chart_spec_witness :
  ∃ metrics_df chart,
    calculate_completion_metrics float_of_digits
      (merge_schools_population example_school_df example_pop_text
         School.Division) = Some metrics_df
    ∧ create_completion_rates_chart float_of_digits metrics_df = Some chart
    ∧ bar_rate <$> bars chart = [Fin 25; Fin 50]
    ∧ bar_color <$> bars chart = ["#e74c3c"; "#2ecc71"]
    ∧ Sorted rate_le (bar_rate <$> bars chart).
Proof.
  eval_some (calculate_completion_metrics float_of_digits
    (merge_schools_population example_school_df example_pop_text
       School.Division)) Em.
  match type of Em with _ = Some ?m =>
    eval_some (create_completion_rates_chart float_of_digits m) Ec end.
  eexists _, _. split; [exact Em|]. split; [exact Ec|].
  split; [by vm_compute|]. split; [by vm_compute|].
  apply (create_completion_rates_chart_spec float_of_digits _ _ Ec).
Defined.

Lemma metrics_of_merged_table_witness :
  ∃ metrics_df,
    calculate_completion_metrics float_of_digits
      (merge_schools_population example_school_df example_pop_text
         School.Division) = Some metrics_df
    ∧ length metrics_df = 2
    ∧ Forall (λ m, ∃ k, Metrics.Division m = Some k
                      ∧ Metrics.County_Sub_County m = Some k
                      ∧ k ∈ Stats.Division
                            <$> school_stats example_school_df School.Division)
        metrics_df.
Proof.
  eval_some (calculate_completion_metrics float_of_digits
    (merge_schools_population example_school_df example_pop_text
       School.Division)) Em.
  eexists. split; [exact Em|]. split; [reflexivity|].
  apply (metrics_of_merged_table float_of_digits example_school_df
    example_pop_text School.Division _ Em).
Defined.

Lemma charts_need_a_match_witness :
  ∃ metrics_df,
    calculate_completion_metrics float_of_digits
      (merge_schools_population example_school_df example_pop_text
         School.Division) = Some metrics_df
    ∧ is_Some (create_grouped_waterfall (λ q, q) metrics_df).
Proof.
  eval_some (calculate_completion_metrics float_of_digits
    (merge_schools_population example_school_df example_pop_text
       School.Division)) Em.
  eexists. split; [exact Em|].
  apply (proj1 (charts_need_a_match float_of_digits (λ q, q)
    example_school_df example_pop_text School.Division _ Em)).
  eexists. split; [apply list_elem_of_here|].
  apply (bool_decide_unpack _). by vm_compute.
Defined.

Lemma create_grouped_waterfall_bars_witness :
  ∃ metrics_df w,
    calculate_completion_metrics float_of_digits
      (merge_schools_population example_school_df example_pop_text
         School.Division) = Some metrics_df
    ∧ float64_rounding (λ q, q)
    ∧ create_grouped_waterfall (λ q, q) metrics_df = Some w
    ∧ width w = Fin (17 # 40)
    ∧ length (groups w) = length metrics_df.
Proof.
  eval_some (calculate_completion_metrics float_of_digits
    (merge_schools_population example_school_df example_pop_text
       School.Division)) Em.
  match type of Em with _ = Some ?m =>
    eval_some (create_grouped_waterfall (λ q, q) m) Ew end.
  assert (Hrnd : float64_rounding (λ q, q)).
  { split; [intros; reflexivity|]. intros q _ _.
    assert (E : (q - q == 0)%Q) by ring. rewrite E.
    apply Qmult_le_0_compat; [discriminate|apply Qabs_nonneg]. }
  eexists _, _. split; [exact Em|]. split; [exact Hrnd|]. split; [exact Ew|].
  split; [reflexivity|].
  refine (proj1 (create_grouped_waterfall_bars (λ q, q) _ _ Hrnd _ Ew)).
  by vm_compute.
Defined.

Lemma sorted_unique_spec_witness :
  sorted_unique [Some "KIBERA"; None] = None
  ∧ ∃ l, sorted_unique (School.Division <$> example_school_df) = Some l
       ∧ NoDup l.
Proof.
  split.
  - apply (proj1 (sorted_unique_spec [Some "KIBERA"; None])).
    split; [apply list_elem_of_further, list_elem_of_here|].
    exists "KIBERA". apply list_elem_of_here.
  - eval_some (sorted_unique (School.Division <$> example_school_df)) El.
    eexists. split; [exact El|].
    apply (proj2 (sorted_unique_spec (School.Division <$> example_school_df))
      _ El).
Defined.

Lemma division_means_finite_witness :
  Forall (λ d, is_finite (DivisionStats.Lat_Mean d) = true
               ∧ is_finite (DivisionStats.Lon_Mean d) = true)
    (create_division_statistics (λ _, NaN)
       (load_nairobi_schools example_school_df)).
Proof.
  apply division_means_finite.
  repeat (apply Forall_cons_2; [by repeat split|]). apply Forall_nil_2.
Defined.

Lemma rate_recomputed_witness :
  ∃ metrics_df chart capita,
    calculate_completion_metrics float_of_digits
      (merge_schools_population example_school_df example_pop_text
         School.Division) = Some metrics_df
    ∧ create_completion_rates_chart float_of_digits metrics_df = Some chart
    ∧ create_schools_per_capita_charts float_of_digits metrics_df = Some capita
    ∧ Capita.base <$> capita = metrics_df.
Proof.
  eval_some (calculate_completion_metrics float_of_digits
    (merge_schools_population example_school_df example_pop_text
       School.Division)) Em.
  match type of Em with _ = Some ?m =>
    eval_some (create_completion_rates_chart float_of_digits m) Ec;
    eval_some (create_schools_per_capita_charts float_of_digits m) Ek end.
  eexists _, _, _. split; [exact Em|]. split; [exact Ec|]. split; [exact Ek|].
  apply (rate_recomputed float_of_digits _ _ _ _ Em Ec Ek).
Defined.

Lemma main_merged_data_spec_witness :
  ∃ m s, m ∈ main_merged_data example_school_df example_pop_df
    ∧ Merged.Division m = Some "KIBRA"
    ∧ s ∈ example_school_df
    ∧ normalized School.Division s = Some "KIBRA".
Proof.
  pick_row (main_merged_data example_school_df example_pop_df) 0 Hm.
  destruct (proj2 (main_merged_data_spec example_school_df example_pop_df) _
    Hm) as (s & Hs & _ & _ & Hn); [discriminate|].
  eexists _, s. split; [exact Hm|]. split; [reflexivity|]. by split.
Defined.
